(** * Telegram expense bot: reported amounts, totals and the monthly archive

    A shallow embedding of the expense bot: the records of package [models];
    of package [database], the store operations, [CalculateTotals] and
    [ArchiveMonthlyData]; of package [utils], [ValidateAmount],
    [BuildInlineKeyboard] and the two CSV generators; of package [handlers],
    [MonthlyReset] with its two guarded steps, [SendMonthlyComparison],
    [handleNewTransaction] and [handleEditedMessage].  The properties of
    the aggregation engine, of the archive and of the handlers follow.

    Modelling conventions.
    - [float64] values are exact rationals extended with the IEEE 754 special
      values [+Inf], [-Inf] and [NaN]: arithmetic on finite values is exact
      (rounding and overflow of sums are not modelled, and there is a single
      zero), while everything the code can observe about the special values
      (they are produced by [strconv.ParseFloat] and by a division by zero,
      [NaN] propagates and compares false with everything) is kept.
      Where rounding decides a property, the loops concerned are given a
      second time on the binary64 values themselves (module [Binary64], on
      the primitive floats of the kernel).
    - Go [int] and [int64] are [Z]; strings are byte strings; string literals
      are kept as written in the Go source (escape sequences not expanded).
    - A Go [map] is a [gmap]; the order in which [range] visits its keys is
      not specified by the language and is drawn from the world state.
    - A MongoDB collection is the list of its documents in natural order;
      the Telegram Bot API is the trace of the requests issued to it.
    - Every store and transport call may fail; the outcome of the successive
      calls is drawn from the world state as well. *)

From Stdlib Require Import ZArith QArith Qcanon Lqa String Ascii List.
From Stdlib Require Floats.PrimFloat.
From stdpp Require Import base numbers gmap strings list fin_maps pretty sorting.

Open Scope Z_scope.
Set Warnings "-clear-no-such-hyp".

(** ** IEEE 754 binary64, without rounding *)

Inductive float64 : Type :=
  | Finite (q : Qc)
  | PosInf
  | NegInf
  | NaN.

#[global] Instance float64_eq_dec : EqDecision float64.
Proof. solve_decision. Defined.

#[global] Instance float64_inhabited : Inhabited float64 := populate (Finite 0%Qc).

(** The constant [0.0], the Go zero value of the type. *)
Definition fzero : float64 := Finite 0%Qc.

(** [float64(n)] for an integer [n]. *)
Definition float64_of_Z (n : Z) : float64 := Finite (Q2Qc (inject_Z n)).

(** [math.MaxFloat64]. *)
Definition MaxFloat64 : float64 := float64_of_Z (2 ^ 1024 - 2 ^ 971).

Definition fneg (x : float64) : float64 :=
  match x with
  | Finite a => Finite (- a)%Qc
  | PosInf => NegInf
  | NegInf => PosInf
  | NaN => NaN
  end.

(** [math.Abs]. *)
Definition fabs (x : float64) : float64 :=
  match x with
  | Finite a => Finite (if decide (0 ≤ a)%Qc then a else (- a)%Qc)
  | PosInf | NegInf => PosInf
  | NaN => NaN
  end.

Definition fadd (x y : float64) : float64 :=
  match x, y with
  | NaN, _ | _, NaN => NaN
  | Finite a, Finite b => Finite (a + b)%Qc
  | PosInf, NegInf | NegInf, PosInf => NaN
  | PosInf, _ | _, PosInf => PosInf
  | NegInf, _ | _, NegInf => NegInf
  end.

Definition fsub (x y : float64) : float64 := fadd x (fneg y).

(** Sign of the result of multiplying or dividing an infinity by the finite
    value [b] (zero counts as positive: the model has one zero). *)
Definition signed_inf (positive : bool) : float64 :=
  if positive then PosInf else NegInf.

Definition fmul (x y : float64) : float64 :=
  match x, y with
  | NaN, _ | _, NaN => NaN
  | Finite a, Finite b => Finite (a * b)%Qc
  | Finite a, PosInf | PosInf, Finite a =>
      if decide (a = 0%Qc) then NaN else signed_inf (bool_decide (0 < a)%Qc)
  | Finite a, NegInf | NegInf, Finite a =>
      if decide (a = 0%Qc) then NaN else signed_inf (bool_decide (a < 0)%Qc)
  | PosInf, PosInf | NegInf, NegInf => PosInf
  | PosInf, NegInf | NegInf, PosInf => NegInf
  end.

(** Division: a finite non-zero value divided by zero is an infinity, zero
    divided by zero is [NaN]; no case raises an error. *)
Definition fdiv (x y : float64) : float64 :=
  match x, y with
  | NaN, _ | _, NaN => NaN
  | Finite a, Finite b =>
      if decide (b = 0%Qc) then
        if decide (a = 0%Qc) then NaN else signed_inf (bool_decide (0 < a)%Qc)
      else Finite (a / b)%Qc
  | Finite _, (PosInf | NegInf) => Finite 0%Qc
  | PosInf, Finite b => signed_inf (bool_decide (0 ≤ b)%Qc)
  | NegInf, Finite b => signed_inf (bool_decide (b < 0)%Qc)
  | (PosInf | NegInf), (PosInf | NegInf) => NaN
  end.

(** The comparison operators of Go; every comparison with [NaN] is false,
    except [!=], which is true. *)
Definition flt (x y : float64) : bool :=
  match x, y with
  | NaN, _ | _, NaN => false
  | Finite a, Finite b => bool_decide (a < b)%Qc
  | NegInf, (Finite _ | PosInf) => true
  | Finite _, PosInf => true
  | _, _ => false
  end.

Definition feqb (x y : float64) : bool :=
  match x, y with
  | NaN, _ | _, NaN => false
  | _, _ => bool_decide (x = y)
  end.

Definition fle (x y : float64) : bool := flt x y || feqb x y.
Definition fgt (x y : float64) : bool := flt y x.
Definition fne (x y : float64) : bool := negb (feqb x y).

(** Sum of a list of floats, the terms being added from the left as a Go
    loop [total += x] does. *)
Definition fsum (l : list float64) : float64 := fold_left fadd l fzero.

(** A value is a number that is strictly greater than zero. *)
Definition strictly_positive (x : float64) : Prop := flt fzero x = true.

(** ** The Go standard library functions the code calls *)

(** *** Package [strings] and [strconv] *)

Definition byte_in (lo hi : N) (c : ascii) : bool :=
  ((lo <=? N_of_ascii c) && (N_of_ascii c <=? hi))%N.

Definition is_digit (c : ascii) : bool := byte_in 48 57 c.

Definition digit_value (c : ascii) : Z := Z.of_N (N_of_ascii c) - 48.

(** ASCII white space, as [unicode.IsSpace] has it on one-byte characters
    (tab, line feed, vertical tab, form feed, carriage return, space). *)
Definition is_space (c : ascii) : bool :=
  byte_in 9 13 c || byte_in 32 32 c.

Fixpoint trim_left (s : string) : string :=
  match s with
  | String c s' => if is_space c then trim_left s' else s
  | EmptyString => EmptyString
  end.

Definition string_rev (s : string) : string :=
  string_of_list_ascii (rev (list_ascii_of_string s)).

(** [strings.TrimSpace] on strings whose white space is ASCII. *)
Definition TrimSpace (s : string) : string :=
  string_rev (trim_left (string_rev (trim_left s))).

Definition lower (c : ascii) : ascii :=
  if byte_in 65 90 c then ascii_of_N (N_of_ascii c + 32) else c.

Fixpoint to_lower (s : string) : string :=
  match s with
  | String c s' => String (lower c) (to_lower s')
  | EmptyString => EmptyString
  end.

(** [strconv.Itoa]. *)
Definition Itoa (i : Z) : string := pretty i.

(** Reads a run of decimal digits: the number read so far, how many digits
    it has, and the rest of the input. *)
Fixpoint read_digits (s : string) (acc count : Z) : Z * Z * string :=
  match s with
  | String c s' =>
      if is_digit c then read_digits s' (10 * acc + digit_value c) (count + 1)
      else (acc, count, s)
  | EmptyString => (acc, count, s)
  end.

(** An optional sign: whether it is a minus, and the rest of the input. *)
Definition read_sign (s : string) : bool * string :=
  match s with
  | String "+"%char s' => (false, s')
  | String "-"%char s' => (true, s')
  | _ => (false, s)
  end.

(** [strconv.Atoi], for the use the handlers make of it ([n, _ := Atoi(s)]):
    the integer a decimal string denotes, and zero for any other string. *)
Definition Atoi (s : string) : Z :=
  let '(neg, s1) := read_sign s in
  let '(n, count, rest) := read_digits s1 0 0 in
  if (count =? 0) || negb (bool_decide (rest = EmptyString)) then 0
  else if neg then - n else n.

(** The special values [strconv.ParseFloat] recognizes, ignoring case: the
    unsigned string [NaN], and the optionally signed strings [Inf] and
    [Infinity]. *)
Definition special (s : string) : option float64 :=
  let l := to_lower s in
  if decide (l = "nan"%string) then Some NaN
  else
    let '(neg, body) := read_sign l in
    if decide (body = "inf"%string ∨ body = "infinity"%string)
    then Some (if neg then NegInf else PosInf)
    else None.

(** The exponent part of a decimal literal: empty, or [e] or [E], an
    optional sign and at least one digit, up to the end of the input. *)
Definition read_exponent (s : string) : option Z :=
  match s with
  | EmptyString => Some 0
  | String c s' =>
      if decide (lower c = "e"%char) then
        let '(neg, s1) := read_sign s' in
        let '(e, count, rest) := read_digits s1 0 0 in
        if (count =? 0) || negb (bool_decide (rest = EmptyString)) then None
        else Some (if neg then - e else e)
      else None
  end.

(** [m * 10^e] as a rational. *)
Definition scale10 (m e : Z) : Qc :=
  if 0 <=? e then Q2Qc (inject_Z (m * 10 ^ e))
  else Q2Qc (Qmake m (Z.to_pos (10 ^ (- e)))).

(** Magnitudes from which the nearest binary64 is infinite, and up to which
    it is zero (half of the smallest subnormal number). *)
Definition overflow_threshold : Qc := Q2Qc (inject_Z (2 ^ 1024 - 2 ^ 970)).
Definition underflow_threshold : Qc := Q2Qc (Qmake 1 (2 ^ 1075)).

(** [strconv.ParseFloat(s, 64)]; [None] stands for a non-nil error (a syntax
    error, or a range error when the magnitude is too large).  The decimal
    syntax is covered: optional sign, digits with an optional point, optional
    exponent.  Hexadecimal literals and digit-separating underscores are
    rejected here.  A decimal is mapped to its exact value, except that a
    magnitude that rounds to zero gives zero. *)
Definition ParseFloat (s : string) : option float64 :=
  match special s with
  | Some f => Some f
  | None =>
      let '(neg, s1) := read_sign s in
      let '(ip, n1, s2) := read_digits s1 0 0 in
      let '(fp, n2, s3) :=
        match s2 with
        | String "."%char r => read_digits r 0 0
        | _ => (0, 0, s2)
        end in
      if n1 + n2 =? 0 then None
      else
        match read_exponent s3 with
        | None => None
        | Some e =>
            let v := scale10 (ip * 10 ^ n2 + fp) (e - n2) in
            if decide (overflow_threshold ≤ v)%Qc then None
            else if decide (v ≤ underflow_threshold)%Qc then Some (Finite 0%Qc)
            else Some (Finite (if neg then - v else v)%Qc)
        end
  end.

(** *** Package [time] *)

(** The time zone of the process ([time.Local]): the offset from UTC, in
    seconds, in force at a given instant. *)
Class Location := { utc_offset : Z → Z }.

Definition UTC : Location := {| utc_offset := λ _, 0 |}.

(** Year, month and day of the proleptic Gregorian calendar for a number of
    days since 1970-01-01. *)
Definition civil_from_days (days : Z) : Z * Z * Z :=
  let z := days + 719468 in
  let era := z / 146097 in
  let doe := z - era * 146097 in
  let yoe := (doe - doe / 1460 + doe / 36524 - doe / 146096) / 365 in
  let doy := doe - (365 * yoe + yoe / 4 - yoe / 100) in
  let mp := (5 * doy + 2) / 153 in
  let d := doy - (153 * mp + 2) / 5 + 1 in
  let m := if mp <? 10 then mp + 3 else mp - 9 in
  let y := yoe + era * 400 in
  (if m <=? 2 then y + 1 else y, m, d).

Definition pad2 (n : Z) : string :=
  if n <? 10 then "0" +:+ pretty n else pretty n.

Definition pad4 (n : Z) : string :=
  if n <? 10 then "000" +:+ pretty n
  else if n <? 100 then "00" +:+ pretty n
  else if n <? 1000 then "0" +:+ pretty n
  else pretty n.

Definition month_names : list string :=
  ["January"; "February"; "March"; "April"; "May"; "June"; "July";
   "August"; "September"; "October"; "November"; "December"]%string.

Section time.
Context `{Location}.

(** Seconds since the epoch, shifted to local wall-clock time. *)
Definition local_seconds (t : Z) : Z := t + utc_offset t.

Definition civil (t : Z) : Z * Z * Z :=
  civil_from_days (local_seconds t / 86400).

(** [t.Year()], [int(t.Month())]. *)
Definition Year (t : Z) : Z := (civil t).1.1.
Definition Month (t : Z) : Z := (civil t).1.2.
Definition Day (t : Z) : Z := (civil t).2.

(** [t.Format("2006-01")]. *)
Definition Format_month (t : Z) : string :=
  pad4 (Year t) +:+ "-" +:+ pad2 (Month t).

(** [t.Format("2006-01-02")]. *)
Definition Format_date (t : Z) : string :=
  Format_month t +:+ "-" +:+ pad2 (Day t).

(** [t.Format("15:04:05")]. *)
Definition Format_clock (t : Z) : string :=
  let s := local_seconds t mod 86400 in
  pad2 (s / 3600) +:+ ":" +:+ pad2 (s mod 3600 / 60) +:+ ":" +:+ pad2 (s mod 60).

(** [t.Format("2006-01-02 15:04:05")]. *)
Definition Format_datetime (t : Z) : string :=
  Format_date t +:+ " " +:+ Format_clock t.

(** [t.Format("January")]. *)
Definition Format_month_name (t : Z) : string :=
  default ""%string (month_names !! Z.to_nat (Month t - 1)).
End time.

(** ** Package [models] *)

Module Transaction.
(** One record of the [transactions] collection.  An empty [Category],
    [ButtonMessageID] or [ConfirmationMessageID] means that the field is
    not set. *)
Record t : Type := mk {
  ID : string;
  Amount : float64;
  Author : string;
  Category : string;
  ButtonMessageID : string;
  ConfirmationMessageID : string;
  CreatedAt : Z;
}.

#[global] Instance eq_dec : EqDecision t.
Proof. solve_decision. Defined.
End Transaction.

Module MonthlyArchive.
(** One record of the [monthly_archives] collection. *)
Record t : Type := mk {
  ID : string;
  Year : Z;
  Month : Z;
  MonthName : string;
  TotalSpent : float64;
  TotalTransactions : Z;
  Balance : float64;
  UserTotals : gmap string float64;
  CategoryTotals : gmap string float64;
  Transactions : list Transaction.t;
  AvgTransaction : float64;
  HighestTransaction : float64;
  LowestTransaction : float64;
  DaysWithSpending : Z;
  ArchivedAt : Z;
}.

#[global] Instance eq_dec : EqDecision t.
Proof. solve_decision. Defined.
End MonthlyArchive.

(** ** Errors, formatted text, and the requests sent to the outside *)

(** A Go [error]: one returned by the MongoDB driver or the Bot API, one
    built by [fmt.Errorf], or one wrapping its cause with [%w]. *)
Inductive error : Type :=
  | ExternalError
  | Errorf (msg : string)
  | Wrapf (msg : string) (cause : error).

(** A pair [(value, error)] as Go functions return it. *)
Inductive result (A : Type) : Type :=
  | Ok (a : A)
  | Err (e : error).
Arguments Ok {A} a.
Arguments Err {A} e.

#[global] Instance error_eq_dec : EqDecision error.
Proof. solve_decision. Defined.

#[global] Instance result_eq_dec {A} `{EqDecision A} : EqDecision (result A).
Proof. solve_decision. Defined.

(** The error of an empty ledger. *)
Definition NoTransactions : error := Errorf "no transactions to archive".

(** A piece of a text built with [fmt.Sprintf]: a literal, a float printed
    with [%.Nf] or [%+.Nf], an integer printed with [%d] or [%+d]. *)
Inductive piece : Type :=
  | Lit (s : string)
  | Float (precision : nat) (plus : bool) (x : float64)
  | Int (plus : bool) (n : Z).

#[global] Instance piece_eq_dec : EqDecision piece.
Proof. solve_decision. Defined.

Definition text : Type := list piece.

(** An inline keyboard: rows of buttons, each with a label and callback data. *)
Definition InlineKeyboardMarkup : Type := list (list (string * string)).

(** The requests the handlers send to the Telegram Bot API. *)
Inductive Chattable : Type :=
  | NewMessage (chatID : Z) (content : text) (parseMode : string)
      (markup : option InlineKeyboardMarkup)
  | NewEditMessageText (chatID : Z) (messageID : Z) (content : text)
      (markup : option InlineKeyboardMarkup)
  | NewDocument (chatID : Z) (name : text) (rows : list (list text)) (caption : text).

(** A value of a BSON update document. *)
Inductive bson_value : Type :=
  | BFloat (x : float64)
  | BString (s : string).

(** [bson.M]: field names and values. *)
Definition bsonM : Type := list (string * bson_value).

(** The calls made to the two MongoDB collections. *)
Inductive store_call : Type :=
  | InsertOne (doc : Transaction.t)
  | FindOne (id : string)
  | UpdateOne (id : string) (update : bsonM)
  | Find
  | DeleteMany
  | ReplaceOne (id : string) (doc : MonthlyArchive.t)
  | FindArchives (limit : Z).

(** What the program did to the outside, in order: each call to the store
    and each request to the Bot API, with whether it failed. *)
Inductive event : Type :=
  | StoreCall (c : store_call) (failed : bool)
  | BotCall (c : Chattable) (failed : bool).

(** ** The world: the store, the chat, the clock, and the choices left to the
    environment *)

Record World : Type := mkWorld {
  collection : list Transaction.t;            (* db.collection *)
  archiveCollection : list MonthlyArchive.t;  (* db.archiveCollection *)
  trace : list event;
  now : Z;                                    (* time.Now(), Unix seconds *)
  faults : list bool;          (* whether the next calls to the outside fail *)
  orders : list nat;           (* which order the next [range] loops pick *)
  next_message_id : Z;         (* id the chat gives to the next message sent *)
}.

Definition set_collection (c : list Transaction.t) (w : World) : World :=
  mkWorld c (archiveCollection w) (trace w) (now w) (faults w) (orders w)
    (next_message_id w).
Definition set_archiveCollection (a : list MonthlyArchive.t) (w : World) : World :=
  mkWorld (collection w) a (trace w) (now w) (faults w) (orders w)
    (next_message_id w).
Definition set_trace (t : list event) (w : World) : World :=
  mkWorld (collection w) (archiveCollection w) t (now w) (faults w) (orders w)
    (next_message_id w).
Definition set_faults (f : list bool) (w : World) : World :=
  mkWorld (collection w) (archiveCollection w) (trace w) (now w) f (orders w)
    (next_message_id w).
Definition set_orders (o : list nat) (w : World) : World :=
  mkWorld (collection w) (archiveCollection w) (trace w) (now w) (faults w) o
    (next_message_id w).
Definition set_next_message_id (n : Z) (w : World) : World :=
  mkWorld (collection w) (archiveCollection w) (trace w) (now w) (faults w)
    (orders w) n.

(** The part of the world the program does not control: the clock and the
    choices of the environment. *)
Definition set_environment (clock : Z) (f : list bool) (o : list nat) (w : World)
  : World :=
  mkWorld (collection w) (archiveCollection w) (trace w) clock f o
    (next_message_id w).

(** Computations that read and change the world. *)
Definition M (A : Type) : Type := World → A * World.

Definition ret {A} (a : A) : M A := λ w, (a, w).

Definition bind {A B} (m : M A) (f : A → M B) : M B := λ w,
  let '(a, w') := m w in f a w'.

Notation "'let*' x := m 'in' k" := (bind m (λ x, k))
  (at level 10, x binder, m at level 100, k at level 200).
Notation "'do' m 'in' k" := (bind m (λ _, k))
  (at level 10, m at level 100, k at level 200).

(** Whether the next call to the outside fails. *)
Definition next_fault : M bool := λ w,
  (hd false (faults w), set_faults (tl (faults w)) w).

(** Reading and changing the world. *)
Definition gets {A} (f : World → A) : M A := λ w, (f w, w).
Definition modify (f : World → World) : M unit := λ w, (tt, f w).

Definition emit (e : event) : M unit :=
  modify (λ w, set_trace (trace w ++ [e]) w).

(** [time.Now().Unix()]. *)
Definition time_Now : M Z := gets now.

(** Go's [m[k]] on a map of floats: the zero value when the key is absent. *)
Definition map_get (m : gmap string float64) (k : string) : float64 :=
  default fzero (m !! k).

(** The keys of a map in the order a [range] loop visits them: any order,
    possibly another one at each loop. *)
Definition keys_in_order (k : nat) (m : gmap string float64) : list string :=
  let keys := (map_to_list m).*1 in
  default keys (permutations keys !! k).

Definition range_keys (m : gmap string float64) : M (list string) := λ w,
  (keys_in_order (hd 0%nat (orders w)) m, set_orders (tl (orders w)) w).

(** The key-value pairs of a map in the order a [range] loop visits them. *)
Definition range_items (m : gmap string float64) : M (list (string * float64)) :=
  let* keys := range_keys m in ret ((λ k, (k, map_get m k)) <$> keys).

(** ** The MongoDB collections *)

Definition has_id (id : string) (tx : Transaction.t) : bool :=
  bool_decide (Transaction.ID tx = id).

Definition archive_has_id (id : string) (a : MonthlyArchive.t) : bool :=
  bool_decide (MonthlyArchive.ID a = id).

(** [$set] of one field on a transaction document; the field names are the
    [bson] tags of the struct.  A pair that names no field of the struct
    with a value of its type leaves the decoded struct as it is. *)
Definition set_field (tx : Transaction.t) (kv : string * bson_value) : Transaction.t :=
  let '(Transaction.mk id amount author category button confirmation created) := tx in
  match kv with
  | (k, BFloat x) =>
      if decide (k = "amount"%string)
      then Transaction.mk id x author category button confirmation created
      else tx
  | (k, BString s) =>
      if decide (k = "author"%string)
      then Transaction.mk id amount s category button confirmation created
      else if decide (k = "category"%string)
      then Transaction.mk id amount author s button confirmation created
      else if decide (k = "buttonMessageId"%string)
      then Transaction.mk id amount author category s confirmation created
      else if decide (k = "confirmationMessageId"%string)
      then Transaction.mk id amount author category button s created
      else tx
  end.

Definition apply_set (update : bsonM) (tx : Transaction.t) : Transaction.t :=
  fold_left set_field update tx.

(** Applies [f] to the first document that satisfies [p]. *)
Fixpoint update_first {A} (p : A → bool) (f : A → A) (l : list A) : list A :=
  match l with
  | [] => []
  | x :: l' => if p x then f x :: l' else x :: update_first p f l'
  end.

(** [ReplaceOne] with the upsert option: the first document that satisfies
    [p] is replaced, and the document is inserted when there is none. *)
Definition replace_upsert {A} (p : A → bool) (doc : A) (l : list A) : list A :=
  if existsb p l then update_first p (λ _, doc) l else l ++ [doc].

(** A call to the store: it fails when the environment says so, or when the
    call itself cannot succeed ([refused]); otherwise [effect] is applied to
    the world. *)
Definition store_call_with (c : store_call) (refused : bool) (effect : World → World)
  : M (option error) :=
  let* failed := next_fault in
  if failed || refused then
    do emit (StoreCall c true) in ret (Some ExternalError)
  else
    do emit (StoreCall c false) in do modify effect in ret None.

(** [collection.InsertOne]: refused when the [_id] is taken. *)
Definition collection_InsertOne (doc : Transaction.t) : M (option error) :=
  let* taken := gets (λ w, existsb (has_id (Transaction.ID doc)) (collection w)) in
  store_call_with (InsertOne doc) taken
    (λ w, set_collection (collection w ++ [doc]) w).

(** [collection.FindOne(ctx, bson.M{"_id": id}).Decode(&tx)]; no document is
    [Ok None], which stands for [mongo.ErrNoDocuments]. *)
Definition collection_FindOne (id : string) : M (result (option Transaction.t)) :=
  let* err := store_call_with (FindOne id) false (λ w, w) in
  match err with
  | Some e => ret (Err e)
  | None => gets (λ w, Ok (find (has_id id) (collection w)))
  end.

(** [collection.UpdateOne(ctx, bson.M{"_id": id}, bson.M{"$set": update})]. *)
Definition collection_UpdateOne (id : string) (update : bsonM) : M (option error) :=
  store_call_with (UpdateOne id update) false
    (λ w, set_collection (update_first (has_id id) (apply_set update) (collection w)) w).

(** [collection.Find(ctx, bson.M{})] and the reading of its cursor. *)
Definition collection_Find : M (result (list Transaction.t)) :=
  let* err := store_call_with Find false (λ w, w) in
  match err with
  | Some e => ret (Err e)
  | None => gets (λ w, Ok (collection w))
  end.

(** [collection.DeleteMany(ctx, bson.M{})]. *)
Definition collection_DeleteMany : M (option error) :=
  store_call_with DeleteMany false (set_collection []).

(** [archiveCollection.ReplaceOne(ctx, bson.M{"_id": id}, doc, upsert)]. *)
Definition archiveCollection_ReplaceOne (id : string) (doc : MonthlyArchive.t)
  : M (option error) :=
  store_call_with (ReplaceOne id doc) false
    (λ w, set_archiveCollection
            (replace_upsert (archive_has_id id) doc (archiveCollection w)) w).

(** The first [limit] elements of a list, all of them when [limit] is not
    positive. *)
Definition apply_limit {A} (limit : Z) (l : list A) : list A :=
  if 0 <? limit then take (Z.to_nat limit) l else l.

Definition archived_after (a b : MonthlyArchive.t) : Prop :=
  MonthlyArchive.ArchivedAt b ≤ MonthlyArchive.ArchivedAt a.

#[global] Instance archived_after_dec : RelDecision archived_after.
Proof. intros a b. unfold archived_after. apply _. Defined.

(** [archiveCollection.Find] sorted by [archivedAt], latest first, with an
    optional limit. *)
Definition archiveCollection_Find (limit : Z) : M (result (list MonthlyArchive.t)) :=
  let* err := store_call_with (FindArchives limit) false (λ w, w) in
  match err with
  | Some e => ret (Err e)
  | None =>
      gets (λ w, Ok (apply_limit limit (merge_sort archived_after (archiveCollection w))))
  end.

(** The Bot API: [bot.Send] returns the id of the message it sent. *)
Definition bot_Send (c : Chattable) : M (result Z) :=
  let* failed := next_fault in
  do emit (BotCall c failed) in
  if failed then ret (Err ExternalError)
  else
    let* sent := gets next_message_id in
    do modify (set_next_message_id (sent + 1)) in
    ret (Ok sent).

(** ** Package [database] *)

Definition with_CreatedAt (t : Z) (tx : Transaction.t) : Transaction.t :=
  Transaction.mk (Transaction.ID tx) (Transaction.Amount tx) (Transaction.Author tx)
    (Transaction.Category tx) (Transaction.ButtonMessageID tx)
    (Transaction.ConfirmationMessageID tx) t.

(** Wraps a possible error of the driver as [fmt.Errorf(msg + ": %w", err)]. *)
Definition wrap_error (msg : string) (err : option error) : option error :=
  match err with
  | Some e => Some (Wrapf msg e)
  | None => None
  end.

Definition InsertTransaction (tx : Transaction.t) : M (option error) :=
  let* t := time_Now in
  let* err := collection_InsertOne (with_CreatedAt t tx) in
  ret (wrap_error "failed to insert transaction" err).

(** [Ok None] is the pair [(nil, nil)]: no such transaction. *)
Definition FindTransaction (id : string) : M (result (option Transaction.t)) :=
  let* r := collection_FindOne id in
  match r with
  | Err e => ret (Err (Wrapf "failed to find transaction" e))
  | Ok tx => ret (Ok tx)
  end.

Definition UpdateTransaction (id : string) (update : bsonM) : M (option error) :=
  let* err := collection_UpdateOne id update in
  ret (wrap_error "failed to update transaction" err).

Definition GetAllTransactions : M (result (list Transaction.t)) :=
  let* r := collection_Find in
  match r with
  | Err e => ret (Err (Wrapf "failed to fetch transactions" e))
  | Ok transactions => ret (Ok transactions)
  end.

Definition DeleteAllTransactions : M (option error) :=
  let* err := collection_DeleteMany in
  ret (wrap_error "failed to delete all transactions" err).

(** The body of the loop of [CalculateTotals], on the pair
    [(userTotals, categoryTotals)]. *)
Definition totals_step (acc : gmap string float64 * gmap string float64)
    (tx : Transaction.t) : gmap string float64 * gmap string float64 :=
  let '(userTotals, categoryTotals) := acc in
  let absHalf := fabs (fdiv (Transaction.Amount tx) (float64_of_Z 2)) in
  let userTotals :=
    <[Transaction.Author tx := fadd (map_get userTotals (Transaction.Author tx)) absHalf]>
      userTotals in
  let categoryTotals :=
    if decide (Transaction.Category tx ≠ ""%string) then
      <[Transaction.Category tx :=
          fadd (map_get categoryTotals (Transaction.Category tx))
            (fabs (Transaction.Amount tx))]> categoryTotals
    else categoryTotals in
  (userTotals, categoryTotals).

Definition totals_loop (transactions : list Transaction.t)
  : gmap string float64 * gmap string float64 :=
  fold_left totals_step transactions (∅, ∅).

(** The net balance, from the users in the order the [range] loop gave. *)
Definition net_balance (users : list string) (userTotals : gmap string float64)
  : float64 :=
  match users with
  | u0 :: u1 :: _ => fsub (map_get userTotals u0) (map_get userTotals u1)
  | _ => fzero
  end.

(** Returns [(balance, categoryTotals, userTotals)]. *)
Definition CalculateTotals
  : M (result (float64 * gmap string float64 * gmap string float64)) :=
  let* r := GetAllTransactions in
  match r with
  | Err err => ret (Err err)
  | Ok transactions =>
      let '(userTotals, categoryTotals) := totals_loop transactions in
      let* users := range_keys userTotals in
      let balance := net_balance users userTotals in
      ret (Ok (balance, categoryTotals, userTotals))
  end.

(** [len(l)]. *)
Definition len {A} (l : list A) : Z := Z.of_nat (length l).

Section database.
Context `{Location}.

(** The body of the statistics loop of [ArchiveMonthlyData], on
    [(totalSpent, highestAmount, lowestAmount, uniqueDays)]. *)
Definition stats_step (acc : float64 * float64 * float64 * gset string)
    (tx : Transaction.t) : float64 * float64 * float64 * gset string :=
  let '(totalSpent, highestAmount, lowestAmount, uniqueDays) := acc in
  let amt := fabs (Transaction.Amount tx) in
  let totalSpent := fadd totalSpent amt in
  let highestAmount := if fgt amt highestAmount then amt else highestAmount in
  let lowestAmount := if flt amt lowestAmount then amt else lowestAmount in
  let day := Format_date (Transaction.CreatedAt tx) in
  (totalSpent, highestAmount, lowestAmount, {[day]} ∪ uniqueDays).

Definition stats_loop (transactions : list Transaction.t)
  : float64 * float64 * float64 * gset string :=
  fold_left stats_step transactions (fzero, fzero, MaxFloat64, ∅).

(** The statistics and the archive record of [ArchiveMonthlyData], for
    the transactions read, the totals computed and the current time. *)
Definition archive_record (transactions : list Transaction.t) (balance : float64)
    (categoryTotals userTotals : gmap string float64) (now : Z) : MonthlyArchive.t :=
  let '(totalSpent, highestAmount, lowestAmount, uniqueDays) :=
    stats_loop transactions in
  let avgTransaction := fdiv totalSpent (float64_of_Z (len transactions)) in
  let monthID := Format_month now in
  {| MonthlyArchive.ID := monthID;
     MonthlyArchive.Year := Year now;
     MonthlyArchive.Month := Month now;
     MonthlyArchive.MonthName := Format_month_name now;
     MonthlyArchive.TotalSpent := totalSpent;
     MonthlyArchive.TotalTransactions := len transactions;
     MonthlyArchive.Balance := balance;
     MonthlyArchive.UserTotals := userTotals;
     MonthlyArchive.CategoryTotals := categoryTotals;
     MonthlyArchive.Transactions := transactions;
     MonthlyArchive.AvgTransaction := avgTransaction;
     MonthlyArchive.HighestTransaction := highestAmount;
     MonthlyArchive.LowestTransaction := lowestAmount;
     MonthlyArchive.DaysWithSpending := Z.of_nat (size uniqueDays);
     MonthlyArchive.ArchivedAt := now |}.

Definition ArchiveMonthlyData : M (result MonthlyArchive.t) :=
  let* r := GetAllTransactions in
  match r with
  | Err err => ret (Err (Wrapf "failed to get transactions for archive" err))
  | Ok transactions =>
      if len transactions =? 0 then ret (Err NoTransactions)
      else
        let* r := CalculateTotals in
        match r with
        | Err err => ret (Err (Wrapf "failed to calculate totals for archive" err))
        | Ok (balance, categoryTotals, userTotals) =>
            let* now := time_Now in
            let monthID := Format_month now in
            let archive :=
              archive_record transactions balance categoryTotals userTotals now in
            let* err := archiveCollection_ReplaceOne monthID archive in
            match err with
            | Some e => ret (Err (Wrapf "failed to save monthly archive" e))
            | None => ret (Ok archive)
            end
        end
  end.
End database.

Definition GetRecentArchives (limit : Z) : M (result (list MonthlyArchive.t)) :=
  let* r := archiveCollection_Find limit in
  match r with
  | Err e => ret (Err (Wrapf "failed to fetch recent archives" e))
  | Ok archives => ret (Ok archives)
  end.

(** ** Package [utils] *)

Definition ValidateAmount (text : string) : result float64 :=
  let text := TrimSpace text in
  match ParseFloat text with
  | None => Err (Errorf "invalid amount format")
  | Some amount =>
      if fle amount fzero then Err (Errorf "amount must be positive")
      else Ok amount
  end.

Definition category_button (messageID category : string) : string * string :=
  (category, "category_" +:+ category +:+ "_" +:+ messageID).

(** Two category buttons per row. *)
Fixpoint category_rows (categories : list string) (messageID : string)
  : InlineKeyboardMarkup :=
  match categories with
  | c1 :: c2 :: rest =>
      [category_button messageID c1; category_button messageID c2]
        :: category_rows rest messageID
  | [c1] => [[category_button messageID c1]]
  | [] => []
  end.

Definition BuildInlineKeyboard (categories : list string) (messageID : string)
  : InlineKeyboardMarkup :=
  category_rows categories messageID
    ++ [[("🗑️ Delete Transaction"%string, "delete_" +:+ messageID)]].

(** Cells of the CSV files. *)
Definition cell (s : string) : text := [Lit s].
Definition cell_amount (x : float64) : text := [Float 2 false x].
Definition cell_percent (x : float64) : text := [Float 1 false x; Lit "%"].
Definition cell_int (n : Z) : text := [Lit (Itoa n)].

(** [(part / total) * 100]. *)
Definition percent_of (part total : float64) : float64 :=
  fmul (fdiv part total) (float64_of_Z 100).

Section csv.
Context `{Location}.

Definition share_row (total : float64) (item : string * float64) : list text :=
  [cell item.1; cell_amount item.2; cell_percent (percent_of item.2 total)].

Definition transaction_row (tx : Transaction.t) : list text :=
  let date := Transaction.CreatedAt tx in
  let category :=
    if decide (Transaction.Category tx = ""%string) then "Uncategorized"%string
    else Transaction.Category tx in
  [cell (Format_date date); cell (Format_clock date);
   cell_amount (fabs (Transaction.Amount tx)); cell (Transaction.Author tx);
   cell category].

(** The rows written to the CSV writer.  The writer is a buffer in memory,
    whose writes do not fail. *)
Definition GenerateMonthlyCSV (archive : MonthlyArchive.t) : M (result (list (list text))) :=
  let* now := time_Now in
  let header :=
    [ [cell "Monthly Expense Report"];
      [cell "Month";
       cell (MonthlyArchive.MonthName archive +:+ " " +:+ Itoa (MonthlyArchive.Year archive))];
      [cell "Generated"; cell (Format_datetime now)];
      [];
      [cell "SUMMARY"];
      [cell "Total Spent"; cell_amount (MonthlyArchive.TotalSpent archive)];
      [cell "Total Transactions"; cell_int (MonthlyArchive.TotalTransactions archive)];
      [cell "Average Transaction"; cell_amount (MonthlyArchive.AvgTransaction archive)];
      [cell "Highest Transaction"; cell_amount (MonthlyArchive.HighestTransaction archive)];
      [cell "Lowest Transaction"; cell_amount (MonthlyArchive.LowestTransaction archive)];
      [cell "Days with Spending"; cell_int (MonthlyArchive.DaysWithSpending archive)];
      [cell "Balance"; cell_amount (MonthlyArchive.Balance archive)];
      [] ] in
  let* users :=
    if 0 <? Z.of_nat (size (MonthlyArchive.UserTotals archive)) then
      let* items := range_items (MonthlyArchive.UserTotals archive) in
      ret ([[cell "USER SPENDING"]; [cell "User"; cell "Amount"; cell "Percentage"]]
           ++ (share_row (MonthlyArchive.TotalSpent archive) <$> items) ++ [[]])
    else ret [] in
  let* categories :=
    if 0 <? Z.of_nat (size (MonthlyArchive.CategoryTotals archive)) then
      let* items := range_items (MonthlyArchive.CategoryTotals archive) in
      ret ([[cell "CATEGORY BREAKDOWN"];
            [cell "Category"; cell "Amount"; cell "Percentage"]]
           ++ (share_row (MonthlyArchive.TotalSpent archive) <$> items) ++ [[]])
    else ret [] in
  let transactions :=
    if 0 <? len (MonthlyArchive.Transactions archive) then
      [[cell "DETAILED TRANSACTIONS"];
       [cell "Date"; cell "Time"; cell "Amount"; cell "Author"; cell "Category"]]
      ++ (transaction_row <$> MonthlyArchive.Transactions archive)
    else [] in
  ret (Ok (header ++ users ++ categories ++ transactions)).

Definition month_label (archive : MonthlyArchive.t) : text :=
  cell (MonthlyArchive.MonthName archive +:+ " " +:+ Itoa (MonthlyArchive.Year archive)).

(** The [switch metric] of the summary rows. *)
Definition metric_cell (metric : string) (archive : MonthlyArchive.t) : text :=
  if decide (metric = "Total Spent"%string) then
    cell_amount (MonthlyArchive.TotalSpent archive)
  else if decide (metric = "Total Transactions"%string) then
    cell_int (MonthlyArchive.TotalTransactions archive)
  else if decide (metric = "Average Transaction"%string) then
    cell_amount (MonthlyArchive.AvgTransaction archive)
  else if decide (metric = "Highest Transaction"%string) then
    cell_amount (MonthlyArchive.HighestTransaction archive)
  else if decide (metric = "Lowest Transaction"%string) then
    cell_amount (MonthlyArchive.LowestTransaction archive)
  else if decide (metric = "Days with Spending"%string) then
    cell_int (MonthlyArchive.DaysWithSpending archive)
  else if decide (metric = "Balance"%string) then
    cell_amount (MonthlyArchive.Balance archive)
  else cell "".

(** The [switch metric] of the growth rows: the operand taken from one
    archive. *)
Definition growth_operand (metric : string) (archive : MonthlyArchive.t) : float64 :=
  if decide (metric = "Total Spent"%string) then MonthlyArchive.TotalSpent archive
  else if decide (metric = "Total Transactions"%string) then
    float64_of_Z (MonthlyArchive.TotalTransactions archive)
  else if decide (metric = "Average Transaction"%string) then
    MonthlyArchive.AvgTransaction archive
  else fzero.

(** The growth cell of [GenerateComparisonCSV]. *)
Definition growth_cell (current previous : float64) : text :=
  if fne previous fzero then
    let growthRate :=
      fmul (fdiv (fsub current previous) previous) (float64_of_Z 100) in
    cell_percent growthRate
  else cell "N/A".

(** The loop [for i := 1; i < len(archives); i++], where [archives[i]] is
    the current archive and [archives[i-1]] the previous one. *)
Fixpoint growth_cells (metric : string) (archives : list MonthlyArchive.t)
  : list text :=
  match archives with
  | previous :: ((current :: _) as rest) =>
      growth_cell (growth_operand metric current) (growth_operand metric previous)
        :: growth_cells metric rest
  | _ => []
  end.

Fixpoint growth_header (archives : list MonthlyArchive.t) : list text :=
  match archives with
  | previous :: ((current :: _) as rest) =>
      cell (MonthlyArchive.MonthName current +:+ " vs "
            +:+ MonthlyArchive.MonthName previous)
        :: growth_header rest
  | _ => []
  end.

Definition summary_metrics : list string :=
  ["Total Spent"; "Total Transactions"; "Average Transaction";
   "Highest Transaction"; "Lowest Transaction"; "Days with Spending";
   "Balance"]%string.

Definition growth_metrics : list string :=
  ["Total Spent"; "Total Transactions"; "Average Transaction"]%string.

Definition growth_rows (archives : list MonthlyArchive.t) : list (list text) :=
  (λ metric, cell metric :: growth_cells metric archives) <$> growth_metrics.

Definition GenerateComparisonCSV (archives : list MonthlyArchive.t)
  : M (result (list (list text))) :=
  if len archives =? 0 then ret (Err (Errorf "no archives provided for comparison"))
  else
    let* now := time_Now in
    let header :=
      [ [cell "Monthly Comparison Report"];
        [cell "Generated"; cell (Format_datetime now)];
        [] ] in
    let summaryHeader := cell "Metric" :: (month_label <$> archives) in
    let summary :=
      (λ metric, cell metric :: (metric_cell metric <$> archives))
        <$> summary_metrics in
    let growth :=
      if 1 <? len archives then
        [ []; [cell "GROWTH RATES (Month-over-Month)"];
          cell "Metric" :: growth_header archives ]
        ++ growth_rows archives
      else [] in
    ret (Ok (header ++ [summaryHeader] ++ summary ++ growth)).
End csv.

(** ** Package [config] *)

Record Config : Type := {
  ChatID : Z;
  Categories : list string;
}.

Definition IsAuthorizedUser (c : Config) (username : string) (chatID : Z) : bool :=
  bool_decide (chatID = ChatID c).

(** ** Package [handlers]: commands *)

(** The nested loops that order the categories by decreasing amount: the
    inner loop compares position [i] with every later position [j] and
    swaps the two when [lt c[i] c[j]]. *)
Fixpoint exchange_pass {A} (lt : A → A → bool) (x : A) (rest : list A) : A * list A :=
  match rest with
  | [] => (x, [])
  | y :: rest' =>
      if lt x y then
        let '(x', r) := exchange_pass lt y rest' in (x', x :: r)
      else
        let '(x', r) := exchange_pass lt x rest' in (x', y :: r)
  end.

Fixpoint exchange_sort_aux {A} (lt : A → A → bool) (n : nat) (l : list A) : list A :=
  match n, l with
  | S n', x :: rest =>
      let '(x', r) := exchange_pass lt x rest in x' :: exchange_sort_aux lt n' r
  | _, _ => l
  end.

Definition exchange_sort {A} (lt : A → A → bool) (l : list A) : list A :=
  exchange_sort_aux lt (length l) l.

(** [CategoryData{Name, Amount, Percent}]. *)
Definition CategoryData : Type := string * float64 * float64.

Definition by_amount (a b : CategoryData) : bool := flt a.1.2 b.1.2.

Definition medal (i : nat) : string :=
  match i with
  | 1%nat => "🥈"
  | 2%nat => "🥉"
  | _ => "🥇"
  end.

(** The sentence that says who owes whom, from the balance and the users in
    the order of a [range] loop. *)
Definition balance_line (settled : string) (users : list string) (balance : float64)
  : text :=
  let u0 := default ""%string (users !! 0%nat) in
  let u1 := default ""%string (users !! 1%nat) in
  if fgt balance fzero then
    [Lit "   "; Lit u1; Lit " owes **"; Float 2 false (fabs balance); Lit "$** to ";
     Lit u0; Lit "\n\n"]
  else if flt balance fzero then
    [Lit "   "; Lit u0; Lit " owes **"; Float 2 false (fabs balance); Lit "$** to ";
     Lit u1; Lit "\n\n"]
  else [Lit settled].

Section commands.
Context `{Location}.

(** The archive when archiving succeeded, and the error otherwise. *)
Definition safeArchiveData : M (option MonthlyArchive.t * option error) :=
  let* r := ArchiveMonthlyData in
  match r with
  | Err err => ret (None, Some (Wrapf "failed to archive" err))
  | Ok archiveData => ret (Some archiveData, None)
  end.

Definition safeExportCSV (chatID : Z) (archive : MonthlyArchive.t) : M unit :=
  let* r := GenerateMonthlyCSV archive in
  match r with
  | Err _ =>
      do bot_Send (NewMessage chatID
            [Lit "⚠️ CSV generation failed. Data is still archived in database."]
            "" None) in
      ret tt
  | Ok rows =>
      let filename :=
        [Lit "expenses_"; Lit (MonthlyArchive.MonthName archive); Lit "_";
         Int false (MonthlyArchive.Year archive); Lit ".csv"] in
      let caption :=
        [Lit "📊 Monthly expense data for "; Lit (MonthlyArchive.MonthName archive);
         Lit " "; Int false (MonthlyArchive.Year archive); Lit "\n💾 ";
         Int false (MonthlyArchive.TotalTransactions archive); Lit " transactions, ";
         Float 2 false (MonthlyArchive.TotalSpent archive); Lit "$ total"] in
      let* sent := bot_Send (NewDocument chatID filename rows caption) in
      match sent with
      | Err _ =>
          do bot_Send (NewMessage chatID
                [Lit "⚠️ Failed to send CSV file. Data is archived in database - use /export command later."]
                "" None) in
          ret tt
      | Ok _ => ret tt
      end
  end.

Definition top_category_line (i : nat) (cat : CategoryData) : text :=
  [Lit "   "; Lit (medal i); Lit " "; Lit cat.1.1; Lit ": "; Float 2 false cat.1.2;
   Lit "$ ("; Float 1 false cat.2; Lit "%)\n"].

(** The text of the monthly report. *)
Definition monthly_report (archived : bool) (balance totalSpent : float64)
    (categoryTotals userTotals : gmap string float64)
    (transactions : list Transaction.t) (totalTransactions : Z) : M text :=
  let title :=
    [Lit "📅 **MONTHLY EXPENSE REPORT**\n"; Lit "════════════════════════════\n\n"] in
  let* body :=
    if totalTransactions =? 0 then ret [Lit "❌ No transactions this month\n"]
    else
      let summary :=
        [Lit "📊 **Month Summary:**\n";
         Lit "   • Total transactions: "; Int false totalTransactions; Lit "\n";
         Lit "   • Total spent: **"; Float 2 false totalSpent; Lit "$**\n"]
        ++ (if 0 <? totalTransactions then
              [Lit "   • Average per transaction: ";
               Float 2 false (fdiv totalSpent (float64_of_Z totalTransactions));
               Lit "$\n"]
            else [])
        ++ [Lit "   • Average per day: ";
            Float 2 false (fdiv totalSpent (float64_of_Z 30)); Lit "$\n\n"] in
      let status :=
        if archived then
          [Lit "💾 **Archive Status:** ✅ Data archived successfully\n\n"]
        else
          [Lit "💾 **Archive Status:** ⚠️ Archive failed (data in report only)\n\n"] in
      let* users := range_keys userTotals in
      let* final :=
        if 2 <=? len users then
          let* spending := range_items userTotals in
          ret ([Lit "💰 **Final Balance:**\n"]
               ++ balance_line "   ✅ Perfect balance! (0$)\n\n" users balance
               ++ [Lit "👥 **User Spending:**\n"]
               ++ concat ((λ item : string * float64,
                     [Lit "   "; Lit item.1; Lit ": "; Float 2 false item.2; Lit "$ (";
                      Float 1 false (percent_of item.2 totalSpent); Lit "%)\n"])
                   <$> spending)
               ++ [Lit "\n"])
        else ret [] in
      let* top :=
        if 0 <? Z.of_nat (size categoryTotals) then
          let* items := range_items categoryTotals in
          let categories : list CategoryData :=
            (λ item : string * float64,
               (item.1, item.2, percent_of item.2 totalSpent)) <$> items in
          let categories := exchange_sort by_amount categories in
          ret ([Lit "🏆 **Top Categories:**\n"]
               ++ concat (imap top_category_line (take 3 categories))
               ++ [Lit "\n"])
        else ret [] in
      let insights :=
        [Lit "🎯 **Month Insights:**\n"]
        ++ (if 0 <? len transactions then
              (* the same scans as in [ArchiveMonthlyData] *)
              let '(_, highestAmount, lowestAmount, uniqueDays) :=
                stats_loop transactions in
              [Lit "   • Biggest splurge: "; Float 2 false highestAmount; Lit "$\n";
               Lit "   • Smallest expense: "; Float 2 false lowestAmount; Lit "$\n";
               Lit "   • Days with spending: "; Int false (Z.of_nat (size uniqueDays));
               Lit "\n"]
            else []) in
      ret (summary ++ status ++ final ++ top ++ insights) in
  let closing :=
    [Lit "\n🔄 **Starting fresh for next month!**\n"]
    ++ (if archived then
          [Lit "All transactions have been archived.\n";
           Lit "📊 CSV export will be sent shortly..."]
        else [Lit "Transactions cleared (archive failed)."]) in
  ret (title ++ body ++ closing).

(** The data of the report: from the archive, or computed afresh when
    there is none; [None] when the fresh computation fails. *)
Definition report_data (archive : option MonthlyArchive.t)
  : M (option (float64 * float64 * gmap string float64 * gmap string float64
               * list Transaction.t * Z)) :=
  match archive with
  | Some a =>
      ret (Some (MonthlyArchive.Balance a, MonthlyArchive.TotalSpent a,
                 MonthlyArchive.CategoryTotals a, MonthlyArchive.UserTotals a,
                 MonthlyArchive.Transactions a, MonthlyArchive.TotalTransactions a))
  | None =>
      let* r := CalculateTotals in
      match r with
      | Err _ => ret None
      | Ok (balance, categoryTotals, userTotals) =>
          let* r := GetAllTransactions in
          let transactions := match r with Ok l => l | Err _ => [] end in
          let totalTransactions := len transactions in
          let* items := range_items categoryTotals in
          let totalSpent := fsum items.*2 in
          ret (Some (balance, totalSpent, categoryTotals, userTotals, transactions,
                     totalTransactions))
      end
  end.

Definition MonthlyReset (h : Config) : M unit :=
  let chatID := ChatID h in
  let* archived := safeArchiveData in
  let archive := archived.1 in
  let* data := report_data archive in
  match data with
  | None => ret tt
  | Some (balance, totalSpent, categoryTotals, userTotals, transactions,
          totalTransactions) =>
      let* monthlyText :=
        monthly_report (bool_decide (is_Some archive)) balance totalSpent
          categoryTotals userTotals transactions totalTransactions in
      do bot_Send (NewMessage chatID monthlyText "Markdown" None) in
      do (match archive with
          | Some a => safeExportCSV chatID a
          | None => ret tt
          end) in
      let* err := DeleteAllTransactions in
      match err with
      | Some _ =>
          do bot_Send (NewMessage chatID
                [Lit "⚠️ Warning: Failed to clear transactions. Manual cleanup may be needed."]
                "" None) in
          ret tt
      | None => ret tt
      end
  end.
End commands.

(** The lines of the spending overview of [SendMonthlyComparison]. *)
Definition overview_line (i : nat) (archive : MonthlyArchive.t) : text :=
  let emoji := match i with O => "🆕"%string | _ => "📅"%string end in
  [Lit emoji; Lit " "; Lit (MonthlyArchive.MonthName archive); Lit " ";
   Int false (MonthlyArchive.Year archive); Lit ": **";
   Float 2 false (MonthlyArchive.TotalSpent archive); Lit "$** (";
   Int false (MonthlyArchive.TotalTransactions archive); Lit " transactions)\n"].

Definition trend_emoji (negative : bool) : string :=
  if negative then "📉"%string else "📈"%string.

(** The month-over-month lines of [SendMonthlyComparison]: the change of the
    amount spent, its percentage, and the change of the number of
    transactions. *)
Definition month_over_month (current previous : MonthlyArchive.t) : text :=
  let spendingChange :=
    fsub (MonthlyArchive.TotalSpent current) (MonthlyArchive.TotalSpent previous) in
  let spendingPercent :=
    fmul (fdiv spendingChange (MonthlyArchive.TotalSpent previous)) (float64_of_Z 100) in
  let transactionChange :=
    MonthlyArchive.TotalTransactions current - MonthlyArchive.TotalTransactions previous in
  [Lit "📈 **Month-over-Month:**\n";
   Lit (trend_emoji (flt spendingChange fzero)); Lit " Spending: ";
   Float 2 false spendingChange; Lit "$ ("; Float 1 true spendingPercent; Lit "%)\n";
   Lit (trend_emoji (transactionChange <? 0)); Lit " Transactions: ";
   Int true transactionChange; Lit "\n\n"].

(** One line of the category comparison. *)
Definition category_comparison_line (previous : MonthlyArchive.t)
    (cat : string * float64) : text :=
  let currentAmount := cat.2 in
  let previousAmount := map_get (MonthlyArchive.CategoryTotals previous) cat.1 in
  let changeText :=
    if fgt previousAmount fzero then
      let change := fsub currentAmount previousAmount in
      let changePercent := fmul (fdiv change previousAmount) (float64_of_Z 100) in
      if fgt change fzero then [Lit " (+"; Float 1 false changePercent; Lit "%)"]
      else if flt change fzero then [Lit " ("; Float 1 false changePercent; Lit "%)"]
      else [Lit " (no change)"]
    else [Lit " (new category)"] in
  [Lit "   "; Lit cat.1; Lit ": "; Float 2 false currentAmount; Lit "$"]
  ++ changeText ++ [Lit "\n"].

Definition comparison_insights (current previous : MonthlyArchive.t) : text :=
  let avgCurrent := MonthlyArchive.AvgTransaction current in
  let avgPrevious := MonthlyArchive.AvgTransaction previous in
  (if fgt avgCurrent avgPrevious then
     [Lit "   • Average transaction amount increased\n"]
   else if flt avgCurrent avgPrevious then
     [Lit "   • Average transaction amount decreased\n"]
   else [])
  ++ (if MonthlyArchive.DaysWithSpending previous <? MonthlyArchive.DaysWithSpending current
      then [Lit "   • More active spending days\n"]
      else if MonthlyArchive.DaysWithSpending current <? MonthlyArchive.DaysWithSpending previous
      then [Lit "   • Fewer active spending days\n"]
      else []).

(** The text of the comparison of two or more archives, latest first. *)
Definition comparison_text (current previous : MonthlyArchive.t)
    (archives : list MonthlyArchive.t) : M text :=
  let* items := range_items (MonthlyArchive.CategoryTotals current) in
  let currentCategories := exchange_sort (λ a b : string * float64, flt a.2 b.2) items in
  ret ([Lit "📊 **MONTHLY COMPARISON**\n"; Lit "═══════════════════════\n\n";
        Lit "📈 **Spending Overview:**\n"]
       ++ concat (imap overview_line archives)
       ++ [Lit "\n"]
       ++ month_over_month current previous
       ++ [Lit "🏆 **Top Categories Comparison:**\n"]
       ++ concat (category_comparison_line previous <$> take 3 currentCategories)
       ++ [Lit "\n"]
       ++ [Lit "💡 **Insights:**\n"]
       ++ comparison_insights current previous
       ++ [Lit "\n📄 Use /export to get detailed CSV comparison"]).

Definition SendMonthlyComparison (chatID : Z) : M unit :=
  let* r := GetRecentArchives 3 in
  match r with
  | Err _ | Ok [] =>
      do bot_Send (NewMessage chatID
            [Lit "❌ No archived months found for comparison.\nUse the bot for a month and wait for monthly reset to generate archives."]
            "" None) in
      ret tt
  | Ok [_] =>
      do bot_Send (NewMessage chatID
            [Lit "📊 Only one month archived. Need at least 2 months for comparison.\nCheck back after next monthly reset!"]
            "" None) in
      ret tt
  | Ok ((current :: previous :: _) as archives) =>
      let* comparisonText := comparison_text current previous archives in
      do bot_Send (NewMessage chatID comparisonText "Markdown" None) in
      ret tt
  end.

(** ** Package [handlers]: events *)

(** The fields of a [tgbotapi.Message] the handlers read. *)
Record Message : Type := {
  MessageID : Z;
  From_UserName : string;
  Chat_ID : Z;
  Text : string;
}.

Definition select_a_category : text := [Lit "Select a category:"].

Definition sendCategorySelection (h : Config) (chatID : Z) (transactionID : string)
  : M unit :=
  let keyboard := BuildInlineKeyboard (Categories h) transactionID in
  let* sent := bot_Send (NewMessage chatID select_a_category "" (Some keyboard)) in
  match sent with
  | Err _ => ret tt
  | Ok sentMessageID =>
      let buttonMsgID := Itoa sentMessageID in
      do UpdateTransaction transactionID [("buttonMessageId"%string, BString buttonMsgID)] in
      ret tt
  end.

Definition handleNewTransaction (h : Config) (message : Message) : M unit :=
  match ValidateAmount (Text message) with
  | Err _ => ret tt
  | Ok amount =>
      let transactionID := Itoa (MessageID message) in
      let tx :=
        {| Transaction.ID := transactionID;
           Transaction.Amount := amount;
           Transaction.Author := From_UserName message;
           Transaction.Category := "";
           Transaction.ButtonMessageID := "";
           Transaction.ConfirmationMessageID := "";
           Transaction.CreatedAt := 0 |} in
      let* err := InsertTransaction tx in
      match err with
      | Some _ =>
          do bot_Send (NewMessage (Chat_ID message)
                [Lit "Failed to save transaction in DB."] "" None) in
          ret tt
      | None => sendCategorySelection h (Chat_ID message) transactionID
      end
  end.

Definition handleEditedMessage (h : Config) (message : Message) : M unit :=
  if negb (IsAuthorizedUser h (From_UserName message) (Chat_ID message)) then ret tt
  else
    match ValidateAmount (Text message) with
    | Err _ => ret tt
    | Ok newAmount =>
        let transactionID := Itoa (MessageID message) in
        let* found := FindTransaction transactionID in
        match found with
        | Err _ | Ok None => ret tt
        | Ok (Some tx) =>
            let* err :=
              UpdateTransaction transactionID [("amount"%string, BFloat newAmount)] in
            match err with
            | Some _ => ret tt
            | None =>
                if decide (Transaction.ButtonMessageID tx ≠ ""%string) then
                  let buttonMsgID := Atoi (Transaction.ButtonMessageID tx) in
                  let keyboard := BuildInlineKeyboard (Categories h) transactionID in
                  let content :=
                    if decide (Transaction.Category tx ≠ ""%string) then
                      [Lit "✅ Updated to "; Float 2 false (fabs newAmount); Lit "$ in ";
                       Lit (Transaction.Category tx);
                       Lit " category.\n\nTap a different category to change:"]
                    else select_a_category in
                  do bot_Send (NewEditMessageText (Chat_ID message) buttonMsgID content
                                 (Some keyboard)) in
                  ret tt
                else ret tt
            end
        end
    end.

(** ** Vocabulary of the specification *)

(** What each transaction of user [u] contributes to the total of [u]: half
    of the absolute value of its amount. *)
Definition user_contributions (u : string) (transactions : list Transaction.t)
  : list float64 :=
  (λ tx, fdiv (fabs (Transaction.Amount tx)) (float64_of_Z 2))
    <$> filter (λ tx, Transaction.Author tx = u) transactions.

(** What each transaction of category [c] contributes to the total of [c]:
    the absolute value of its amount. *)
Definition category_amounts (c : string) (transactions : list Transaction.t)
  : list float64 :=
  (λ tx, fabs (Transaction.Amount tx))
    <$> filter (λ tx, Transaction.Category tx = c) transactions.

(** The users that have contributed, and the categories that are set on
    some transaction. *)
Definition authors (transactions : list Transaction.t) : gset string :=
  list_to_set (Transaction.Author <$> transactions).

Definition categories_set (transactions : list Transaction.t) : gset string :=
  list_to_set (filter (λ c, c ≠ ""%string) (Transaction.Category <$> transactions)).


(** The world after a call to the outside: the call is in the trace and its
    outcome is consumed. *)
Definition after_call (e : event) (w : World) : World :=
  set_trace (trace w ++ [e]) (set_faults (tl (faults w)) w).

(** The outcome of the [n]-th next call to the outside. *)
Definition fault_at (n : nat) (w : World) : bool := hd false (drop n (faults w)).


(** ** Example ledgers *)

Definition transaction (id : string) (amount : Q) (author category : string)
  : Transaction.t :=
  Transaction.mk id (Finite (Q2Qc amount)) author category "" "" 1735689600.

(** Two users, amounts 20 and -10, not categorized. *)
Definition two_user_ledger : list Transaction.t :=
  [transaction "1" 20 "alice" ""; transaction "2" (-10) "bob" ""].

(** A world with a ledger, no archive, nothing said yet, on 2025-01-01 at
    midnight UTC, where no call fails. *)
Definition quiet_world (ledger : list Transaction.t) (orders : list nat) : World :=
  mkWorld ledger [] [] 1735689600 [] orders 100.

Section archive_vocabulary.
Context `{Location}.

(** The archive record for a ledger, the time of archiving, and the order
    in which the users are visited when the balance is computed. *)
Definition archive_of (transactions : list Transaction.t) (clock : Z) (order : nat)
  : MonthlyArchive.t :=
  let userTotals := (totals_loop transactions).1 in
  let categoryTotals := (totals_loop transactions).2 in
  let users := keys_in_order order userTotals in
  archive_record transactions (net_balance users userTotals) categoryTotals
    userTotals clock.
End archive_vocabulary.

(** ** Example messages and stores *)

Definition example_config : Config :=
  {| ChatID := 1; Categories := ["Groceries"; "Household"; "Other"]%string |}.

Definition message_from (id : Z) (user text : string) : Message :=
  {| MessageID := id; From_UserName := user; Chat_ID := 1; Text := text |}.

(** A categorized transaction of 10.50 reported in message 8, whose
    category prompt is message 101. *)
Definition groceries_record : Transaction.t :=
  Transaction.mk "8" (Finite (Q2Qc (21 # 2))) "bob" "Groceries" "101" "" 1735689600.

(** Two transactions differ at most by their amount. *)
Definition same_but_amount (tx tx' : Transaction.t) : Prop :=
  Transaction.ID tx' = Transaction.ID tx
  ∧ Transaction.Author tx' = Transaction.Author tx
  ∧ Transaction.Category tx' = Transaction.Category tx
  ∧ Transaction.ButtonMessageID tx' = Transaction.ButtonMessageID tx
  ∧ Transaction.ConfirmationMessageID tx' = Transaction.ConfirmationMessageID tx
  ∧ Transaction.CreatedAt tx' = Transaction.CreatedAt tx.

(** An archive with the given identifier, total and time of archiving, of
    one transaction. *)
Definition archive_with (id : string) (total : Q) (archivedAt : Z) : MonthlyArchive.t :=
  {| MonthlyArchive.ID := id;
     MonthlyArchive.Year := 2025;
     MonthlyArchive.Month := 1;
     MonthlyArchive.MonthName := id;
     MonthlyArchive.TotalSpent := Finite (Q2Qc total);
     MonthlyArchive.TotalTransactions := 1;
     MonthlyArchive.Balance := fzero;
     MonthlyArchive.UserTotals := ∅;
     MonthlyArchive.CategoryTotals := ∅;
     MonthlyArchive.Transactions := [];
     MonthlyArchive.AvgTransaction := Finite (Q2Qc total);
     MonthlyArchive.HighestTransaction := Finite (Q2Qc total);
     MonthlyArchive.LowestTransaction := Finite (Q2Qc total);
     MonthlyArchive.DaysWithSpending := 1;
     MonthlyArchive.ArchivedAt := archivedAt |}.

(** The percentage that [SendMonthlyComparison] prints for the change of
    the amount spent. *)
Definition spending_percent (current previous : MonthlyArchive.t) : float64 :=
  fmul (fdiv (fsub (MonthlyArchive.TotalSpent current)
                (MonthlyArchive.TotalSpent previous))
          (MonthlyArchive.TotalSpent previous))
    (float64_of_Z 100).


(** The warning of [MonthlyReset] when the ledger could not be cleared. *)
Definition reset_warning (chatID : Z) : Chattable :=
  NewMessage chatID
    [Lit "⚠️ Warning: Failed to clear transactions. Manual cleanup may be needed."]
    "" None.

(** ** Further functions of package [database] *)

(** [GetAllArchives]: the recent archives, without a limit. *)
Definition GetAllArchives : M (result (list MonthlyArchive.t)) :=
  GetRecentArchives 0.

(** An amount is a finite number whose magnitude is at most
    [math.MaxFloat64], as every finite binary64 is. *)
Definition finite_amount (x : float64) : Prop :=
  ∃ q, x = Finite q ∧ fle (fabs x) MaxFloat64 = true.

(** The magnitudes of the amounts of a ledger. *)
Definition magnitudes (transactions : list Transaction.t) : list float64 :=
  (λ tx, fabs (Transaction.Amount tx)) <$> transactions.

(** ** Further functions of the Go standard library *)

(** [strings.HasPrefix]. *)
Definition HasPrefix (s prefix : string) : bool := String.prefix prefix s.

(** [strings.Split(s, sep)] for a separator [sep] of one byte: the parts of
    [s] between the separators, of which there is one more than there are
    separators. *)
Fixpoint Split (s : string) (sep : ascii) : list string :=
  match s with
  | EmptyString => [EmptyString]
  | String c s' =>
      if decide (c = sep) then EmptyString :: Split s' sep
      else
        match Split s' sep with
        | part :: parts => String c part :: parts
        | [] => [String c EmptyString]
        end
  end.

(** [strings.Fields] on strings whose white space is ASCII: the maximal
    runs of characters that are not white space; [word] is the run being
    read. *)
Fixpoint fields (s word : string) : list string :=
  match s with
  | EmptyString => if decide (word = EmptyString) then [] else [word]
  | String c s' =>
      if is_space c then
        if decide (word = EmptyString) then fields s' EmptyString
        else word :: fields s' EmptyString
      else fields s' (word +:+ String c EmptyString)
  end.

Definition Fields (s : string) : list string := fields s EmptyString.

(** ** Calls of further kinds, and the journal of all the calls *)

(** The requests made with [bot.Request]. *)
Inductive request : Type :=
  | NewDeleteMessage (chatID messageID : Z)
  | NewCallback (id text : string).

(** A call to the outside: one of the kinds above, a further call to a
    collection, or a request; or the start of a goroutine that makes a
    request after a delay. *)
Inductive call : Type :=
  | Earlier (e : event)
  | CollectionDeleteOne (id : string) (failed : bool)
  | CollectionFindRecent (limit : Z) (failed : bool)
  | ArchiveFindOne (monthID : string) (failed : bool)
  | BotRequest (r : request) (failed : bool)
  | GoAfter (seconds : Z) (r : request).

(** The world together with the journal of all the calls made. *)
Record Bot : Type := mkBot {
  world : World;
  journal : list call;
}.

(** Computations of the handlers that make calls of the further kinds. *)
Definition Handler (A : Type) : Type := Bot → A * Bot.

Definition retH {A} (a : A) : Handler A := λ b, (a, b).

Definition bindH {A B} (m : Handler A) (f : A → Handler B) : Handler B := λ b,
  let '(a, b') := m b in f a b'.

Notation "'let+' x := m 'in' k" := (bindH m (λ x, k))
  (at level 10, x binder, m at level 100, k at level 200).
Notation "'do+' m 'in' k" := (bindH m (λ _, k))
  (at level 10, m at level 100, k at level 200).

(** A computation of the kinds above, run on the world: the calls it adds
    to the trace are added to the journal. *)
Definition lift {A} (m : M A) : Handler A := λ b,
  let '(a, w') := m (world b) in
  (a, {| world := w';
         journal :=
           journal b ++ (Earlier <$> drop (length (trace (world b))) (trace w')) |}).

(** A call of a further kind: it fails when the environment says so, and
    otherwise [effect] is applied to the world; the result is whether it
    failed. *)
Definition further_call (c : bool → call) (effect : World → World) : Handler bool :=
  λ b,
    let w := world b in
    let failed := hd false (faults w) in
    let w1 := set_faults (tl (faults w)) w in
    (failed, {| world := if failed then w1 else effect w1;
                journal := journal b ++ [c failed] |}).

(** [bot.Request], whose result the handlers do not look at. *)
Definition bot_Request (r : request) : Handler unit :=
  do+ further_call (BotRequest r) (λ w, w) in retH tt.

(** [go func() { time.Sleep(seconds); bot.Request(r) }()]: the goroutine
    is started, and the handler goes on. *)
Definition go_after (seconds : Z) (r : request) : Handler unit := λ b,
  (tt, {| world := world b; journal := journal b ++ [GoAfter seconds r] |}).

(** Removes the first document that satisfies [p]. *)
Fixpoint delete_first {A} (p : A → bool) (l : list A) : list A :=
  match l with
  | [] => []
  | x :: l' => if p x then l' else x :: delete_first p l'
  end.

(** ** Further functions of package [database] *)

(** [collection.DeleteOne(ctx, bson.M{"_id": id})]. *)
Definition DeleteTransaction (id : string) : Handler (option error) :=
  let+ failed :=
    further_call (CollectionDeleteOne id)
      (λ w, set_collection (delete_first (has_id id) (collection w)) w) in
  retH (if failed
        then Some (Wrapf "failed to delete transaction" ExternalError)
        else None).

Definition created_after (a b : Transaction.t) : Prop :=
  Transaction.CreatedAt b ≤ Transaction.CreatedAt a.

#[global] Instance created_after_dec : RelDecision created_after.
Proof. intros a b. unfold created_after. apply _. Defined.

(** [collection.Find] sorted by [createdAt], latest first, with an optional
    limit. *)
Definition GetRecentTransactions (limit : Z) : Handler (result (list Transaction.t)) :=
  let+ failed := further_call (CollectionFindRecent limit) (λ w, w) in
  if failed then retH (Err (Wrapf "failed to fetch recent transactions" ExternalError))
  else
    λ b, (Ok (apply_limit limit (merge_sort created_after (collection (world b)))), b).

(** [archiveCollection.FindOne(ctx, bson.M{"_id": monthID})]. *)
Definition GetMonthlyArchive (monthID : string) : Handler (result MonthlyArchive.t) :=
  let+ failed := further_call (ArchiveFindOne monthID) (λ w, w) in
  if failed then retH (Err (Wrapf "failed to retrieve archive" ExternalError))
  else
    λ b,
      (match find (archive_has_id monthID) (archiveCollection (world b)) with
       | Some archive => Ok archive
       | None => Err (Errorf ("no archive found for month " +:+ monthID))
       end, b).

(** ** Package [handlers]: callbacks *)

(** The fields of a [tgbotapi.CallbackQuery] the handlers read. *)
Record CallbackQuery : Type := {
  Callback_ID : string;
  Data : string;
  Message_Chat_ID : Z;
  Message_MessageID : Z;
}.

(** [parts[i]] for an index within the bounds. *)
Definition part (parts : list string) (i : nat) : string :=
  default EmptyString (parts !! i).

(** Deletes the confirmation message of a transaction, if it has one. *)
Definition delete_confirmation (chatID : Z) (tx : Transaction.t) : Handler unit :=
  if decide (Transaction.ConfirmationMessageID tx ≠ ""%string) then
    let confirmMsgID := Atoi (Transaction.ConfirmationMessageID tx) in
    bot_Request (NewDeleteMessage chatID confirmMsgID)
  else retH tt.

Definition handleCategorySelection (h : Config) (callback : CallbackQuery)
  : Handler unit :=
  let parts := Split (Data callback) "_" in
  if len parts <? 3 then retH tt
  else
    let newCategory := part parts 1 in
    let transactionID := part parts 2 in
    let+ found := lift (FindTransaction transactionID) in
    match found with
    | Err _ | Ok None => retH tt
    | Ok (Some tx) =>
        do+ delete_confirmation (Message_Chat_ID callback) tx in
        let+ err :=
          lift (UpdateTransaction transactionID
                  [("category"%string, BString newCategory)]) in
        match err with
        | Some _ => retH tt
        | None =>
            let content :=
              [Lit "✅ Added "; Float 2 false (fabs (Transaction.Amount tx));
               Lit "$ to "; Lit newCategory;
               Lit " category.\n\nTap a different category to change:"] in
            let keyboard := BuildInlineKeyboard (Categories h) transactionID in
            do+ lift (bot_Send
                        (NewEditMessageText (Message_Chat_ID callback)
                           (Message_MessageID callback) content (Some keyboard))) in
            retH tt
        end
    end.

Definition handleTransactionDeletion (h : Config) (callback : CallbackQuery)
  : Handler unit :=
  let parts := Split (Data callback) "_" in
  if len parts <? 2 then retH tt
  else
    let transactionID := part parts 1 in
    let+ found := lift (FindTransaction transactionID) in
    match found with
    | Err _ | Ok None =>
        bot_Request
          (NewDeleteMessage (Message_Chat_ID callback) (Message_MessageID callback))
    | Ok (Some tx) =>
        let+ err := DeleteTransaction transactionID in
        match err with
        | Some _ => retH tt
        | None =>
            do+ bot_Request
                  (NewDeleteMessage (Message_Chat_ID callback)
                     (Message_MessageID callback)) in
            do+ delete_confirmation (Message_Chat_ID callback) tx in
            let content :=
              [Lit "🗑️ Deleted transaction: ";
               Float 2 false (fabs (Transaction.Amount tx)); Lit "$"] in
            let+ sent :=
              lift (bot_Send (NewMessage (Message_Chat_ID callback) content "" None)) in
            match sent with
            | Ok sentConfirm =>
                go_after 5 (NewDeleteMessage (Message_Chat_ID callback) sentConfirm)
            | Err _ => retH tt
            end
        end
    end.

Definition HandleCallbackQuery (h : Config) (callback : CallbackQuery)
  : Handler unit :=
  if negb (bool_decide (Message_Chat_ID callback = ChatID h)) then retH tt
  else
    do+ (if HasPrefix (Data callback) "category_" then
           handleCategorySelection h callback
         else if HasPrefix (Data callback) "delete_" then
           handleTransactionDeletion h callback
         else retH tt) in
    bot_Request (NewCallback (Callback_ID callback) "").

(** ** Package [handlers]: further commands *)

(** [t.Format("Jan 2, 15:04")]. *)
Definition Format_short `{Location} (t : Z) : string :=
  let s := local_seconds t mod 86400 in
  substring 0 3 (Format_month_name t) +:+ " " +:+ pretty (Day t) +:+ ", "
  +:+ pad2 (s / 3600) +:+ ":" +:+ pad2 (s mod 3600 / 60).

(** What the code has from the platform it runs on: the square root of
    package [math], which the rationals do not have, and the result of a
    conversion [int(x)] of a number that [int] cannot represent, which the
    language leaves to the implementation. *)
Class Platform := {
  Sqrt : float64 → float64;
  int_of_unrepresentable : float64 → Z;
}.

(** The conversion [int(x)], on a platform whose [int] has 64 bits: the
    fraction is discarded. *)
Definition int_of_float64 `{Platform} (x : float64) : Z :=
  match x with
  | Finite q =>
      let z := Z.quot (Qnum q) (Zpos (Qden q)) in
      if (- 2 ^ 63 <=? z) && (z <? 2 ^ 63) then z else int_of_unrepresentable x
  | _ => int_of_unrepresentable x
  end.

(** The bar of a category in the summary: one full cell for every ten
    percent, at least one if the share is positive, then empty cells up
    to ten cells. *)
Definition bar_graph `{Platform} (percent : float64) : string :=
  let bars := int_of_float64 (fdiv percent (float64_of_Z 10)) in
  let bars := if (bars =? 0) && fgt percent fzero then 1 else bars in
  String.concat "" (repeat "█"%string (Z.to_nat bars))
  +:+ (if bars <? 10 then String.concat "" (repeat "░"%string (Z.to_nat (10 - bars)))
       else ""%string).

Definition ResetDatabase (chatID : Z) : M unit :=
  let* err := DeleteAllTransactions in
  match err with
  | Some _ =>
      do bot_Send (NewMessage chatID [Lit "Failed to reset DB."] "" None) in ret tt
  | None =>
      do bot_Send (NewMessage chatID [Lit "All transactions deleted. Fresh start!"]
                     "" None) in
      ret tt
  end.

(** The text of the help, a raw string literal of the source. *)
Definition helpText : string :=
"**📊 Expense Tracker Bot**

**🏠 Basic Commands:**
• /totals - Show current month summary
• /history - Show all transactions
• /help - Show this help

**📈 Analytics & Comparison:**
• /compare - Compare recent months
• /trends - Analyze spending trends
• /export - Export CSV data
• /export compare - Export comparison CSV
• /export 2025-01 - Export specific month

**🔧 Management:**
• /reset - Reset all transactions ⚠️

**💰 Adding Transactions:**
• Send a number (e.g., 25.50) to add expense
• Edit your message to update the amount
• Use 🗑️ Delete button to remove transactions

**🗂️ Categories:**
Groceries, Household, Entertainment, LCBO, Dining Out, Other

**💡 How it works:**
1. Send any number as a message
2. Choose a category from the buttons
3. The amount is split 50/50 between users
4. Monthly data is automatically archived
5. CSV exports are sent to chat history

**📊 Monthly Process:**
• Expenses tracked throughout the month
• Automatic monthly reset (1st of month, 9 AM)
• Data archived to database + CSV export
• Historical comparison and trend analysis".

Definition SendHelp (chatID : Z) : M unit :=
  do bot_Send (NewMessage chatID [Lit helpText] "Markdown" None) in ret tt.

Section further_commands.
Context `{Location} `{Platform}.

Definition category_bar_line (cat : CategoryData) : text :=
  [Lit "   "; Lit cat.1.1; Lit " **"; Float 2 false cat.1.2; Lit "$** (";
   Float 1 false cat.2; Lit "%)\n   "; Lit (bar_graph cat.2); Lit "\n"].

(** The breakdown by category of [SendTotals], and its analytics. *)
Definition category_breakdown (categoryTotals : gmap string float64)
    (transactions : list Transaction.t) : M text :=
  let* amounts := range_items categoryTotals in
  let totalSpent := fsum amounts.*2 in
  let* items := range_items categoryTotals in
  let categories : list CategoryData :=
    (λ item : string * float64, (item.1, item.2, percent_of item.2 totalSpent))
      <$> items in
  let categories := exchange_sort by_amount categories in
  let analytics :=
    if 0 <? len transactions then
      let avgTransaction := fdiv totalSpent (float64_of_Z (len transactions)) in
      let '(_, highestAmount, lowestAmount, _) := stats_loop transactions in
      [Lit "📊 **Analytics:**\n";
       Lit "   • Total transactions: "; Int false (len transactions); Lit "\n";
       Lit "   • Average per transaction: "; Float 2 false avgTransaction; Lit "$\n";
       Lit "   • Highest transaction: "; Float 2 false highestAmount; Lit "$\n";
       Lit "   • Lowest transaction: "; Float 2 false lowestAmount; Lit "$\n"]
      ++ match categories with
         | top :: _ =>
             [Lit "   • Top category: "; Lit top.1.1; Lit " (";
              Float 1 false top.2; Lit "%)\n"]
         | [] => []
         end
    else [] in
  ret ([Lit "📈 **Category Breakdown:**\n"]
       ++ concat (category_bar_line <$> categories)
       ++ [Lit "\n💵 **TOTAL SPENT: "; Float 2 false totalSpent; Lit "$**\n\n"]
       ++ analytics).

Definition SendTotals (chatID : Z) : M unit :=
  let* r := CalculateTotals in
  match r with
  | Err _ =>
      do bot_Send (NewMessage chatID [Lit "Error calculating totals."] "" None) in
      ret tt
  | Ok (balance, categoryTotals, userTotals) =>
      let* r := GetAllTransactions in
      let transactions := match r with Ok l => l | Err _ => [] end in
      let* users := range_keys userTotals in
      let* balances :=
        if 2 <=? len users then
          let* contributions := range_items userTotals in
          ret ([Lit "💰 **Balance:**\n"]
               ++ balance_line "   ✅ All settled! (0$)\n\n" users balance
               ++ [Lit "👥 **User Contributions:**\n"]
               ++ concat ((λ item : string * float64,
                     [Lit "   "; Lit item.1; Lit ": "; Float 2 false item.2;
                      Lit "$\n"])
                   <$> contributions)
               ++ [Lit "\n"])
        else ret [Lit "❌ No transactions found\n\n"] in
      let* breakdown :=
        if 0 <? Z.of_nat (size categoryTotals) then
          category_breakdown categoryTotals transactions
        else ret [] in
      let totalsText :=
        [Lit "📊 **EXPENSE SUMMARY**\n"; Lit "═══════════════════\n\n"]
        ++ balances ++ breakdown
        ++ [Lit "\n🔄 Use /history to see all transactions"] in
      do bot_Send (NewMessage chatID totalsText "Markdown" None) in
      ret tt
  end.

(** One line of the spending trend: the archive at index [i] of the list,
    which has the latest archive first, against the one before it in the
    list. *)
Definition trend_line (archives : list MonthlyArchive.t) (i : nat)
    (archive : MonthlyArchive.t) : text :=
  let trendEmoji :=
    match i with
    | O => "📊"%string
    | S j =>
        match archives !! j with
        | Some before =>
            if fgt (MonthlyArchive.TotalSpent archive) (MonthlyArchive.TotalSpent before)
            then "📈"%string
            else if flt (MonthlyArchive.TotalSpent archive)
                      (MonthlyArchive.TotalSpent before)
            then "📉"%string
            else "📊"%string
        | None => "📊"%string
        end
    end in
  [Lit trendEmoji; Lit " "; Lit (MonthlyArchive.MonthName archive); Lit " ";
   Int false (MonthlyArchive.Year archive); Lit ": ";
   Float 2 false (MonthlyArchive.TotalSpent archive); Lit "$\n"].

(** The body of the loops that add up the categories of the archives:
    [categoryTotals[cat] += amount; categoryMonths[cat]++]. *)
Definition trend_step (acc : gmap string float64 * gmap string Z)
    (item : string * float64) : gmap string float64 * gmap string Z :=
  let '(categoryTotals, categoryMonths) := acc in
  (<[item.1 := fadd (map_get categoryTotals item.1) item.2]> categoryTotals,
   <[item.1 := default 0 (categoryMonths !! item.1) + 1]> categoryMonths).

Fixpoint category_trends (archives : list MonthlyArchive.t)
    (acc : gmap string float64 * gmap string Z)
  : M (gmap string float64 * gmap string Z) :=
  match archives with
  | [] => ret acc
  | archive :: rest =>
      let* items := range_items (MonthlyArchive.CategoryTotals archive) in
      category_trends rest (fold_left trend_step items acc)
  end.

(** The scan for the archives of the highest and of the lowest spending. *)
Definition extremes_step (acc : MonthlyArchive.t * MonthlyArchive.t)
    (archive : MonthlyArchive.t) : MonthlyArchive.t * MonthlyArchive.t :=
  let '(highest, lowest) := acc in
  (if fgt (MonthlyArchive.TotalSpent archive) (MonthlyArchive.TotalSpent highest)
   then archive else highest,
   if flt (MonthlyArchive.TotalSpent archive) (MonthlyArchive.TotalSpent lowest)
   then archive else lowest).

Definition trend_insights (first : MonthlyArchive.t) (archives : list MonthlyArchive.t)
    (avgMonthlySpending : float64) : text :=
  let '(highest, lowest) := fold_left extremes_step archives (first, first) in
  let variance :=
    fold_left
      (λ variance archive,
         let diff := fsub (MonthlyArchive.TotalSpent archive) avgMonthlySpending in
         fadd variance (fmul diff diff))
      archives fzero in
  let stdDev := Sqrt (fdiv variance (float64_of_Z (len archives))) in
  let volatility := fmul (fdiv stdDev avgMonthlySpending) (float64_of_Z 100) in
  [Lit "🔍 **Insights:**\n";
   Lit "   • Highest spending: "; Lit (MonthlyArchive.MonthName highest); Lit " ";
   Int false (MonthlyArchive.Year highest); Lit " (";
   Float 2 false (MonthlyArchive.TotalSpent highest); Lit "$)\n";
   Lit "   • Lowest spending: "; Lit (MonthlyArchive.MonthName lowest); Lit " ";
   Int false (MonthlyArchive.Year lowest); Lit " (";
   Float 2 false (MonthlyArchive.TotalSpent lowest); Lit "$)\n";
   Lit "   • Spending volatility: "; Float 1 false volatility; Lit "%\n";
   Lit (if flt volatility (float64_of_Z 20) then
          "   • 🟢 Consistent spending pattern\n"
        else if flt volatility (float64_of_Z 40) then
          "   • 🟡 Moderate spending variation\n"
        else "   • 🔴 High spending volatility\n")].

(** The text of the trends, for a list of archives that is not empty. *)
Definition trends_text (first : MonthlyArchive.t) (archives : list MonthlyArchive.t)
  : M text :=
  let totalSpent := fsum (MonthlyArchive.TotalSpent <$> reverse archives) in
  let avgMonthlySpending := fdiv totalSpent (float64_of_Z (len archives)) in
  let* trends := category_trends archives (∅, ∅) in
  let '(categoryTotals, categoryMonths) := trends in
  let* categories :=
    if 0 <? Z.of_nat (size categoryTotals) then
      let* items := range_items categoryTotals in
      let categoryAvgs : list (string * float64) :=
        (λ item : string * float64,
           (item.1,
            fdiv item.2 (float64_of_Z (default 0 (categoryMonths !! item.1)))))
          <$> items in
      let categoryAvgs :=
        exchange_sort (λ a b : string * float64, flt a.2 b.2) categoryAvgs in
      ret ([Lit "🏷️ **Category Trends (Avg/Month):**\n"]
           ++ concat ((λ catAvg : string * float64,
                 [Lit "   "; Lit catAvg.1; Lit ": "; Float 2 false catAvg.2;
                  Lit "$/month (";
                  Float 1 false (percent_of catAvg.2 avgMonthlySpending);
                  Lit "%)\n"])
               <$> categoryAvgs)
           ++ [Lit "\n"])
    else ret [] in
  let totalTransactions :=
    fold_left (λ total archive, total + MonthlyArchive.TotalTransactions archive)
      archives 0 in
  let avgTransactionsPerMonth :=
    fdiv (float64_of_Z totalTransactions) (float64_of_Z (len archives)) in
  ret ([Lit "📈 **SPENDING TRENDS ANALYSIS**\n";
        Lit "═══════════════════════════════\n\n";
        Lit "💰 **Monthly Spending Trend:**\n"]
       ++ concat (reverse (imap (trend_line archives) archives))
       ++ [Lit "\n📊 **Average Monthly Spending:** "; Float 2 false avgMonthlySpending;
           Lit "$\n\n"]
       ++ categories
       ++ [Lit "📱 **Transaction Patterns:**\n";
           Lit "   • Avg transactions/month: "; Float 1 false avgTransactionsPerMonth;
           Lit "\n";
           Lit "   • Total months analyzed: "; Int false (len archives); Lit "\n";
           Lit "   • Total transactions: "; Int false totalTransactions; Lit "\n\n"]
       ++ (if 3 <=? len archives then trend_insights first archives avgMonthlySpending
           else [])).

Definition SendSpendingTrends (chatID : Z) : M unit :=
  let* r := GetRecentArchives 6 in
  match r with
  | Err _ | Ok [] =>
      do bot_Send (NewMessage chatID
            [Lit "❌ No archived data found for trend analysis."] "" None) in
      ret tt
  | Ok ((first :: _) as archives) =>
      let* trendsText := trends_text first archives in
      do bot_Send (NewMessage chatID trendsText "Markdown" None) in
      ret tt
  end.

Definition history_line (i : nat) (tx : Transaction.t) : text :=
  let timeStr := Format_short (Transaction.CreatedAt tx) in
  let category :=
    if decide (Transaction.Category tx = ""%string) then "Uncategorized"%string
    else Transaction.Category tx in
  [Int false (Z.of_nat i + 1); Lit ". **";
   Float 2 false (fabs (Transaction.Amount tx)); Lit "$** by ";
   Lit (Transaction.Author tx); Lit " ("; Lit category; Lit ") - "; Lit timeStr;
   Lit "\n"].

Definition SendTransactionHistory (chatID : Z) (limit : Z) : Handler unit :=
  let+ r := GetRecentTransactions limit in
  match r with
  | Err _ =>
      do+ lift (bot_Send (NewMessage chatID
                   [Lit "Error fetching transaction history."] "" None)) in
      retH tt
  | Ok transactions =>
      if len transactions =? 0 then
        do+ lift (bot_Send (NewMessage chatID [Lit "No transactions found."] "" None)) in
        retH tt
      else
        let historyText :=
          [Lit "**📜 Recent Transactions:**\n"]
          ++ concat (imap history_line transactions) in
        do+ lift (bot_Send (NewMessage chatID historyText "Markdown" None)) in
        retH tt
  end.

(** The comparison file of [ExportMonthlyData]. *)
Definition export_comparison (chatID : Z) : M unit :=
  let* r := GetRecentArchives 6 in
  let too_few :=
    do bot_Send (NewMessage chatID
          [Lit "❌ Need at least 2 archived months for comparison."] "" None) in
    ret tt in
  match r with
  | Err _ => too_few
  | Ok archives =>
      if len archives <? 2 then too_few
      else
        let* csv := GenerateComparisonCSV archives in
        match csv with
        | Err _ =>
            do bot_Send (NewMessage chatID
                  [Lit "⚠️ Failed to generate comparison CSV."] "" None) in
            ret tt
        | Ok rows =>
            let* now := time_Now in
            let filename := [Lit "comparison_"; Lit (Format_month now); Lit ".csv"] in
            let caption :=
              [Lit "📊 Monthly comparison report\n📈 "; Int false (len archives);
               Lit " months analyzed"] in
            do bot_Send (NewDocument chatID filename rows caption) in
            ret tt
        end
  end.

(** The month that the arguments of [/export] name: the second argument if
    it is written as [2025-01], no month at all if it is written in another
    way, and the empty identifier if there is no second argument. *)
Definition export_month (args : list string) : option string :=
  if 2 <=? len args then
    let arg := part args 1 in
    if (Z.of_nat (String.length arg) =? 7)
       && bool_decide (String.get 4 arg = Some "-"%char)
    then Some arg
    else None
  else Some ""%string.

Definition ExportMonthlyData (chatID : Z) (commandText : string) : Handler unit :=
  let args := Fields commandText in
  if len args =? 1 then
    let+ r := lift (GetRecentArchives 1) in
    match r with
    | Ok (archive :: _) => lift (safeExportCSV chatID archive)
    | Err _ | Ok [] =>
        do+ lift (bot_Send (NewMessage chatID
                     [Lit "❌ No archived data found.\nUsage: /export [month-year] or /export compare"]
                     "" None)) in
        retH tt
    end
  else if (len args =? 2) && bool_decide (part args 1 = "compare"%string) then
    lift (export_comparison chatID)
  else
    match export_month args with
    | None =>
        do+ lift (bot_Send (NewMessage chatID
                     [Lit "❌ Invalid format. Use: /export 2025-01 or /export compare"]
                     "" None)) in
        retH tt
    | Some monthID =>
        let+ r := GetMonthlyArchive monthID in
        match r with
        | Err _ =>
            do+ lift (bot_Send (NewMessage chatID
                         [Lit "❌ No archive found for "; Lit monthID] "" None)) in
            retH tt
        | Ok archive => lift (safeExportCSV chatID archive)
        end
    end.
End further_commands.

(** ** Package [handlers]: messages *)

(** A [tgbotapi.Message] as [HandleMessage] reads it: the fields above,
    whether the sender is a bot, the date of the edit, and the results of
    the methods [IsCommand] and [Command] of the library. *)
Record Update : Type := {
  message : Message;
  From_IsBot : bool;
  EditDate : Z;
  IsCommand : bool;
  Command : string;
}.

Section messages.
Context `{Location} `{Platform}.

Definition handleCommand (h : Config) (u : Update) : Handler unit :=
  let chatID := Chat_ID (message u) in
  let command := Command u in
  if decide (command = "totals"%string) then lift (SendTotals chatID)
  else if decide (command = "reset"%string) then lift (ResetDatabase chatID)
  else if decide (command = "help"%string ∨ command = "start"%string) then
    lift (SendHelp chatID)
  else if decide (command = "history"%string) then SendTransactionHistory chatID 0
  else if decide (command = "compare"%string) then lift (SendMonthlyComparison chatID)
  else if decide (command = "trends"%string) then lift (SendSpendingTrends chatID)
  else if decide (command = "export"%string) then
    ExportMonthlyData chatID (Text (message u))
  else retH tt.

Definition HandleMessage (h : Config) (u : Update) : Handler unit :=
  if From_IsBot u then retH tt
  else if negb (bool_decide (Chat_ID (message u) = ChatID h)) then retH tt
  else if IsCommand u then handleCommand h u
  else if negb (EditDate u =? 0) then lift (handleEditedMessage h (message u))
  else if negb (IsAuthorizedUser h (From_UserName (message u)) (Chat_ID (message u)))
  then retH tt
  else lift (handleNewTransaction h (message u)).
End messages.

(** ** Vocabulary of the further properties *)

(** A string of white space. *)
Fixpoint blank (s : string) : bool :=
  match s with
  | String c s' => is_space c && blank s'
  | EmptyString => true
  end.

(** A computation that makes no call to the outside and leaves the world
    as it is, but for the orders of the [range] loops it has run. *)
Definition quiet {A} (m : M A) : Prop :=
  ∀ w, ∃ o, (m w).2 = set_orders o w.

(** A computation that leaves the two stores as they are. *)
Definition keeps_stores {A} (m : M A) : Prop :=
  ∀ w, collection (m w).2 = collection w
       ∧ archiveCollection (m w).2 = archiveCollection w.

(** A number that is finite. *)
Definition is_finite (x : float64) : Prop := ∃ q, x = Finite q.

(** The world of a process that has made no call yet. *)
Definition start (w : World) : Bot := {| world := w; journal := [] |}.

(** A string without the separator of the callback data. *)
Definition no_underscore (s : string) : Prop :=
  "_"%char ∉ list_ascii_of_string s.

(** A transaction as another one, under a category. *)
Definition with_Category (category : string) (tx : Transaction.t) : Transaction.t :=
  Transaction.mk (Transaction.ID tx) (Transaction.Amount tx) (Transaction.Author tx)
    category (Transaction.ButtonMessageID tx) (Transaction.ConfirmationMessageID tx)
    (Transaction.CreatedAt tx).

(** A platform for the examples: [int(x)] of a number that [int] cannot
    hold is the least [int], as on amd64; the square root is taken of the
    numerator and of the denominator, rounded down, which is exact on the
    square of a rational. *)
Definition example_platform : Platform :=
  {| Sqrt := λ x,
       match x with
       | Finite q =>
           if decide (0 ≤ q)%Qc
           then Finite (Q2Qc (Z.sqrt (Qnum q) # Pos.sqrt (Qden q)))
           else NaN
       | PosInf => PosInf
       | _ => NaN
       end;
     int_of_unrepresentable := λ _, - 2 ^ 63 |}.

(** The press of a button, in the chat of the example configuration, of
    the keyboard that is message 101. *)
Definition press (data : string) : CallbackQuery :=
  {| Callback_ID := "callback"; Data := data; Message_Chat_ID := 1;
     Message_MessageID := 101 |}.

(** ** The sums of [CalculateTotals] and [ArchiveMonthlyData] in binary64

    The two loops that add up the amounts of a ledger, with [float64] read
    as IEEE 754 binary64 and every operation rounded to nearest: the loop of
    [CalculateTotals] over [userTotals] and the loop of [ArchiveMonthlyData]
    over [totalSpent].  Of a transaction only the two fields that these
    loops read are kept. *)

Module Binary64.
Import Floats.PrimFloat.
#[local] Set Warnings "-inexact-float".

Record Transaction : Type := mk { Author : string; Amount : float }.

(** [m[k]], the zero value when the key is absent. *)
Definition map_get (m : gmap string float) (k : string) : float :=
  default 0%float (m !! k).

(** The body of the loop of [CalculateTotals], on [userTotals]. *)
Definition totals_step (userTotals : gmap string float) (tx : Transaction)
  : gmap string float :=
  let absHalf := abs (Amount tx / 2) in
  <[Author tx := (map_get userTotals (Author tx) + absHalf)%float]> userTotals.

(** [userTotals] at the end of the loop of [CalculateTotals]. *)
Definition userTotals (transactions : list Transaction) : gmap string float :=
  fold_left totals_step transactions ∅.

(** [totalSpent] at the end of the loop of [ArchiveMonthlyData]. *)
Definition totalSpent (transactions : list Transaction) : float :=
  fold_left (λ totalSpent tx, let amt := abs (Amount tx) in (totalSpent + amt)%float)
    transactions 0%float.


(** Five amounts reported in turn by two users. *)
Definition ledger : list Transaction :=
  [mk "alice" 78.87; mk "bob" 48.79; mk "alice" 43.28; mk "bob" 69.58;
   mk "alice" 72.15].
End Binary64.

(** * Properties *)

(** ** Arithmetic of [float64] *)

(** Linear arithmetic on canonical rationals, through the rationals. *)
Ltac qc_to_q :=
  unfold Qcle, Qclt, Qcplus, Qcopp, Qcminus, Qcmult in *; simpl in *;
  repeat match goal with
         | H : context [Qred ?q] |- _ => rewrite (Qred_correct q) in H
         | |- context [Qred ?q] => rewrite (Qred_correct q)
         end.

Ltac qc_lra :=
  try (exfalso; qc_to_q; lra);
  try (apply Qc_is_canon; qc_to_q; lra);
  qc_to_q; lra.

Section float64_arithmetic.
Implicit Types x y z : float64.





Lemma fneg_involutive x : fneg (fneg x) = x.
Proof. destruct x; simpl; try reflexivity. f_equal. ring. Qed.



Lemma two_nonzero : Q2Qc (inject_Z 2) ≠ 0%Qc.
Proof. intros E. apply Q2Qc_eq_iff in E. discriminate E. Qed.

(** Halving commutes with the absolute value. *)
Lemma fabs_half x :
  fabs (fdiv x (float64_of_Z 2)) = fdiv (fabs x) (float64_of_Z 2).
Proof.
  destruct x as [a| | |]; simpl; try reflexivity.
  - destruct (decide (Q2Qc (inject_Z 2) = 0%Qc)) as [E|_];
      [by destruct two_nonzero|].
    f_equal. unfold Qcdiv.
    assert (Hpos : (0 < / Q2Qc (inject_Z 2))%Qc) by (by apply Qcinv_pos).
    destruct (decide (0 ≤ a)%Qc) as [Ha|Ha].
    + rewrite decide_True; [done|].
      rewrite <- (Qcmult_0_l (/ Q2Qc (inject_Z 2))).
      by apply Qcmult_le_mono_pos_r.
    + rewrite decide_False; [ring|].
      intros Hle. apply Ha.
      apply (Qcmult_le_mono_pos_r _ _ _ Hpos). by rewrite Qcmult_0_l.
Qed.


End float64_arithmetic.

(** ** The loop of [CalculateTotals] *)

Section totals_loop.
Implicit Types (tx : Transaction.t) (txs : list Transaction.t).
Implicit Types (acc : gmap string float64 * gmap string float64).
Implicit Types (u c : string).

Lemma map_get_empty u : map_get ∅ u = fzero.
Proof. unfold map_get. by rewrite lookup_empty. Qed.

Lemma map_get_insert (m : gmap string float64) k k' v :
  map_get (<[k := v]> m) k' = if decide (k = k') then v else map_get m k'.
Proof.
  unfold map_get. rewrite lookup_insert.
  by destruct (decide (k = k')).
Qed.

Lemma totals_step_user acc tx u :
  map_get (totals_step acc tx).1 u
  = if decide (Transaction.Author tx = u)
    then fadd (map_get acc.1 u) (fdiv (fabs (Transaction.Amount tx)) (float64_of_Z 2))
    else map_get acc.1 u.
Proof.
  destruct acc as [ut ct]. unfold totals_step. cbn [fst].
  rewrite map_get_insert, fabs_half.
  destruct (decide (Transaction.Author tx = u)) as [->|]; done.
Qed.

Lemma totals_step_category acc tx c :
  c ≠ ""%string →
  map_get (totals_step acc tx).2 c
  = if decide (Transaction.Category tx = c)
    then fadd (map_get acc.2 c) (fabs (Transaction.Amount tx))
    else map_get acc.2 c.
Proof.
  intros Hc. destruct acc as [ut ct]. unfold totals_step. cbn [snd].
  destruct (decide (Transaction.Category tx ≠ ""%string)) as [Hne|Heq].
  - rewrite map_get_insert.
    destruct (decide (Transaction.Category tx = c)) as [->|]; done.
  - destruct (decide (Transaction.Category tx = c)) as [E|]; [|done].
    destruct Heq. by rewrite E.
Qed.

Lemma totals_step_dom_users acc tx :
  dom (totals_step acc tx).1 = {[Transaction.Author tx]} ∪ dom acc.1.
Proof. destruct acc as [ut ct]. unfold totals_step. cbn [fst]. apply dom_insert_L. Qed.

Lemma totals_step_dom_categories acc tx :
  dom (totals_step acc tx).2
  = (if decide (Transaction.Category tx ≠ ""%string)
     then {[Transaction.Category tx]} else ∅) ∪ dom acc.2.
Proof.
  destruct acc as [ut ct]. unfold totals_step. cbn [snd].
  case_decide; [apply dom_insert_L | set_solver].
Qed.

Lemma fold_totals_user txs acc u :
  map_get (fold_left totals_step txs acc).1 u
  = fold_left fadd (user_contributions u txs) (map_get acc.1 u).
Proof.
  revert acc. induction txs as [|tx txs IH]; intros acc; [done|].
  cbn [fold_left]. rewrite IH, totals_step_user. unfold user_contributions.
  rewrite filter_cons. by destruct (decide (Transaction.Author tx = u)).
Qed.

Lemma fold_totals_category txs acc c :
  c ≠ ""%string →
  map_get (fold_left totals_step txs acc).2 c
  = fold_left fadd (category_amounts c txs) (map_get acc.2 c).
Proof.
  intros Hc. revert acc. induction txs as [|tx txs IH]; intros acc; [done|].
  cbn [fold_left]. rewrite IH, totals_step_category by done.
  unfold category_amounts.
  rewrite filter_cons. by destruct (decide (Transaction.Category tx = c)).
Qed.

Lemma fold_totals_dom_users txs acc :
  dom (fold_left totals_step txs acc).1 = authors txs ∪ dom acc.1.
Proof.
  revert acc. induction txs as [|tx txs IH]; intros acc.
  - unfold authors. set_solver.
  - cbn [fold_left]. rewrite IH, totals_step_dom_users. unfold authors.
    rewrite fmap_cons, list_to_set_cons. set_solver.
Qed.

Lemma fold_totals_dom_categories txs acc :
  dom (fold_left totals_step txs acc).2 = categories_set txs ∪ dom acc.2.
Proof.
  revert acc. induction txs as [|tx txs IH]; intros acc.
  - unfold categories_set. set_solver.
  - cbn [fold_left]. rewrite IH, totals_step_dom_categories. unfold categories_set.
    rewrite fmap_cons, filter_cons.
    case_decide; [rewrite list_to_set_cons|]; set_solver.
Qed.

Lemma totals_loop_user txs u :
  map_get (totals_loop txs).1 u = fsum (user_contributions u txs).
Proof. unfold totals_loop. by rewrite fold_totals_user. Qed.

Lemma totals_loop_category txs c :
  c ≠ ""%string → map_get (totals_loop txs).2 c = fsum (category_amounts c txs).
Proof. intros. unfold totals_loop. by rewrite fold_totals_category. Qed.

Lemma totals_loop_dom_users txs : dom (totals_loop txs).1 = authors txs.
Proof. unfold totals_loop. rewrite fold_totals_dom_users. set_solver. Qed.

Lemma totals_loop_dom_categories txs : dom (totals_loop txs).2 = categories_set txs.
Proof. unfold totals_loop. rewrite fold_totals_dom_categories. set_solver. Qed.

Lemma unset_category_not_in_categories_set txs : ""%string ∉ categories_set txs.
Proof.
  unfold categories_set. rewrite elem_of_list_to_set, list_elem_of_filter.
  by intros [? _].
Qed.
End totals_loop.

(** ** Running the store operations *)

Section runs.
Implicit Types w : World.

Lemma fault_at_0 w : fault_at 0 w = hd false (faults w).
Proof. unfold fault_at. by rewrite drop_0. Qed.

Lemma drop_tail {A} (n : nat) (l : list A) : drop n (tail l) = drop (S n) l.
Proof. by destruct l, n. Qed.

Lemma fault_at_after_call n e w : fault_at n (after_call e w) = fault_at (S n) w.
Proof. unfold fault_at. destruct w; cbn. by rewrite drop_tail. Qed.

Lemma fault_at_set_orders n o w : fault_at n (set_orders o w) = fault_at n w.
Proof. done. Qed.

Lemma GetAllTransactions_run w :
  GetAllTransactions w
  = if fault_at 0 w
    then (Err (Wrapf "failed to fetch transactions" ExternalError),
          after_call (StoreCall Find true) w)
    else (Ok (collection w), after_call (StoreCall Find false) w).
Proof.
  rewrite fault_at_0.
  unfold GetAllTransactions, collection_Find, store_call_with, bind,
    next_fault, emit, modify, gets, ret, after_call.
  destruct w as [c a t n f o m]; cbn. by destruct (hd false f).
Qed.

Lemma CalculateTotals_run w :
  CalculateTotals w
  = if fault_at 0 w
    then (Err (Wrapf "failed to fetch transactions" ExternalError),
          after_call (StoreCall Find true) w)
    else
      let userTotals := (totals_loop (collection w)).1 in
      let categoryTotals := (totals_loop (collection w)).2 in
      let users := keys_in_order (hd 0%nat (orders w)) userTotals in
      (Ok (net_balance users userTotals, categoryTotals, userTotals),
       set_orders (tl (orders w)) (after_call (StoreCall Find false) w)).
Proof.
  unfold CalculateTotals, bind. rewrite GetAllTransactions_run.
  destruct (fault_at 0 w); [done|].
  cbn [collection after_call set_trace set_faults].
  by destruct (totals_loop (collection w)) as [ut ct].
Qed.
End runs.

(** ** The order of a [range] loop *)

Section range_order.
Implicit Types m : gmap string float64.

Lemma keys_in_order_permutation k m : keys_in_order k m ≡ₚ (map_to_list m).*1.
Proof.
  unfold keys_in_order.
  destruct (permutations (map_to_list m).*1 !! k) as [l|] eqn:E; [|done].
  symmetry. apply permutations_Permutation. by eapply list_elem_of_lookup_2.
Qed.

Lemma keys_in_order_length k m : length (keys_in_order k m) = size m.
Proof.
  rewrite keys_in_order_permutation, length_fmap. apply length_map_to_list.
Qed.

Lemma keys_in_order_elem_of k m u : u ∈ keys_in_order k m ↔ u ∈ dom m.
Proof.
  rewrite keys_in_order_permutation, elem_of_dom, list_elem_of_fmap. split.
  - intros [[u' v] [-> Hin]]. apply elem_of_map_to_list in Hin. by exists v.
  - intros [v Hv]. exists (u, v). split; [done|]. by apply elem_of_map_to_list.
Qed.

Lemma keys_in_order_NoDup k m : NoDup (keys_in_order k m).
Proof. rewrite keys_in_order_permutation. apply NoDup_fst_map_to_list. Qed.

(** With two keys, a loop visits them in one of the two orders. *)
Lemma keys_in_order_pair k m a b :
  a ≠ b → dom m = {[a; b]} →
  keys_in_order k m = [a; b] ∨ keys_in_order k m = [b; a].
Proof.
  intros Hab Hdom. apply Permutation_length_2_inv.
  apply NoDup_Permutation.
  - apply NoDup_cons. split; [set_solver|]. apply NoDup_singleton.
  - apply keys_in_order_NoDup.
  - intros u. rewrite keys_in_order_elem_of, Hdom. set_solver.
Qed.

Lemma net_balance_short users m :
  (length users < 2)%nat → net_balance users m = fzero.
Proof. destruct users as [|? [|? ?]]; simpl; [done..|lia]. Qed.
End range_order.

(** ** Totals and balance *)

(** C1.  When the ledger can be read, [CalculateTotals] returns totals in
    which the total of each user is the sum, over the transactions of that
    user, of half the absolute value of the amount, the users that have a
    total being the authors of the transactions; and the total of each
    category is the sum of the absolute values of the amounts of the
    transactions of that category, the categories that have a total being
    those set on some transaction.  A transaction without category is not
    in any category total, and still counts in the total of its user. *)
Theorem CalculateTotals_accumulates (w : World) :
  fault_at 0 w = false →
  ∃ balance categoryTotals userTotals,
    (CalculateTotals w).1 = Ok (balance, categoryTotals, userTotals)
    ∧ (∀ user,
         map_get userTotals user = fsum (user_contributions user (collection w)))
    ∧ dom userTotals = authors (collection w)
    ∧ (∀ category, category ≠ ""%string →
         map_get categoryTotals category
         = fsum (category_amounts category (collection w)))
    ∧ dom categoryTotals = categories_set (collection w)
    ∧ ""%string ∉ dom categoryTotals.
Proof.
  intros Hread. rewrite CalculateTotals_run, Hread. cbn [fst].
  eexists _, _, _. split; [reflexivity|].
  split; [apply totals_loop_user|].
  split; [apply totals_loop_dom_users|].
  split; [apply totals_loop_category|].
  split; [apply totals_loop_dom_categories|].
  rewrite totals_loop_dom_categories. apply unset_category_not_in_categories_set.
Qed.

(** C2.  When the ledger can be read, the balance that [CalculateTotals]
    returns is zero if fewer than two distinct users have contributed, and,
    if two distinct users have, it is the total of one of them minus the
    total of the other. *)
Theorem CalculateTotals_balance (w : World) :
  fault_at 0 w = false →
  ∃ balance categoryTotals userTotals,
    (CalculateTotals w).1 = Ok (balance, categoryTotals, userTotals)
    ∧ ((size (authors (collection w)) < 2)%nat → balance = fzero)
    ∧ (∀ a b, a ≠ b → authors (collection w) = {[a; b]} →
         balance = fsub (map_get userTotals a) (map_get userTotals b)
         ∨ balance = fsub (map_get userTotals b) (map_get userTotals a)).
Proof.
  intros Hread. rewrite CalculateTotals_run, Hread. cbn [fst].
  eexists _, _, _. split; [reflexivity|]. split.
  - intros Hsize. apply net_balance_short.
    by rewrite keys_in_order_length, <- size_dom, totals_loop_dom_users.
  - intros a b Hab Hdom.
    destruct (keys_in_order_pair (hd 0%nat (orders w))
                (totals_loop (collection w)).1 a b Hab) as [-> | ->];
      [by rewrite totals_loop_dom_users | by left | by right].
Qed.


(** Closing a decidable closed proposition by computation. *)
Ltac by_computation := apply (bool_decide_unpack _); vm_compute; exact I.

(** The ledger of the example: amounts 20 and -10 by two users give the
    totals 10 and 5, and the balance 5 or -5 according to the order in
    which the two users are visited. *)
Example CalculateTotals_two_users :
  let r1 := (CalculateTotals (quiet_world two_user_ledger [0%nat])).1 in
  let r2 := (CalculateTotals (quiet_world two_user_ledger [1%nat])).1 in
  (∃ categoryTotals userTotals,
     r1 = Ok (Finite (Q2Qc 5), categoryTotals, userTotals)
     ∧ r2 = Ok (Finite (Q2Qc (-5)), categoryTotals, userTotals)
     ∧ userTotals !! "alice"%string = Some (Finite (Q2Qc 10))
     ∧ userTotals !! "bob"%string = Some (Finite (Q2Qc 5))
     ∧ categoryTotals = ∅).
Proof.
  cbn zeta. rewrite !CalculateTotals_run. cbn [fst].
  eexists _, _. repeat split; by_computation.
Qed.

(** The totals of the ledger of two users. *)
Lemma CalculateTotals_accumulates_witness :
  fault_at 0 (quiet_world two_user_ledger []) = false
  ∧ ∃ balance categoryTotals userTotals,
      (CalculateTotals (quiet_world two_user_ledger [])).1
      = Ok (balance, categoryTotals, userTotals)
      ∧ map_get userTotals "alice"
        = fsum (user_contributions "alice" two_user_ledger)
      ∧ dom categoryTotals = categories_set two_user_ledger.
Proof.
  split; [reflexivity|].
  destruct (CalculateTotals_accumulates (quiet_world two_user_ledger []) eq_refl)
    as (balance & categoryTotals & userTotals & Hrun & Husers & _ & _ & Hdom & _).
  exists balance, categoryTotals, userTotals. auto.
Defined.

(** The balance of the ledger of two users. *)
Lemma CalculateTotals_balance_witness :
  fault_at 0 (quiet_world two_user_ledger []) = false
  ∧ ∃ balance categoryTotals userTotals,
      (CalculateTotals (quiet_world two_user_ledger [])).1
      = Ok (balance, categoryTotals, userTotals)
      ∧ (balance = fsub (map_get userTotals "alice") (map_get userTotals "bob")
         ∨ balance = fsub (map_get userTotals "bob") (map_get userTotals "alice")).
Proof.
  split; [reflexivity|].
  destruct (CalculateTotals_balance (quiet_world two_user_ledger []) eq_refl)
    as (balance & categoryTotals & userTotals & Hrun & _ & Hpair).
  exists balance, categoryTotals, userTotals. split; [exact Hrun|].
  apply Hpair; [discriminate | reflexivity].
Defined.



(** ** Sums *)

Section sums.
Implicit Types (l : list float64) (m : gmap string float64).








End sums.

(** ** User totals against the total spent *)

Section halves.
Implicit Types (tx : Transaction.t) (txs : list Transaction.t).



Context `{Location}.

Lemma fold_stats_total txs acc :
  (fold_left stats_step txs acc).1.1.1
  = fold_left fadd ((λ tx, fabs (Transaction.Amount tx)) <$> txs) acc.1.1.1.
Proof.
  revert acc. induction txs as [|tx txs IH]; intros acc; [done|].
  cbn [fold_left]. rewrite IH, fmap_cons. cbn [fold_left]. f_equal.
  by destruct acc as [[[total highest] lowest] days].
Qed.

Lemma stats_loop_total txs :
  (stats_loop txs).1.1.1 = fsum ((λ tx, fabs (Transaction.Amount tx)) <$> txs).
Proof. unfold stats_loop. by rewrite fold_stats_total. Qed.

Lemma archive_record_TotalSpent txs balance ct ut clock :
  MonthlyArchive.TotalSpent (archive_record txs balance ct ut clock)
  = (stats_loop txs).1.1.1.
Proof.
  unfold archive_record.
  by destruct (stats_loop txs) as [[[total highest] lowest] days].
Qed.


Lemma archive_record_ID txs balance ct ut clock :
  MonthlyArchive.ID (archive_record txs balance ct ut clock) = Format_month clock.
Proof.
  unfold archive_record.
  by destruct (stats_loop txs) as [[[total highest] lowest] days].
Qed.
End halves.

(** ** Running the archive *)

Section archive_runs.
Context `{Location}.
Implicit Types w : World.

Lemma len_eqb_0 {A} (l : list A) : (len l =? 0) = bool_decide (l = []).
Proof.
  destruct l as [|x l]; [done|].
  rewrite bool_decide_eq_false_2 by done.
  apply Z.eqb_neq. unfold len. cbn [length]. lia.
Qed.

Lemma store_call_with_run c refused effect w :
  store_call_with c refused effect w
  = if fault_at 0 w || refused
    then (Some ExternalError, after_call (StoreCall c true) w)
    else (None, effect (after_call (StoreCall c false) w)).
Proof.
  rewrite fault_at_0.
  unfold store_call_with, bind, next_fault, emit, modify, ret, after_call.
  destruct w as [c' a t n f o m]; cbn. by destruct (hd false f || refused).
Qed.

Lemma archiveCollection_ReplaceOne_run id doc w :
  archiveCollection_ReplaceOne id doc w
  = if fault_at 0 w
    then (Some ExternalError, after_call (StoreCall (ReplaceOne id doc) true) w)
    else
      (None,
       set_archiveCollection
         (replace_upsert (archive_has_id id) doc (archiveCollection w))
         (after_call (StoreCall (ReplaceOne id doc) false) w)).
Proof.
  unfold archiveCollection_ReplaceOne. rewrite store_call_with_run.
  by rewrite orb_false_r.
Qed.

Lemma archive_of_ID txs clock order :
  MonthlyArchive.ID (archive_of txs clock order) = Format_month clock.
Proof. unfold archive_of. by rewrite archive_record_ID. Qed.

(** What [ArchiveMonthlyData] returns and how it leaves the world, by the
    outcome of its three calls to the store. *)
Lemma ArchiveMonthlyData_run w :
  ArchiveMonthlyData w
  = let w1 := after_call (StoreCall Find (fault_at 0 w)) w in
    if fault_at 0 w then
      (Err (Wrapf "failed to get transactions for archive"
              (Wrapf "failed to fetch transactions" ExternalError)), w1)
    else if len (collection w) =? 0 then (Err NoTransactions, w1)
    else
      let w2 := after_call (StoreCall Find (fault_at 1 w)) w1 in
      if fault_at 1 w then
        (Err (Wrapf "failed to calculate totals for archive"
                (Wrapf "failed to fetch transactions" ExternalError)), w2)
      else
        let archive := archive_of (collection w) (now w) (hd 0%nat (orders w)) in
        let call := ReplaceOne (MonthlyArchive.ID archive) archive in
        let w3 :=
          after_call (StoreCall call (fault_at 2 w)) (set_orders (tl (orders w)) w2) in
        if fault_at 2 w then
          (Err (Wrapf "failed to save monthly archive" ExternalError), w3)
        else
          (Ok archive,
           set_archiveCollection
             (replace_upsert (archive_has_id (MonthlyArchive.ID archive)) archive
                (archiveCollection w)) w3).
Proof.
  unfold ArchiveMonthlyData, bind. rewrite GetAllTransactions_run.
  destruct (fault_at 0 w) eqn:H0; [done|]. cbn zeta.
  destruct (len (collection w) =? 0); [done|].
  rewrite CalculateTotals_run, fault_at_after_call.
  destruct (fault_at 1 w) eqn:H1; [done|].
  unfold time_Now, gets. cbn zeta.
  rewrite archiveCollection_ReplaceOne_run. unfold archive_of.
  rewrite archive_record_ID. rewrite fault_at_set_orders.
  rewrite !fault_at_after_call.
  by destruct (fault_at 2 w), w.
Qed.

(** An archive is returned exactly when the ledger is not empty and the
    three calls to the store succeed; it is then the archive of the
    ledger. *)
Lemma ArchiveMonthlyData_Ok w a :
  (ArchiveMonthlyData w).1 = Ok a ↔
  collection w ≠ []
  ∧ fault_at 0 w = false ∧ fault_at 1 w = false ∧ fault_at 2 w = false
  ∧ a = archive_of (collection w) (now w) (hd 0%nat (orders w)).
Proof.
  rewrite ArchiveMonthlyData_run. cbn zeta.
  destruct (fault_at 0 w); [naive_solver|].
  rewrite len_eqb_0. case_bool_decide; [naive_solver|].
  destruct (fault_at 1 w); [naive_solver|].
  destruct (fault_at 2 w); [naive_solver|].
  cbn [fst]. naive_solver.
Qed.


Lemma ArchiveMonthlyData_archiveCollection w a :
  (ArchiveMonthlyData w).1 = Ok a →
  archiveCollection (ArchiveMonthlyData w).2
  = replace_upsert (archive_has_id (MonthlyArchive.ID a)) a (archiveCollection w).
Proof.
  intros Hok. pose proof Hok as (Hne & H0 & H1 & H2 & ->)%ArchiveMonthlyData_Ok.
  rewrite ArchiveMonthlyData_run, H0, H1, H2. cbn zeta.
  by rewrite len_eqb_0, bool_decide_eq_false_2.
Qed.

Lemma ArchiveMonthlyData_collection w :
  collection (ArchiveMonthlyData w).2 = collection w.
Proof.
  rewrite ArchiveMonthlyData_run. cbn zeta.
  repeat case_match; by destruct w.
Qed.

(** Whatever the outcome, the archive store is left as it was or with the
    archive written over the record of its month. *)
Lemma ArchiveMonthlyData_archiveCollection_cases w :
  archiveCollection (ArchiveMonthlyData w).2 = archiveCollection w
  ∨ ∃ a, (ArchiveMonthlyData w).1 = Ok a
         ∧ archiveCollection (ArchiveMonthlyData w).2
           = replace_upsert (archive_has_id (MonthlyArchive.ID a)) a
               (archiveCollection w).
Proof.
  destruct (ArchiveMonthlyData w).1 as [a|e] eqn:Hrun.
  - right. exists a. split; [done|]. by apply ArchiveMonthlyData_archiveCollection.
  - left. revert Hrun. rewrite ArchiveMonthlyData_run. cbn zeta.
    repeat case_match; try done; intros _; by destruct w.
Qed.
End archive_runs.

(** ** Replacing a document, inserting it when it is missing *)

Section replace_upsert.
Implicit Types (l : list MonthlyArchive.t) (d : MonthlyArchive.t) (id : string).

Lemma archive_has_id_true id d : archive_has_id id d = true ↔ MonthlyArchive.ID d = id.
Proof. unfold archive_has_id. apply bool_decide_eq_true. Qed.

Lemma existsb_archive_has_id id l :
  existsb (archive_has_id id) l = true ↔ id ∈ MonthlyArchive.ID <$> l.
Proof.
  rewrite existsb_exists, list_elem_of_fmap. split.
  - intros (d & Hin & Hd). exists d. split; [|by apply list_elem_of_In].
    symmetry. by apply archive_has_id_true.
  - intros (d & -> & Hin). exists d. split; [by apply list_elem_of_In|].
    by apply archive_has_id_true.
Qed.


Lemma update_first_ids id d l :
  MonthlyArchive.ID d = id →
  MonthlyArchive.ID <$> update_first (archive_has_id id) (λ _, d) l
  = MonthlyArchive.ID <$> l.
Proof.
  intros Hd. induction l as [|x l IH]; [done|]. cbn [update_first].
  destruct (archive_has_id id x) eqn:Hx.
  - apply archive_has_id_true in Hx. rewrite !fmap_cons. congruence.
  - by rewrite !fmap_cons, IH.
Qed.



(** The identifiers stay unique. *)
Lemma replace_upsert_NoDup id d l :
  NoDup (MonthlyArchive.ID <$> l) → MonthlyArchive.ID d = id →
  NoDup (MonthlyArchive.ID <$> replace_upsert (archive_has_id id) d l).
Proof.
  intros Hnd Hd. unfold replace_upsert.
  destruct (existsb (archive_has_id id) l) eqn:Hex.
  - by rewrite update_first_ids.
  - rewrite fmap_app. apply NoDup_app. split; [done|]. split.
    + intros x Hx ->%list_elem_of_singleton. cbn in Hx. rewrite Hd in Hx.
      apply existsb_archive_has_id in Hx. congruence.
    + apply NoDup_singleton.
Qed.



Lemma update_first_absent id d l :
  existsb (archive_has_id id) l = false →
  update_first (archive_has_id id) (λ _, d) l = l.
Proof.
  induction l as [|x l IH]; [done|]. cbn [existsb update_first].
  intros [Hx Hl]%orb_false_iff. by rewrite Hx, IH.
Qed.



End replace_upsert.

(** ** The monthly archive *)

Section archive.
Context `{Location}.
Implicit Types w : World.

(** The statistics of an archive depend on the ledger only: a second
    archive of the same ledger differs from the first one at most by its
    time fields and by its balance. *)
Lemma archive_of_statistics txs clock order clock' order' :
  let a := archive_of txs clock order in
  let a' := archive_of txs clock' order' in
  MonthlyArchive.TotalSpent a' = MonthlyArchive.TotalSpent a
  ∧ MonthlyArchive.TotalTransactions a' = MonthlyArchive.TotalTransactions a
  ∧ MonthlyArchive.UserTotals a' = MonthlyArchive.UserTotals a
  ∧ MonthlyArchive.CategoryTotals a' = MonthlyArchive.CategoryTotals a
  ∧ MonthlyArchive.Transactions a' = MonthlyArchive.Transactions a
  ∧ MonthlyArchive.AvgTransaction a' = MonthlyArchive.AvgTransaction a
  ∧ MonthlyArchive.HighestTransaction a' = MonthlyArchive.HighestTransaction a
  ∧ MonthlyArchive.LowestTransaction a' = MonthlyArchive.LowestTransaction a
  ∧ MonthlyArchive.DaysWithSpending a' = MonthlyArchive.DaysWithSpending a.
Proof.
  unfold archive_of, archive_record.
  by destruct (stats_loop txs) as [[[total highest] lowest] days].
Qed.

(** The identifiers of the archive store stay unique. *)
Lemma ArchiveMonthlyData_unique_ids w :
  NoDup (MonthlyArchive.ID <$> archiveCollection w) →
  NoDup (MonthlyArchive.ID <$> archiveCollection (ArchiveMonthlyData w).2).
Proof.
  intros Hnd.
  destruct (ArchiveMonthlyData_archiveCollection_cases w) as [-> | (a & _ & ->)];
    [done | by apply replace_upsert_NoDup].
Qed.

(** C4.  On an empty ledger that can be read, [ArchiveMonthlyData] fails
    with the error of an empty ledger; it leaves the archive store as it
    was, its only call to the store being the reading of the ledger. *)
Theorem ArchiveMonthlyData_empty_ledger w :
  collection w = [] → fault_at 0 w = false →
  (ArchiveMonthlyData w).1 = Err NoTransactions
  ∧ archiveCollection (ArchiveMonthlyData w).2 = archiveCollection w
  ∧ trace (ArchiveMonthlyData w).2 = trace w ++ [StoreCall Find false].
Proof.
  intros Hempty Hread. rewrite ArchiveMonthlyData_run, Hread, len_eqb_0.
  rewrite bool_decide_eq_true_2 by done. cbn zeta. cbn [fst snd].
  by destruct w.
Qed.


End archive.

(** The archive of an empty ledger, in a world where no call fails. *)
Lemma ArchiveMonthlyData_empty_ledger_witness :
  (@ArchiveMonthlyData UTC (quiet_world [] [])).1 = Err NoTransactions
  ∧ archiveCollection (@ArchiveMonthlyData UTC (quiet_world [] [])).2 = []
  ∧ trace (@ArchiveMonthlyData UTC (quiet_world [] [])).2 = [StoreCall Find false].
Proof.
  apply (@ArchiveMonthlyData_empty_ledger UTC (quiet_world [] []));
    reflexivity.
Defined.



Section binary64.
Import Floats.PrimFloat.
#[local] Set Warnings "-inexact-float".

End binary64.

(** ** Validation of amounts *)

Section validation.
Lemma ValidateAmount_Ok text amount :
  ValidateAmount text = Ok amount ↔
  ParseFloat (TrimSpace text) = Some amount ∧ fle amount fzero = false.
Proof.
  unfold ValidateAmount. destruct (ParseFloat (TrimSpace text)) as [x|].
  - destruct (fle x fzero) eqn:Hle; split.
    + discriminate.
    + intros [[= ->] Hle']. congruence.
    + by intros [= ->].
    + by intros [[= ->] _].
  - split; [discriminate | by intros [? _]].
Qed.

Lemma fle_zero_false x : fle x fzero = false ↔ strictly_positive x ∨ x = NaN.
Proof.
  unfold strictly_positive, fle, flt, feqb, fzero.
  destruct x as [a| | |]; cbn.
  - rewrite orb_false_iff, !bool_decide_eq_false, bool_decide_eq_true. split.
    + intros [Hlt Hne]. left. apply Qcnot_le_lt.
      intros [Hlt'|Heq]%Qcle_lt_or_eq; [done|]. by subst.
    + intros [Hpos|Hnan]; [|discriminate Hnan]. split.
      * by apply Qcle_not_lt, Qclt_le_weak.
      * intros [= ->]. by apply Qclt_not_eq in Hpos.
  - split; [by left | done].
  - split; [done | by intros [|]].
  - split; [by right | done].
Qed.

(** An amount that passes the validation is strictly positive, or is not
    a number. *)
Lemma ValidateAmount_Ok_cases text amount :
  ValidateAmount text = Ok amount → strictly_positive amount ∨ amount = NaN.
Proof. intros [_ Hle]%ValidateAmount_Ok. by apply fle_zero_false. Qed.

Lemma ValidateAmount_NaN : ValidateAmount "NaN" = Ok NaN.
Proof. reflexivity. Qed.

Lemma NaN_not_strictly_positive : ¬ strictly_positive NaN.
Proof. unfold strictly_positive. cbn. discriminate. Qed.

(** An infinity passes the validation as well, white space and case aside. *)
Example ValidateAmount_Infinity : ValidateAmount " infinity " = Ok PosInf.
Proof. reflexivity. Qed.

(** Decimals: accepted when positive, refused when zero or negative, and
    refused with the words that are not numbers. *)
Example ValidateAmount_decimals :
  ValidateAmount "25.50" = Ok (Finite (Q2Qc (51 # 2)))
  ∧ ValidateAmount "0" = Err (Errorf "amount must be positive")
  ∧ ValidateAmount "-3" = Err (Errorf "amount must be positive")
  ∧ ValidateAmount "thanks" = Err (Errorf "invalid amount format").
Proof. repeat split; by_computation. Qed.
End validation.

(** ** Running the handlers *)

Ltac world_simpl :=
  cbn [collection archiveCollection trace now faults orders next_message_id
       after_call set_collection set_archiveCollection set_trace set_faults
       set_orders set_next_message_id set_environment fst snd].

(** Case analysis on the outcome of the next call in the goal. *)
Ltac destruct_fault :=
  match goal with
  | |- context [fault_at 0 ?w] => destruct (fault_at 0 w)
  end.

Section handler_runs.
Implicit Types w : World.

Lemma bot_Send_run c w :
  bot_Send c w
  = if fault_at 0 w
    then (Err ExternalError, after_call (BotCall c true) w)
    else (Ok (next_message_id w),
          set_next_message_id (next_message_id w + 1)
            (after_call (BotCall c false) w)).
Proof.
  rewrite fault_at_0.
  unfold bot_Send, bind, next_fault, emit, modify, gets, ret, after_call.
  destruct w as [c' a t n f o m]; cbn. by destruct (hd false f).
Qed.

Lemma bot_Send_collection c w : collection (bot_Send c w).2 = collection w.
Proof. rewrite bot_Send_run. by destruct (fault_at 0 w), w. Qed.

Lemma bot_Send_trace c w :
  trace (bot_Send c w).2 = trace w ++ [BotCall c (fault_at 0 w)].
Proof. rewrite bot_Send_run. by destruct (fault_at 0 w), w. Qed.

Lemma DeleteAllTransactions_run w :
  DeleteAllTransactions w
  = if fault_at 0 w
    then (Some (Wrapf "failed to delete all transactions" ExternalError),
          after_call (StoreCall DeleteMany true) w)
    else (None, set_collection [] (after_call (StoreCall DeleteMany false) w)).
Proof.
  unfold DeleteAllTransactions, collection_DeleteMany, bind, ret.
  rewrite store_call_with_run, orb_false_r. by destruct (fault_at 0 w).
Qed.

Lemma InsertTransaction_run tx w :
  InsertTransaction tx w
  = let doc := with_CreatedAt (now w) tx in
    if fault_at 0 w || existsb (has_id (Transaction.ID tx)) (collection w)
    then (Some (Wrapf "failed to insert transaction" ExternalError),
          after_call (StoreCall (InsertOne doc) true) w)
    else (None,
          set_collection (collection w ++ [doc])
            (after_call (StoreCall (InsertOne doc) false) w)).
Proof.
  unfold InsertTransaction, collection_InsertOne, time_Now, gets, bind, ret.
  rewrite store_call_with_run. cbn zeta.
  by destruct (fault_at 0 w || _).
Qed.

Lemma FindTransaction_run id w :
  FindTransaction id w
  = if fault_at 0 w
    then (Err (Wrapf "failed to find transaction" ExternalError),
          after_call (StoreCall (FindOne id) true) w)
    else (Ok (find (has_id id) (collection w)),
          after_call (StoreCall (FindOne id) false) w).
Proof.
  unfold FindTransaction, collection_FindOne, gets, bind, ret.
  rewrite store_call_with_run, orb_false_r. by destruct (fault_at 0 w), w.
Qed.

Lemma UpdateTransaction_run id update w :
  UpdateTransaction id update w
  = if fault_at 0 w
    then (Some (Wrapf "failed to update transaction" ExternalError),
          after_call (StoreCall (UpdateOne id update) true) w)
    else (None,
          set_collection
            (update_first (has_id id) (apply_set update) (collection w))
            (after_call (StoreCall (UpdateOne id update) false) w)).
Proof.
  unfold UpdateTransaction, collection_UpdateOne, bind, ret.
  rewrite store_call_with_run, orb_false_r. by destruct (fault_at 0 w), w.
Qed.

Lemma has_id_true id tx : has_id id tx = true ↔ Transaction.ID tx = id.
Proof. unfold has_id. apply bool_decide_eq_true. Qed.

Lemma existsb_has_id id (l : list Transaction.t) :
  existsb (has_id id) l = true ↔ id ∈ Transaction.ID <$> l.
Proof.
  rewrite existsb_exists, list_elem_of_fmap. split.
  - intros (d & Hin & Hd). exists d. split; [|by apply list_elem_of_In].
    symmetry. by apply has_id_true.
  - intros (d & -> & Hin). exists d. split; [by apply list_elem_of_In|].
    by apply has_id_true.
Qed.

(** Updating the record of a fresh identifier that was just inserted. *)
Lemma update_first_last id f (l : list Transaction.t) tx :
  id ∉ Transaction.ID <$> l → Transaction.ID tx = id →
  update_first (has_id id) f (l ++ [tx]) = l ++ [f tx].
Proof.
  intros Hfresh Htx. induction l as [|x l IH]; cbn [app update_first].
  - by rewrite (proj2 (has_id_true id tx) Htx).
  - rewrite fmap_cons, not_elem_of_cons in Hfresh. destruct Hfresh as [Hx Hl].
    destruct (has_id id x) eqn:E; [by apply has_id_true in E|].
    by rewrite IH.
Qed.

Lemma set_field_same_but_amount tx kv :
  kv.1 = "amount"%string → same_but_amount tx (set_field tx kv).
Proof.
  destruct tx, kv as [k [x|s]]; cbn; intros ->; by repeat split.
Qed.

Lemma update_first_same_but_amount id x (l : list Transaction.t) :
  Forall2 same_but_amount l
    (update_first (has_id id) (apply_set [("amount"%string, BFloat x)]) l).
Proof.
  induction l as [|tx l IH]; [constructor|]. cbn [update_first].
  destruct (has_id id tx).
  - constructor; [by apply set_field_same_but_amount|].
    apply Forall2_same_length_lookup_2; [done|]. intros i a b Ha Hb.
    assert (a = b) as -> by congruence. by repeat split.
  - constructor; [by repeat split | done].
Qed.

Lemma same_but_amount_refl (l : list Transaction.t) : Forall2 same_but_amount l l.
Proof. induction l; constructor; [by repeat split | done]. Qed.
End handler_runs.

(** A message sent for information only: the ledger is as before. *)
Ltac skip_bot_Send :=
  match goal with
  | |- context [bot_Send ?c ?w] =>
      let Hc := fresh "Hc" in
      pose proof (bot_Send_collection c w) as Hc;
      destruct (bot_Send c w) as [? ?]; cbn [fst snd] in Hc;
      cbv beta iota zeta; unfold ret; cbn [fst snd]
  end.

(** ** Reporting and editing an amount *)

Section lifecycle.
Implicit Types (w : World) (h : Config) (message : Message).

(** A text that does not pass the validation leaves the world as it is. *)
Lemma handleNewTransaction_invalid h message w e :
  ValidateAmount (Text message) = Err e →
  handleNewTransaction h message w = (tt, w).
Proof. intros Hv. unfold handleNewTransaction. by rewrite Hv. Qed.

(** A text that passes the validation creates, when the insertion
    succeeds, exactly one record: it has the amount parsed and no
    category, and is the last of the ledger. *)
Lemma handleNewTransaction_valid h message w amount :
  ValidateAmount (Text message) = Ok amount →
  fault_at 0 w = false →
  Itoa (MessageID message) ∉ Transaction.ID <$> collection w →
  ∃ button,
    collection (handleNewTransaction h message w).2
    = collection w
      ++ [Transaction.mk (Itoa (MessageID message)) amount (From_UserName message)
            "" button "" (now w)].
Proof.
  intros Hv Hins Hfresh. unfold handleNewTransaction, bind. rewrite Hv.
  rewrite InsertTransaction_run, Hins. clear Hins. cbn zeta. cbn [Transaction.ID].
  assert (existsb (has_id (Itoa (MessageID message))) (collection w) = false) as ->.
  { apply not_true_is_false. by intros ?%existsb_has_id. }
  cbn [orb]. unfold sendCategorySelection, bind. rewrite bot_Send_run.
  destruct_fault; [by eexists; destruct w|].
  cbv beta iota zeta. rewrite UpdateTransaction_run.
  destruct_fault; [by eexists; destruct w|].
  eexists. unfold ret. world_simpl.
  by rewrite update_first_last.
Qed.

(** When the insertion fails, no record is created. *)
Lemma handleNewTransaction_insert_failure h message w :
  fault_at 0 w = true →
  collection (handleNewTransaction h message w).2 = collection w.
Proof.
  intros Hins. unfold handleNewTransaction, bind.
  destruct (ValidateAmount (Text message)); [|done].
  rewrite InsertTransaction_run, Hins. cbn zeta. cbn [orb].
  skip_bot_Send. by rewrite Hc.
Qed.

(** The ledger after an edit: one record has its fields set from the
    update document, or nothing has changed. *)
Lemma handleEditedMessage_collection h message w :
  collection (handleEditedMessage h message w).2 = collection w
  ∨ ∃ newAmount,
      ValidateAmount (Text message) = Ok newAmount
      ∧ collection (handleEditedMessage h message w).2
        = update_first (has_id (Itoa (MessageID message)))
            (apply_set [("amount"%string, BFloat newAmount)]) (collection w).
Proof.
  unfold handleEditedMessage, bind.
  destruct (negb _); [by left|].
  destruct (ValidateAmount (Text message)) as [newAmount|]; [|by left].
  rewrite FindTransaction_run.
  destruct (fault_at 0 w); [left; by destruct w|].
  destruct (find _ _) as [tx|]; [|left; by destruct w].
  rewrite UpdateTransaction_run.
  destruct_fault; [left; by destruct w|].
  right. exists newAmount. split; [done|].
  case_decide; [skip_bot_Send; rewrite Hc|]; by destruct w.
Qed.

(** An edit changes no field of any record but the amount, and neither
    adds nor removes a record. *)
Lemma handleEditedMessage_frame h message w :
  Forall2 same_but_amount (collection w) (collection (handleEditedMessage h message w).2).
Proof.
  destruct (handleEditedMessage_collection h message w) as [-> | (x & _ & ->)].
  - apply same_but_amount_refl.
  - apply update_first_same_but_amount.
Qed.

(** An edit of a message that is no transaction changes nothing in the
    ledger. *)
Lemma handleEditedMessage_no_record h message w :
  find (has_id (Itoa (MessageID message))) (collection w) = None →
  collection (handleEditedMessage h message w).2 = collection w.
Proof.
  intros Hnone. unfold handleEditedMessage, bind.
  destruct (negb _); [done|].
  destruct (ValidateAmount (Text message)); [|done].
  rewrite FindTransaction_run, Hnone. by destruct (fault_at 0 w), w.
Qed.

(** An edit to a text that does not pass the validation leaves the world
    as it is. *)
Lemma handleEditedMessage_invalid h message w e :
  ValidateAmount (Text message) = Err e →
  handleEditedMessage h message w = (tt, w).
Proof.
  intros Hv. unfold handleEditedMessage. rewrite Hv. by destruct (negb _).
Qed.
End lifecycle.

(** C3, a defect of the code.  The text [NaN] is not a strictly positive
    decimal, and yet reporting it creates a record, whose amount is not a
    number: the validation rejects the amounts that are [<= 0], a comparison
    that is false of [NaN]. *)
Theorem handleNewTransaction_NaN_creates_record :
  ParseFloat "NaN" = Some NaN
  ∧ ¬ strictly_positive NaN
  ∧ collection (quiet_world [] []) = []
  ∧ collection
      (handleNewTransaction example_config (message_from 9 "bob" "NaN")
         (quiet_world [] [])).2
    = [Transaction.mk "9" NaN "bob" "" "100" "" 1735689600].
Proof.
  split; [reflexivity|]. split; [apply NaN_not_strictly_positive|].
  split; [reflexivity|]. vm_compute. reflexivity.
Qed.

(** C8, a defect of the code.  Editing the message of a transaction to the
    text [NaN], which is no positive amount, changes the amount of the
    record to a value that is not a number.  The cause is the one of C3. *)
Theorem handleEditedMessage_NaN_changes_amount :
  ¬ strictly_positive NaN
  ∧ collection (quiet_world [groceries_record] []) = [groceries_record]
  ∧ collection
      (handleEditedMessage example_config (message_from 8 "bob" "NaN")
         (quiet_world [groceries_record] [])).2
    = [Transaction.mk "8" NaN "bob" "Groceries" "101" "" 1735689600].
Proof.
  split; [apply NaN_not_strictly_positive|].
  split; [reflexivity|]. vm_compute. reflexivity.
Qed.

(** ** The monthly close *)

Section monthly_close.
Context `{Location}.
Implicit Types (w : World) (h : Config).

Lemma safeArchiveData_run w :
  safeArchiveData w
  = (match (ArchiveMonthlyData w).1 with
     | Ok archiveData => (Some archiveData, None)
     | Err err => (None, Some (Wrapf "failed to archive" err))
     end, (ArchiveMonthlyData w).2).
Proof.
  unfold safeArchiveData, bind, ret.
  by destruct (ArchiveMonthlyData w) as [[a|e] w'].
Qed.

(** C6, a defect of the code.  When the archive fails, because the ledger
    cannot be read or is empty, and the ledger cannot be read for the
    report either, [MonthlyReset] returns at once: it has made two calls to
    the store, the two readings of the ledger; it has not tried to delete
    the transactions, and has sent nothing to the chat. *)
Theorem MonthlyReset_stops_when_fallback_fails h w :
  fault_at 0 w = true ∨ collection w = [] → fault_at 1 w = true →
  trace (MonthlyReset h w).2
  = trace w ++ [StoreCall Find (fault_at 0 w); StoreCall Find true]
  ∧ collection (MonthlyReset h w).2 = collection w.
Proof.
  intros Harchive Hread. unfold MonthlyReset, bind.
  rewrite safeArchiveData_run, ArchiveMonthlyData_run. cbn zeta.
  assert ((if fault_at 0 w then true else len (collection w) =? 0) = true) as Hfail.
  { destruct Harchive as [-> | ->]; [done | by destruct (fault_at 0 w)]. }
  destruct (fault_at 0 w) eqn:H0; [|rewrite Hfail];
    cbn [fst snd report_data]; unfold bind;
    rewrite CalculateTotals_run, fault_at_after_call, Hread;
    unfold ret; cbv beta iota zeta; cbn [snd];
    destruct w; cbn; (split; [by rewrite <- app_assoc | done]).
Qed.

(** When the data of the report is available, the deletion of the
    transactions is attempted, and its failure is reported to the chat;
    [w'] is the world as the report and the export left it. *)
Lemma MonthlyReset_attempts_reset h w :
  (report_data (safeArchiveData w).1.1 (safeArchiveData w).2).1 ≠ None →
  ∃ w',
    trace (MonthlyReset h w).2
    = trace w'
      ++ StoreCall DeleteMany (fault_at 0 w')
         :: (if fault_at 0 w'
             then [BotCall (reset_warning (ChatID h)) (fault_at 1 w')]
             else [])
    ∧ collection (MonthlyReset h w).2
      = if fault_at 0 w' then collection w' else [].
Proof.
  unfold MonthlyReset, bind.
  destruct (safeArchiveData w) as [[archive err] w1]. cbn [fst snd].
  destruct (report_data archive w1) as [[data|] w2]; [|done]. intros _.
  destruct data as [[[[[balance totalSpent] categoryTotals] userTotals] transactions]
                      totalTransactions].
  destruct (monthly_report _ _ _ _ _ _ _ w2) as [monthlyText w3].
  destruct (bot_Send _ w3) as [sent w4].
  assert (∃ w5, (match archive with
                 | Some a => safeExportCSV (ChatID h) a
                 | None => ret tt
                 end w4) = (tt, w5)) as [w5 ->].
  { destruct archive as [a|].
    - destruct (safeExportCSV (ChatID h) a w4) as [[] w5]. by exists w5.
    - by exists w4. }
  exists w5. rewrite DeleteAllTransactions_run.
  destruct (fault_at 0 w5) eqn:Hdelete.
  - fold (reset_warning (ChatID h)). rewrite bot_Send_run, fault_at_after_call.
    unfold ret. destruct (fault_at 1 w5), w5; cbn; by rewrite <- app_assoc.
  - unfold ret. by destruct w5.
Qed.

(** The data of the report is available when the archive succeeded, and
    when the ledger can be read after a failed archive. *)
Lemma report_data_available archive w :
  is_Some archive ∨ fault_at 0 w = false →
  (report_data archive w).1 ≠ None.
Proof.
  intros Hok. unfold report_data, bind.
  destruct archive as [a|]; [done|].
  destruct Hok as [[a [=]]|Hread].
  rewrite CalculateTotals_run, Hread. cbv beta iota zeta.
  match goal with
  | |- context [GetAllTransactions ?w1] => destruct (GetAllTransactions w1) as [r w2]
  end.
  match goal with
  | |- context [range_items ?m w2] => by destruct (range_items m w2)
  end.
Qed.
End monthly_close.

(** A monthly close while the ledger, which has two transactions, cannot be
    read. *)
Lemma MonthlyReset_stops_when_fallback_fails_witness :
  let w := set_faults [true; true] (quiet_world two_user_ledger []) in
  trace (@MonthlyReset UTC example_config w).2
  = [StoreCall Find true; StoreCall Find true]
  ∧ collection (@MonthlyReset UTC example_config w).2 = two_user_ledger.
Proof.
  apply (@MonthlyReset_stops_when_fallback_fails UTC example_config
           (set_faults [true; true] (quiet_world two_user_ledger [])));
    [left; reflexivity | reflexivity].
Defined.

(** ** Comparison of months *)

Section comparison.
Context `{Location}.
Implicit Types (w : World).




Lemma GetRecentArchives_run limit w :
  GetRecentArchives limit w
  = if fault_at 0 w
    then (Err (Wrapf "failed to fetch recent archives" ExternalError),
          after_call (StoreCall (FindArchives limit) true) w)
    else (Ok (apply_limit limit (merge_sort archived_after (archiveCollection w))),
          after_call (StoreCall (FindArchives limit) false) w).
Proof.
  unfold GetRecentArchives, archiveCollection_Find, gets, bind, ret.
  rewrite store_call_with_run, orb_false_r. by destruct (fault_at 0 w), w.
Qed.




(** In the CSV comparison the growth is not available when the previous
    value is zero, and is otherwise the percentage of the change. *)
Lemma growth_cell_unavailable current previous :
  growth_cell current previous = cell "N/A" ↔ previous = fzero.
Proof.
  unfold growth_cell, fne, feqb, fzero.
  destruct previous as [a| | |]; cbn; try (split; discriminate).
  case_bool_decide as Ha; cbn; [done|]. split; [discriminate | congruence].
Qed.

Lemma growth_cell_available current previous :
  previous ≠ fzero →
  growth_cell current previous
  = cell_percent (fmul (fdiv (fsub current previous) previous) (float64_of_Z 100)).
Proof.
  intros Hne. unfold growth_cell, fne, feqb, fzero.
  destruct previous as [a| | |]; cbn; try done.
  by rewrite bool_decide_eq_false_2.
Qed.

(** Each growth cell of the CSV comparison is the guarded one, for two
    archives that follow each other. *)
Lemma growth_cells_lookup metric archives i previous current :
  archives !! i = Some previous → archives !! S i = Some current →
  growth_cells metric archives !! i
  = Some (growth_cell (growth_operand metric current)
            (growth_operand metric previous)).
Proof.
  revert i. induction archives as [|a archives IH]; intros i; [done|].
  destruct archives as [|b archives]; [by destruct i|].
  destruct i as [|i]; cbn [growth_cells].
  - by intros [= ->] [= ->].
  - intros Hp Hc. by apply IH.
Qed.
End comparison.


(** The percentage printed in that comparison is [+Inf]. *)
Example spending_percent_infinite :
  spending_percent (archive_with "2025-02" 50 1740819600)
    (archive_with "2025-01" 0 1738400400) = PosInf.
Proof. vm_compute. reflexivity. Qed.

(** For the same two archives the CSV comparison does not divide by zero.
    On a list that has the latest archive first, as [GetRecentArchives]
    returns it, the archive that the loop takes as the previous one is the
    later of the two: the cell is the change from 50 to 0 relative to 50. *)
Example growth_cells_latest_first :
  growth_cells "Total Spent"
    [archive_with "2025-02" 50 1740819600; archive_with "2025-01" 0 1738400400]
  = [cell_percent (Finite (Q2Qc (-100)))]
  ∧ growth_cells "Total Spent"
      [archive_with "2025-01" 0 1738400400; archive_with "2025-02" 50 1740819600]
    = [cell "N/A"].
Proof. unfold text. split; by_computation. Qed.

(** * Further properties *)

(** ** The ledger as a store of records *)

Section ledger_store.
Implicit Types (w : World) (tx : Transaction.t) (id : string)
  (l : list Transaction.t).

Lemma find_has_id_fresh id l :
  id ∉ Transaction.ID <$> l → find (has_id id) l = None.
Proof.
  induction l as [|x l IH]; [done|].
  rewrite fmap_cons, not_elem_of_cons. intros [Hx Hl]. cbn [find].
  destruct (has_id id x) eqn:E; [by apply has_id_true in E|]. by apply IH.
Qed.

Lemma find_has_id_last id l tx :
  id ∉ Transaction.ID <$> l → Transaction.ID tx = id →
  find (has_id id) (l ++ [tx]) = Some tx.
Proof.
  intros Hfresh Htx. induction l as [|x l IH]; cbn [app find].
  - by rewrite (proj2 (has_id_true id tx) Htx).
  - rewrite fmap_cons, not_elem_of_cons in Hfresh. destruct Hfresh as [Hx Hl].
    destruct (has_id id x) eqn:E; [by apply has_id_true in E|]. by apply IH.
Qed.

Lemma set_field_ID tx kv : Transaction.ID (set_field tx kv) = Transaction.ID tx.
Proof.
  destruct tx, kv as [k [x|s]]; cbn; repeat case_decide; done.
Qed.

Lemma apply_set_ID update tx :
  Transaction.ID (apply_set update tx) = Transaction.ID tx.
Proof.
  unfold apply_set. revert tx.
  induction update as [|kv update IH]; intros tx; [done|].
  cbn [fold_left]. by rewrite IH, set_field_ID.
Qed.

Lemma update_first_IDs id f l :
  (∀ tx, Transaction.ID (f tx) = Transaction.ID tx) →
  Transaction.ID <$> update_first (has_id id) f l = Transaction.ID <$> l.
Proof.
  intros Hf. induction l as [|x l IH]; [done|]. cbn [update_first].
  destruct (has_id id x); rewrite !fmap_cons; congruence.
Qed.

Lemma find_update_first id f l :
  (∀ tx, Transaction.ID (f tx) = Transaction.ID tx) →
  find (has_id id) (update_first (has_id id) f l) = f <$> find (has_id id) l.
Proof.
  intros Hf. induction l as [|x l IH]; [done|]. cbn [update_first find].
  destruct (has_id id x) eqn:E; cbn [find].
  - apply has_id_true in E.
    by rewrite (proj2 (has_id_true id (f x))) by (by rewrite Hf).
  - by rewrite E.
Qed.

Lemma find_update_first_other id id' f l :
  (∀ tx, Transaction.ID (f tx) = Transaction.ID tx) → id' ≠ id →
  find (has_id id') (update_first (has_id id) f l) = find (has_id id') l.
Proof.
  intros Hf Hne. induction l as [|x l IH]; [done|]. cbn [update_first find].
  destruct (has_id id x) eqn:E; cbn [find].
  - apply has_id_true in E.
    destruct (has_id id' x) eqn:E'; [apply has_id_true in E'; congruence|].
    destruct (has_id id' (f x)) eqn:E''; [|done].
    apply has_id_true in E''. rewrite Hf in E''. congruence.
  - destruct (has_id id' x); by rewrite ?IH.
Qed.

Lemma update_first_fresh id f l :
  id ∉ Transaction.ID <$> l → update_first (has_id id) f l = l.
Proof.
  induction l as [|x l IH]; [done|].
  rewrite fmap_cons, not_elem_of_cons. intros [Hx Hl]. cbn [update_first].
  destruct (has_id id x) eqn:E; [by apply has_id_true in E|]. by rewrite IH.
Qed.

(** X1.  A transaction that [InsertTransaction] accepted had a fresh
    identifier; it is the last record of the ledger, stamped with the time
    of the insertion, and [FindTransaction] returns it under its
    identifier. *)
Theorem InsertTransaction_then_FindTransaction tx w :
  (InsertTransaction tx w).1 = None →
  fault_at 1 w = false →
  (Transaction.ID tx ∉ Transaction.ID <$> collection w)
  ∧ collection (InsertTransaction tx w).2
    = collection w ++ [with_CreatedAt (now w) tx]
  ∧ (FindTransaction (Transaction.ID tx) (InsertTransaction tx w).2).1
    = Ok (Some (with_CreatedAt (now w) tx)).
Proof.
  rewrite InsertTransaction_run. cbn zeta.
  destruct (fault_at 0 w || existsb _ _) eqn:Hins; [done|]. intros _ Hfind.
  apply orb_false_iff in Hins as [_ Hfresh].
  assert (Transaction.ID tx ∉ Transaction.ID <$> collection w) as Hid.
  { intros Hin%existsb_has_id. congruence. }
  split; [done|]. cbn [snd]. split; [by destruct w|].
  rewrite FindTransaction_run.
  replace (fault_at 0 _) with (fault_at 1 w) by (by destruct w).
  rewrite Hfind. cbn [fst]. f_equal.
  replace (collection _) with (collection w ++ [with_CreatedAt (now w) tx])
    by (by destruct w).
  by apply find_has_id_last.
Qed.

(** X2.  A successful [UpdateTransaction] keeps the identifiers of the
    ledger and their order; the record of the identifier given, if there
    is one, has its fields set from the update document, and the record
    found under any other identifier is as before.  For an identifier that
    is not in the ledger the update succeeds and changes nothing. *)
Theorem UpdateTransaction_sets_one_record id update w :
  (UpdateTransaction id update w).1 = None →
  Transaction.ID <$> collection (UpdateTransaction id update w).2
  = Transaction.ID <$> collection w
  ∧ find (has_id id) (collection (UpdateTransaction id update w).2)
    = apply_set update <$> find (has_id id) (collection w)
  ∧ (∀ id', id' ≠ id →
       find (has_id id') (collection (UpdateTransaction id update w).2)
       = find (has_id id') (collection w))
  ∧ (id ∉ Transaction.ID <$> collection w →
       collection (UpdateTransaction id update w).2 = collection w).
Proof.
  rewrite UpdateTransaction_run. destruct (fault_at 0 w); [done|]. intros _.
  cbn [snd].
  replace (collection _)
    with (update_first (has_id id) (apply_set update) (collection w))
    by (by destruct w).
  split; [apply update_first_IDs, apply_set_ID|].
  split; [apply find_update_first, apply_set_ID|].
  split; [intros id' Hne; by apply find_update_first_other, Hne; apply apply_set_ID|].
  apply update_first_fresh.
Qed.
End ledger_store.

(** A first amount reported in an empty ledger. *)
Lemma InsertTransaction_then_FindTransaction_witness :
  let tx := transaction "1" 20 "alice" "" in
  let w := quiet_world [] [] in
  (Transaction.ID tx ∉ Transaction.ID <$> collection w)
  ∧ collection (InsertTransaction tx w).2
    = collection w ++ [with_CreatedAt (now w) tx]
  ∧ (FindTransaction (Transaction.ID tx) (InsertTransaction tx w).2).1
    = Ok (Some (with_CreatedAt (now w) tx)).
Proof.
  apply (InsertTransaction_then_FindTransaction
           (transaction "1" 20 "alice" "") (quiet_world [] []));
    reflexivity.
Defined.

(** The category of the second record of the ledger of two users is set. *)
Lemma UpdateTransaction_sets_one_record_witness :
  let w := quiet_world two_user_ledger [] in
  let update := [("category"%string, BString "Other")] in
  Transaction.ID <$> collection (UpdateTransaction "2" update w).2
  = Transaction.ID <$> collection w
  ∧ find (has_id "2") (collection (UpdateTransaction "2" update w).2)
    = apply_set update <$> find (has_id "2") (collection w)
  ∧ (∀ id', id' ≠ "2"%string →
       find (has_id id') (collection (UpdateTransaction "2" update w).2)
       = find (has_id id') (collection w))
  ∧ ("2"%string ∉ Transaction.ID <$> collection w →
       collection (UpdateTransaction "2" update w).2 = collection w).
Proof.
  apply (UpdateTransaction_sets_one_record "2"
           [("category"%string, BString "Other")]
           (quiet_world two_user_ledger [])).
  reflexivity.
Defined.
(** ** The statistics of an archive *)

Section order_of_finite_floats.
Implicit Types (a b : Qc).

Lemma fle_Finite a b : fle (Finite a) (Finite b) = true ↔ (a ≤ b)%Qc.
Proof.
  unfold fle, flt, feqb. rewrite orb_true_iff, !bool_decide_eq_true. split.
  - intros [Hlt|[= ->]]; [by apply Qclt_le_weak | apply Qcle_refl].
  - intros [Hlt| ->]%Qcle_lt_or_eq; [by left | by right].
Qed.

Lemma fabs_Finite_nonneg a : ∃ b, fabs (Finite a) = Finite b ∧ (0 ≤ b)%Qc.
Proof.
  cbn [fabs]. eexists. split; [done|].
  case_decide as Ha; [done|]. qc_lra.
Qed.

(** The greater and the smaller of two finite numbers, as the scans
    [if amt > highest] and [if amt < lowest] keep them. *)
Lemma keep_greater a b :
  let r := if fgt (Finite a) (Finite b) then Finite a else Finite b in
  (r = Finite a ∨ r = Finite b) ∧ fle (Finite a) r = true ∧ fle (Finite b) r = true.
Proof.
  unfold fgt, flt. cbn zeta. case_bool_decide as Hlt; rewrite !fle_Finite.
  - split; [by left|]. split; [apply Qcle_refl | by apply Qclt_le_weak].
  - split; [by right|]. split; [by apply Qcnot_lt_le | apply Qcle_refl].
Qed.

Lemma keep_smaller a b :
  let r := if flt (Finite a) (Finite b) then Finite a else Finite b in
  (r = Finite a ∨ r = Finite b) ∧ fle r (Finite a) = true ∧ fle r (Finite b) = true.
Proof.
  unfold flt. cbn zeta. case_bool_decide as Hlt; rewrite !fle_Finite.
  - split; [by left|]. split; [apply Qcle_refl | by apply Qclt_le_weak].
  - split; [by right|]. split; [by apply Qcnot_lt_le | apply Qcle_refl].
Qed.

Lemma fle_trans_Finite x a y :
  fle x (Finite a) = true → fle (Finite a) y = true → fle x y = true.
Proof.
  destruct x as [b| | |], y as [c| | |]; try done.
  rewrite !fle_Finite. apply Qcle_trans.
Qed.
End order_of_finite_floats.

Section statistics.
Context `{Location}.
Implicit Types (w : World) (tx : Transaction.t) (txs : list Transaction.t).

(** What the scans of [ArchiveMonthlyData] have found after a ledger of
    finite amounts: the highest magnitude, which is zero before the first
    transaction, the lowest one, which is [math.MaxFloat64] before the
    first transaction, and the days seen. *)
Lemma stats_loop_scans txs :
  Forall (λ tx, finite_amount (Transaction.Amount tx)) txs →
  ∃ total highest lowest (days : gset string),
    stats_loop txs = (total, Finite highest, Finite lowest, days)
    ∧ (txs = [] → Finite highest = fzero ∧ Finite lowest = MaxFloat64)
    ∧ (txs ≠ [] →
         Finite highest ∈ magnitudes txs ∧ Finite lowest ∈ magnitudes txs)
    ∧ (∀ m, m ∈ magnitudes txs →
         fle (Finite lowest) m = true ∧ fle m (Finite highest) = true)
    ∧ (size days ≤ length txs)%nat
    ∧ (txs ≠ [] → size days ≠ 0%nat).
Proof.
  induction txs as [|tx txs IH] using rev_ind; intros Hfin.
  - eexists _, _, _, _. split; [reflexivity|].
    split; [done|]. split; [done|].
    split; [by intros m ?%elem_of_nil|]. split; [|done].
    by rewrite size_empty.
  - rewrite Forall_app, Forall_singleton in Hfin. destruct Hfin as [Hfin Htx].
    destruct (IH Hfin) as
      (total & highest & lowest & days & Hrun & Hnil & Hcons & Hbounds & Hdays & Hne).
    unfold stats_loop in Hrun |- *. rewrite fold_left_app, Hrun.
    cbn [fold_left stats_step]. unfold magnitudes in *.
    destruct Htx as (q & Hq & Hmax). rewrite Hq in Hmax |- *.
    destruct (fabs_Finite_nonneg q) as (a & Ha & Hpos). rewrite Ha in Hmax |- *.
    pose proof (keep_greater a highest) as (Hhi & Hhi1 & Hhi2).
    pose proof (keep_smaller a lowest) as (Hlo & Hlo1 & Hlo2).
    cbn zeta in Hhi, Hhi1, Hhi2, Hlo, Hlo1, Hlo2.
    assert (∃ hi, (if fgt (Finite a) (Finite highest) then Finite a
                   else Finite highest) = Finite hi) as [hi Ehi]
      by (destruct (fgt _ _); by eexists).
    assert (∃ lo, (if flt (Finite a) (Finite lowest) then Finite a
                   else Finite lowest) = Finite lo) as [lo Elo]
      by (destruct (flt _ _); by eexists).
    rewrite Ehi in Hhi, Hhi1, Hhi2. rewrite Elo in Hlo, Hlo1, Hlo2.
    rewrite Ehi, Elo. eexists _, hi, lo, _. split; [reflexivity|].
    split; [by intros ?%app_nil_r_inv%eq_sym%app_cons_not_nil ||
            (intros E; by destruct txs)|].
    rewrite fmap_app, fmap_cons, fmap_nil, Hq, Ha.
    split; [intros _; split|split; [|split]].
    + apply elem_of_app. destruct Hhi as [->|E]; [right; apply list_elem_of_here|].
      destruct txs as [|tx0 txs0].
      * right. destruct (Hnil eq_refl) as [E0 _]. unfold fzero in E0.
        assert (highest = 0%Qc) as -> by congruence.
        assert (hi = 0%Qc) as -> by congruence.
        apply fle_Finite in Hhi1.
        assert (a = 0%Qc) as -> by (by apply Qcle_antisym).
        apply list_elem_of_here.
      * left. rewrite E. by apply Hcons.
    + apply elem_of_app. destruct Hlo as [->|E]; [right; apply list_elem_of_here|].
      destruct txs as [|tx0 txs0].
      * right. destruct (Hnil eq_refl) as [_ E0].
        assert (Finite lo = MaxFloat64) as Elo' by congruence.
        rewrite Elo' in Hlo1.
        assert (Finite a = MaxFloat64) as ->; [|rewrite Elo'; apply list_elem_of_here].
        unfold MaxFloat64, float64_of_Z in *. f_equal.
        apply fle_Finite in Hmax, Hlo1. by apply Qcle_antisym.
      * left. rewrite E. by apply Hcons.
    + intros m [Hm| ->%list_elem_of_singleton]%elem_of_app.
      * destruct (Hbounds m Hm) as [Hl Hh]. split.
        -- by apply (fle_trans_Finite _ lowest).
        -- by apply (fle_trans_Finite _ highest).
      * done.
    + rewrite length_app. cbn [length].
      rewrite size_union_alt, size_singleton.
      assert (size (days ∖ {[Format_date (Transaction.CreatedAt tx)]}) ≤ size days)%nat
        by (apply subseteq_size; set_solver).
      lia.
    + intros _. apply size_non_empty_iff. set_solver.
Qed.

Lemma archive_record_fields txs balance ct ut clock :
  let a := archive_record txs balance ct ut clock in
  MonthlyArchive.Transactions a = txs
  ∧ MonthlyArchive.TotalTransactions a = len txs
  ∧ MonthlyArchive.AvgTransaction a
    = fdiv (MonthlyArchive.TotalSpent a) (float64_of_Z (len txs))
  ∧ MonthlyArchive.HighestTransaction a = (stats_loop txs).1.1.2
  ∧ MonthlyArchive.LowestTransaction a = (stats_loop txs).1.2
  ∧ MonthlyArchive.DaysWithSpending a = Z.of_nat (size (stats_loop txs).2)
  ∧ MonthlyArchive.Balance a = balance
  ∧ MonthlyArchive.CategoryTotals a = ct
  ∧ MonthlyArchive.ArchivedAt a = clock.
Proof.
  unfold archive_record.
  by destruct (stats_loop txs) as [[[total highest] lowest] days].
Qed.

(** X3.  In the archive of a ledger of finite amounts: the transactions
    are those of the ledger, in its order, and are counted; the total
    spent is the sum of the magnitudes of the amounts and the average is
    the total over the count; the highest and the lowest transaction are
    magnitudes of amounts of the ledger and bound all of them; the days
    with spending are at least one and at most one per transaction. *)
Theorem ArchiveMonthlyData_statistics w a :
  (ArchiveMonthlyData w).1 = Ok a →
  Forall (λ tx, finite_amount (Transaction.Amount tx)) (collection w) →
  MonthlyArchive.Transactions a = collection w
  ∧ MonthlyArchive.TotalTransactions a = len (collection w)
  ∧ MonthlyArchive.TotalSpent a = fsum (magnitudes (collection w))
  ∧ MonthlyArchive.AvgTransaction a
    = fdiv (MonthlyArchive.TotalSpent a) (float64_of_Z (len (collection w)))
  ∧ MonthlyArchive.HighestTransaction a ∈ magnitudes (collection w)
  ∧ MonthlyArchive.LowestTransaction a ∈ magnitudes (collection w)
  ∧ (∀ m, m ∈ magnitudes (collection w) →
       fle (MonthlyArchive.LowestTransaction a) m = true
       ∧ fle m (MonthlyArchive.HighestTransaction a) = true)
  ∧ 1 ≤ MonthlyArchive.DaysWithSpending a ≤ len (collection w).
Proof.
  intros (Hne & _ & _ & _ & ->)%ArchiveMonthlyData_Ok Hfin.
  unfold archive_of.
  match goal with
  | |- context [archive_record ?txs ?b ?ct ?ut ?clock] =>
      pose proof (archive_record_fields txs b ct ut clock) as
        (Htxs & Hcount & Havg & Hhi & Hlo & Hdays & _);
      pose proof (archive_record_TotalSpent txs b ct ut clock) as Htotal
  end.
  rewrite Htxs, Hcount, Havg, Hhi, Hlo, Hdays, Htotal, stats_loop_total.
  destruct (stats_loop_scans (collection w) Hfin) as
    (total & highest & lowest & days & -> & _ & Hcons & Hbounds & Hle & Hpos).
  cbn [fst snd]. destruct (Hcons Hne) as [Hh Hl].
  repeat (split; [done|]). specialize (Hpos Hne). unfold len. lia.
Qed.
End statistics.

(** The archive of the ledger of two users. *)
Lemma ArchiveMonthlyData_statistics_witness :
  match (@ArchiveMonthlyData UTC (quiet_world two_user_ledger [])).1 with
  | Ok a =>
      MonthlyArchive.HighestTransaction a ∈ magnitudes two_user_ledger
      ∧ MonthlyArchive.LowestTransaction a ∈ magnitudes two_user_ledger
      ∧ 1 ≤ MonthlyArchive.DaysWithSpending a ≤ 2
  | Err _ => False
  end.
Proof.
  destruct (@ArchiveMonthlyData UTC (quiet_world two_user_ledger [])).1
    as [a|e] eqn:Hok; [|vm_compute in Hok; discriminate Hok].
  destruct (@ArchiveMonthlyData_statistics UTC _ a Hok)
    as (_ & _ & _ & _ & Hhi & Hlo & _ & Hdays).
  - repeat constructor; eexists; (split; [reflexivity|by_computation]).
  - done.
Defined.

(** ** What the archive and the reset leave in the stores *)

Section archive_and_reset.
Context `{Location}.
Implicit Types (w : World).

(** X4.  [ArchiveMonthlyData] never changes the ledger, and when it
    returns an error it has not changed the archive store either. *)
Theorem ArchiveMonthlyData_error_changes_no_store w :
  collection (ArchiveMonthlyData w).2 = collection w
  ∧ ∀ e, (ArchiveMonthlyData w).1 = Err e →
      archiveCollection (ArchiveMonthlyData w).2 = archiveCollection w.
Proof.
  split; [apply ArchiveMonthlyData_collection|]. intros e Herr.
  destruct (ArchiveMonthlyData_archiveCollection_cases w) as [E|(a & Hok & _)];
    [done | congruence].
Qed.
End archive_and_reset.

(** ** Reading the archives *)

Section recent_archives.
Implicit Types (w : World) (a b : MonthlyArchive.t)
  (archives : list MonthlyArchive.t).

#[local] Instance archived_after_total : Total archived_after.
Proof. intros a b. unfold archived_after. lia. Qed.

#[local] Instance archived_after_trans : Transitive archived_after.
Proof. intros a b c. unfold archived_after. lia. Qed.

Lemma apply_limit_take {A} limit (l : list A) :
  ∃ n, apply_limit limit l = take n l
       ∧ (0 < limit → n = Z.to_nat limit)
       ∧ (limit ≤ 0 → apply_limit limit l = l).
Proof.
  unfold apply_limit. destruct (0 <? limit) eqn:E.
  - exists (Z.to_nat limit). split; [done|]. split; [done|]. lia.
  - exists (length l). rewrite firstn_all. split; [done|]. split; [lia|done].
Qed.

(** What [GetRecentArchives] returns: the first archives, as many as the
    limit allows, of the store put in order. *)
Lemma GetRecentArchives_Ok limit w archives :
  (GetRecentArchives limit w).1 = Ok archives →
  ∃ sorted,
    archives = apply_limit limit sorted
    ∧ StronglySorted archived_after sorted
    ∧ sorted ≡ₚ archiveCollection w.
Proof.
  rewrite GetRecentArchives_run. destruct (fault_at 0 w); [done|].
  cbn [fst]. intros [= <-]. eexists. split; [done|].
  split; [apply (StronglySorted_merge_sort _) | apply merge_sort_Permutation].
Qed.

(** X5.  The archives that [GetRecentArchives] returns are archives of the
    store, each of them once, the latest first; with a positive limit
    there are as many as the limit allows, and no archive left out is
    later than one returned; without a positive limit they are all the
    archives of the store, which is what [GetAllArchives] returns.  The
    stores are left as they were. *)
Theorem GetRecentArchives_latest_first limit w archives :
  (GetRecentArchives limit w).1 = Ok archives →
  StronglySorted archived_after archives
  ∧ archives ⊆+ archiveCollection w
  ∧ (0 < limit →
       length archives = Nat.min (Z.to_nat limit) (length (archiveCollection w)))
  ∧ (limit ≤ 0 →
       archives ≡ₚ archiveCollection w ∧ (GetAllArchives w).1 = Ok archives)
  ∧ (∃ others, archives ++ others ≡ₚ archiveCollection w
               ∧ ∀ a b, a ∈ archives → b ∈ others → archived_after a b)
  ∧ archiveCollection (GetRecentArchives limit w).2 = archiveCollection w
  ∧ collection (GetRecentArchives limit w).2 = collection w.
Proof.
  intros Hget.
  pose proof Hget as (sorted & Harchives & Hsorted & Hperm)%GetRecentArchives_Ok.
  destruct (apply_limit_take limit sorted) as (n & Htake & Hn & Hall).
  rewrite <- (take_drop n sorted) in Hsorted.
  split; [rewrite Harchives, Htake; by apply StronglySorted_app_1_l in Hsorted|].
  split; [rewrite Harchives, Htake, <- Hperm; apply sublist_submseteq, sublist_take|].
  split.
  { intros Hpos.
    by rewrite Harchives, Htake, length_take, (Hn Hpos), (Permutation_length Hperm). }
  split.
  { intros Hlimit. split; [by rewrite Harchives, (Hall Hlimit)|].
    unfold GetAllArchives. rewrite GetRecentArchives_run in Hget |- *.
    destruct (fault_at 0 w); [done|]. cbn [fst] in Hget |- *.
    rewrite <- Hget. unfold apply_limit.
    by rewrite (proj2 (Z.ltb_ge 0 limit)) by lia. }
  split.
  - exists (drop n sorted). rewrite Harchives, Htake. split; [by rewrite take_drop|].
    intros a b Ha Hb. by eapply StronglySorted_app_1_elem_of.
  - rewrite GetRecentArchives_run. by destruct (fault_at 0 w), w.
Qed.

Lemma elem_of_replace_upsert id d l b :
  b ∈ replace_upsert (archive_has_id id) d l → b = d ∨ b ∈ l.
Proof.
  unfold replace_upsert. destruct (existsb _ l).
  - induction l as [|x l IH]; cbn [update_first]; [by intros ?%elem_of_nil|].
    destruct (archive_has_id id x).
    + intros [->|Hb]%elem_of_cons; [by left | right; by apply list_elem_of_further].
    + intros [->|Hb]%elem_of_cons; [right; apply list_elem_of_here|].
      destruct (IH Hb) as [->|Hl]; [by left | right; by apply list_elem_of_further].
  - intros [Hb| ->%list_elem_of_singleton]%elem_of_app; [by right | by left].
Qed.

Lemma elem_of_replace_upsert_new id d l :
  MonthlyArchive.ID d = id → d ∈ replace_upsert (archive_has_id id) d l.
Proof.
  intros Hd. unfold replace_upsert. destruct (existsb _ l) eqn:Hex.
  - induction l as [|x l IH]; [done|]. cbn [existsb update_first] in *.
    destruct (archive_has_id id x); [apply list_elem_of_here|].
    apply list_elem_of_further. by apply IH.
  - apply elem_of_app. right. apply list_elem_of_here.
Qed.

Context `{Location}.

(** X6.  Just after an archive was made, at a time later than that of
    every archive of the store, it is the most recent archive: the one
    that [GetRecentArchives] returns under a limit of one. *)
Theorem ArchiveMonthlyData_then_GetRecentArchives w a :
  (ArchiveMonthlyData w).1 = Ok a →
  Forall (λ b, MonthlyArchive.ArchivedAt b < now w) (archiveCollection w) →
  fault_at 3 w = false →
  (GetRecentArchives 1 (ArchiveMonthlyData w).2).1 = Ok [a].
Proof.
  intros Hok Hearlier Hread.
  pose proof (ArchiveMonthlyData_archiveCollection w a Hok) as Hstore.
  pose proof Hok as (Hne & H0 & H1 & H2 & Ha)%ArchiveMonthlyData_Ok.
  assert (MonthlyArchive.ArchivedAt a = now w) as Hat.
  { rewrite Ha. unfold archive_of.
    match goal with
    | |- context [archive_record ?txs ?b ?ct ?ut ?clock] =>
        by pose proof (archive_record_fields txs b ct ut clock) as
          (_ & _ & _ & _ & _ & _ & _ & _ & ->)
    end. }
  assert (fault_at 0 (ArchiveMonthlyData w).2 = false) as Hread'.
  { rewrite ArchiveMonthlyData_run, H0, H1, H2. cbn zeta.
    rewrite len_eqb_0, bool_decide_eq_false_2 by done. cbn [snd].
    rewrite <- Hread. by destruct w as [c ac t n [|f0 [|f1 [|f2 f]]] o m]. }
  destruct (GetRecentArchives 1 (ArchiveMonthlyData w).2).1 as [archives|e] eqn:Hget.
  2:{ rewrite GetRecentArchives_run, Hread' in Hget. discriminate Hget. }
  destruct (GetRecentArchives_Ok _ _ _ Hget) as (sorted & -> & Hsorted & Hperm).
  rewrite Hstore in Hperm.
  assert (a ∈ sorted) as Hin
    by (rewrite Hperm; by apply elem_of_replace_upsert_new).
  destruct sorted as [|latest sorted]; [by apply elem_of_nil in Hin|].
  change (apply_limit 1 (latest :: sorted)) with [latest]. do 2 f_equal.
  assert (latest ∈ replace_upsert (archive_has_id (MonthlyArchive.ID a)) a
                     (archiveCollection w)) as Hlatest
    by (rewrite <- Hperm; apply list_elem_of_here).
  apply elem_of_replace_upsert in Hlatest as [->|Hold]; [done|].
  rewrite Forall_forall in Hearlier. specialize (Hearlier latest Hold).
  apply elem_of_cons in Hin as [->|Hin]; [done|].
  apply StronglySorted_inv in Hsorted as [_ Hafter].
  rewrite Forall_forall in Hafter. specialize (Hafter a Hin).
  unfold archived_after in Hafter. lia.
Qed.
End recent_archives.

(** The two most recent of three archives, and all of them. *)
Lemma GetRecentArchives_latest_first_witness :
  let january := archive_with "2025-01" 10 1738400400 in
  let february := archive_with "2025-02" 20 1740819600 in
  let march := archive_with "2025-03" 30 1743498000 in
  let w := set_archiveCollection [january; march; february] (quiet_world [] []) in
  let read limit archives :=
    StronglySorted archived_after archives
    ∧ archives ⊆+ archiveCollection w
    ∧ (0 < limit →
         length archives = Nat.min (Z.to_nat limit) (length (archiveCollection w)))
    ∧ (limit ≤ 0 →
         archives ≡ₚ archiveCollection w ∧ (GetAllArchives w).1 = Ok archives)
    ∧ (∃ others, archives ++ others ≡ₚ archiveCollection w
                 ∧ ∀ a b, a ∈ archives → b ∈ others → archived_after a b)
    ∧ archiveCollection (GetRecentArchives limit w).2 = archiveCollection w
    ∧ collection (GetRecentArchives limit w).2 = collection w in
  read 2 [march; february] ∧ read 0 [march; february; january].
Proof.
  intros january february march w read. split.
  - apply (GetRecentArchives_latest_first 2 w [march; february]). by_computation.
  - apply (GetRecentArchives_latest_first 0 w [march; february; january]).
    by_computation.
Defined.

(** The archive of the ledger of two users, made on 2025-01-01 in a store
    that holds the archive of the month before. *)
Lemma ArchiveMonthlyData_then_GetRecentArchives_witness :
  let w :=
    set_archiveCollection [archive_with "2024-12" 10 1733000000]
      (quiet_world two_user_ledger []) in
  match (@ArchiveMonthlyData UTC w).1 with
  | Ok a => (GetRecentArchives 1 (@ArchiveMonthlyData UTC w).2).1 = Ok [a]
  | Err _ => False
  end.
Proof.
  intros w.
  destruct (@ArchiveMonthlyData UTC w).1 as [a|e] eqn:Hok;
    [|vm_compute in Hok; discriminate Hok].
  apply (@ArchiveMonthlyData_then_GetRecentArchives UTC w a Hok);
    [repeat constructor | reflexivity].
Defined.
(** ** Amounts, keyboards and the order of the categories *)

Section amounts.
Implicit Types (s pre post : string).

Lemma append_String c s1 s2 : String c s1 +:+ s2 = String c (s1 +:+ s2).
Proof. done. Qed.

Lemma trim_left_blank pre s : blank pre = true → trim_left (pre +:+ s) = trim_left s.
Proof.
  induction pre as [|c pre IH]; [done|]. rewrite append_String.
  cbn [blank trim_left]. intros [-> Hpre]%andb_true_iff. by apply IH.
Qed.

Lemma trim_left_blank_all s : blank s = true → trim_left s = EmptyString.
Proof.
  induction s as [|c s IH]; [done|]. cbn [blank trim_left].
  intros [-> Hs]%andb_true_iff. by apply IH.
Qed.

Lemma trim_left_app s post :
  blank s = false → trim_left (s +:+ post) = trim_left s +:+ post.
Proof.
  induction s as [|c s IH]; [done|]. rewrite append_String.
  cbn [blank trim_left]. destruct (is_space c); [apply IH | done].
Qed.

Lemma list_ascii_of_string_app s1 s2 :
  list_ascii_of_string (s1 +:+ s2)
  = (list_ascii_of_string s1 ++ list_ascii_of_string s2)%list.
Proof.
  induction s1 as [|c s1 IH]; [done|]. rewrite append_String. cbn. by rewrite IH.
Qed.

Lemma string_of_list_ascii_app (l1 l2 : list ascii) :
  string_of_list_ascii (l1 ++ l2)
  = string_of_list_ascii l1 +:+ string_of_list_ascii l2.
Proof.
  induction l1 as [|c l1 IH]; [done|]. cbn. by rewrite IH, append_String.
Qed.

Lemma string_rev_app s1 s2 : string_rev (s1 +:+ s2) = string_rev s2 +:+ string_rev s1.
Proof.
  unfold string_rev.
  by rewrite list_ascii_of_string_app, rev_app_distr, string_of_list_ascii_app.
Qed.

Lemma blank_app s1 s2 : blank (s1 +:+ s2) = blank s1 && blank s2.
Proof.
  induction s1 as [|c s1 IH]; [done|]. rewrite append_String.
  cbn [blank]. by rewrite IH, andb_assoc.
Qed.

Lemma blank_string_rev s : blank (string_rev s) = blank s.
Proof.
  induction s as [|c s IH]; [done|].
  change (String c s) with (String c EmptyString +:+ s).
  rewrite string_rev_app, !blank_app, IH. apply andb_comm.
Qed.

Lemma TrimSpace_blank_around pre s post :
  blank pre = true → blank post = true →
  TrimSpace (pre +:+ s +:+ post) = TrimSpace s.
Proof.
  intros Hpre Hpost. unfold TrimSpace. rewrite trim_left_blank by done.
  destruct (blank s) eqn:Hs.
  - rewrite (trim_left_blank_all (s +:+ post)) by (by rewrite blank_app, Hs, Hpost).
    by rewrite (trim_left_blank_all s).
  - rewrite trim_left_app, string_rev_app by done.
    by rewrite trim_left_blank by (by rewrite blank_string_rev).
Qed.

(** X7.  White space before and after the text of an amount is ignored.
    An amount that [ValidateAmount] accepts is the number that the text
    denotes, white space aside, and is strictly positive or is not a
    number: no zero and no negative number is accepted.  A text that is
    refused is refused because it denotes no number, or because the number
    is zero or negative, with the error that says so. *)
Theorem ValidateAmount_accepts_positive_numbers pre text post :
  blank pre = true → blank post = true →
  ValidateAmount (pre +:+ text +:+ post) = ValidateAmount text
  ∧ match ValidateAmount text with
    | Ok amount =>
        ParseFloat (TrimSpace text) = Some amount
        ∧ (strictly_positive amount ∨ amount = NaN)
    | Err e =>
        (e = Errorf "invalid amount format" ∧ ParseFloat (TrimSpace text) = None)
        ∨ (e = Errorf "amount must be positive"
           ∧ ∃ x, ParseFloat (TrimSpace text) = Some x ∧ fle x fzero = true)
    end.
Proof.
  intros Hpre Hpost. split.
  { unfold ValidateAmount. by rewrite TrimSpace_blank_around. }
  destruct (ValidateAmount text) as [amount|e] eqn:Hv.
  - split; [by apply ValidateAmount_Ok in Hv as [? _]|].
    by apply ValidateAmount_Ok_cases in Hv.
  - unfold ValidateAmount in Hv.
    destruct (ParseFloat (TrimSpace text)) as [x|]; [|left; by inversion Hv].
    destruct (fle x fzero) eqn:Hle; [|done].
    right. split; [by inversion Hv|]. by exists x.
Qed.
End amounts.

(** An amount between a space and a line feed. *)
Lemma ValidateAmount_accepts_positive_numbers_witness :
  ValidateAmount (" " +:+ "25.50" +:+ String "010" "") = ValidateAmount "25.50"
  ∧ match ValidateAmount "25.50" with
    | Ok amount =>
        ParseFloat (TrimSpace "25.50") = Some amount
        ∧ (strictly_positive amount ∨ amount = NaN)
    | Err e =>
        (e = Errorf "invalid amount format" ∧ ParseFloat (TrimSpace "25.50") = None)
        ∨ (e = Errorf "amount must be positive"
           ∧ ∃ x, ParseFloat (TrimSpace "25.50") = Some x ∧ fle x fzero = true)
    end.
Proof.
  apply (ValidateAmount_accepts_positive_numbers " " "25.50" (String "010" ""));
    reflexivity.
Defined.

Section keyboards.
Implicit Types (categories : list string) (messageID : string).

Lemma category_rows_layout categories messageID :
  length (category_rows categories messageID) = Nat.div2 (S (length categories))
  ∧ concat (category_rows categories messageID)
    = category_button messageID <$> categories
  ∧ Forall (λ row, length row = 1%nat ∨ length row = 2%nat)
      (category_rows categories messageID).
Proof.
  assert (∀ n categories, (length categories ≤ n)%nat →
    length (category_rows categories messageID) = Nat.div2 (S (length categories))
    ∧ concat (category_rows categories messageID)
      = category_button messageID <$> categories
    ∧ Forall (λ row, length row = 1%nat ∨ length row = 2%nat)
        (category_rows categories messageID)) as Hall.
  { induction n as [|n IH]; intros [|c1 [|c2 rest]] Hn; cbn in Hn;
      try lia; try (by repeat split; repeat constructor; auto).
    destruct (IH rest ltac:(lia)) as (Hlen & Hcat & Hrows).
    cbn [category_rows]. split; [|split].
    - cbn [length]. rewrite Hlen. done.
    - cbn [concat app fmap list_fmap]. by rewrite Hcat.
    - constructor; [by right | done]. }
  by apply (Hall (length categories)).
Qed.

(** X8.  The keyboard has one row for every two categories, and one more
    for a category that is left alone, with the buttons of the categories
    in their order, each of them once, one or two to a row; its last row
    is the button that deletes the transaction. *)
Theorem BuildInlineKeyboard_layout categories messageID :
  ∃ rows,
    BuildInlineKeyboard categories messageID
    = rows ++ [[("🗑️ Delete Transaction"%string, "delete_" +:+ messageID)]]
    ∧ length rows = Nat.div2 (S (length categories))
    ∧ concat rows
      = (λ category, (category, "category_" +:+ category +:+ "_" +:+ messageID))
          <$> categories
    ∧ Forall (λ row, length row = 1%nat ∨ length row = 2%nat) rows.
Proof.
  exists (category_rows categories messageID). split; [done|].
  apply category_rows_layout.
Qed.
End keyboards.

Section exchange_sort.
Context {A : Type} (lt : A → A → bool) (key : A → Qc) (P : A → Prop).
Hypothesis lt_key : ∀ a b, P a → P b → lt a b = bool_decide (key a < key b)%Qc.

Lemma exchange_pass_permutation x rest :
  (exchange_pass lt x rest).1 :: (exchange_pass lt x rest).2 ≡ₚ x :: rest.
Proof.
  revert x. induction rest as [|y rest IH]; intros x; [done|].
  cbn [exchange_pass]. destruct (lt x y).
  - specialize (IH y). destruct (exchange_pass lt y rest) as [m r]. cbn [fst snd] in *.
    etrans; [apply Permutation_swap|]. by rewrite IH.
  - specialize (IH x). destruct (exchange_pass lt x rest) as [m r]. cbn [fst snd] in *.
    etrans; [apply Permutation_swap|]. rewrite IH. apply Permutation_swap.
Qed.

Lemma exchange_pass_greatest x rest :
  P x → Forall P rest →
  Forall (λ y, (key y ≤ key (exchange_pass lt x rest).1)%Qc)
    (x :: (exchange_pass lt x rest).2).
Proof.
  revert x. induction rest as [|y rest IH]; intros x Hx Hrest.
  - cbn. repeat constructor. apply Qcle_refl.
  - apply Forall_cons in Hrest as [Hy Hrest]. cbn [exchange_pass].
    rewrite (lt_key x y Hx Hy). case_bool_decide as Hlt.
    + specialize (IH y Hy Hrest).
      destruct (exchange_pass lt y rest) as [m r]. cbn [fst snd] in *.
      apply Forall_cons in IH as [Hym Hr].
      assert (key x ≤ key m)%Qc
        by (eapply Qcle_trans; [by apply Qclt_le_weak|done]).
      by repeat constructor.
    + specialize (IH x Hx Hrest).
      destruct (exchange_pass lt x rest) as [m r]. cbn [fst snd] in *.
      apply Forall_cons in IH as [Hxm Hr].
      assert (key y ≤ key m)%Qc
        by (eapply Qcle_trans; [by apply Qcnot_lt_le|done]).
      by repeat constructor.
Qed.

Lemma exchange_sort_aux_sorted n l :
  Forall P l →
  exchange_sort_aux lt n l ≡ₚ l
  ∧ ((length l ≤ n)%nat →
       StronglySorted (λ a b, (key b ≤ key a)%Qc) (exchange_sort_aux lt n l)).
Proof.
  revert l. induction n as [|n IH]; intros [|x rest] Hl;
    try (split; [done|]; cbn; intros; try lia; constructor).
  apply Forall_cons in Hl as [Hx Hrest]. cbn [exchange_sort_aux].
  pose proof (exchange_pass_permutation x rest) as Hperm.
  pose proof (exchange_pass_greatest x rest Hx Hrest) as Hmax.
  destruct (exchange_pass lt x rest) as [m r]. cbn [fst snd] in *.
  assert (Forall P r) as Hr.
  { assert (Forall P (m :: r)) as Hmr by (rewrite Hperm; by constructor).
    by apply Forall_cons in Hmr as [_ ?]. }
  destruct (IH r Hr) as [Hp Hs]. split; [by rewrite Hp|].
  cbn [length]. intros Hlen. constructor.
  - apply Hs. apply Permutation_length in Hperm. cbn [length] in Hperm. lia.
  - rewrite Hp. by apply Forall_cons in Hmax as [_ ?].
Qed.
End exchange_sort.

Lemma StronglySorted_weaken {A} (R R' : relation A) (P : A → Prop) l :
  Forall P l → StronglySorted R l →
  (∀ a b, P a → P b → R a b → R' a b) → StronglySorted R' l.
Proof.
  intros HP Hs Himpl. induction Hs as [|a l Hl IH Ha]; [constructor|].
  apply Forall_cons in HP as [Pa HP]. constructor; [by apply IH|].
  rewrite Forall_forall in Ha, HP |- *. intros b Hb. apply Himpl; auto.
Qed.

(** X9.  The nested loops that order the categories of a report leave the
    same categories, each of them as often as before, by decreasing
    amount, when the amounts are finite numbers. *)
Theorem exchange_sort_by_decreasing_amount (categories : list CategoryData) :
  Forall (λ c : CategoryData, ∃ q, c.1.2 = Finite q) categories →
  exchange_sort by_amount categories ≡ₚ categories
  ∧ StronglySorted (λ a b : CategoryData, fle b.1.2 a.1.2 = true)
      (exchange_sort by_amount categories).
Proof.
  intros Hfinite.
  set (key := λ c : CategoryData,
         match c.1.2 with Finite q => q | _ => 0%Qc end).
  destruct (exchange_sort_aux_sorted by_amount key
              (λ c : CategoryData, ∃ q, c.1.2 = Finite q)) with
    (n := length categories) (l := categories) as [Hperm Hsorted]; [|done|].
  { intros a b [qa Ha] [qb Hb]. unfold by_amount, key. by rewrite Ha, Hb. }
  split; [done|]. specialize (Hsorted ltac:(lia)).
  assert (Forall (λ c : CategoryData, ∃ q, c.1.2 = Finite q)
            (exchange_sort by_amount categories)) as Hfin'
    by (by unfold exchange_sort; rewrite Hperm).
  apply (StronglySorted_weaken _ _ _ _ Hfin' Hsorted).
  intros a b [qa Hqa] [qb Hqb]. unfold key. rewrite Hqa, Hqb.
  by intros ?%fle_Finite.
Qed.

(** Three categories, the largest one in the middle. *)
Lemma exchange_sort_by_decreasing_amount_witness :
  let categories : list CategoryData :=
    [("Other"%string, Finite (Q2Qc 5), Finite (Q2Qc 10));
     ("Groceries"%string, Finite (Q2Qc 30), Finite (Q2Qc 60));
     ("Household"%string, Finite (Q2Qc 15), Finite (Q2Qc 30))] in
  exchange_sort by_amount categories ≡ₚ categories
  ∧ StronglySorted (λ a b : CategoryData, fle b.1.2 a.1.2 = true)
      (exchange_sort by_amount categories).
Proof.
  intros categories. apply (exchange_sort_by_decreasing_amount categories).
  repeat constructor; by eexists.
Defined.
(** ** Computations that only read *)

Section quiet.
Implicit Types (w : World).

Lemma set_orders_set_orders o o' w : set_orders o (set_orders o' w) = set_orders o w.
Proof. done. Qed.

Lemma set_orders_same w : set_orders (orders w) w = w.
Proof. by destruct w. Qed.

Lemma quiet_ret {A} (a : A) : quiet (ret a).
Proof. intros w. exists (orders w). by rewrite set_orders_same. Qed.

Lemma quiet_bind {A B} (m : M A) (k : A → M B) :
  quiet m → (∀ a, quiet (k a)) → quiet (bind m k).
Proof.
  intros Hm Hk w. unfold bind. destruct (Hm w) as [o Ho].
  destruct (m w) as [a w1]. cbn [snd] in Ho. subst w1.
  destruct (Hk a (set_orders o w)) as [o' Ho']. exists o'.
  by rewrite Ho', set_orders_set_orders.
Qed.

Lemma quiet_range_keys m : quiet (range_keys m).
Proof. intros w. by exists (tl (orders w)). Qed.

Lemma quiet_range_items m : quiet (range_items m).
Proof.
  unfold range_items. apply quiet_bind; [apply quiet_range_keys|].
  intros keys. apply quiet_ret.
Qed.

Lemma quiet_time_Now : quiet time_Now.
Proof. intros w. exists (orders w). by rewrite set_orders_same. Qed.

Lemma keeps_stores_ret {A} (a : A) : keeps_stores (ret a).
Proof. by intros w. Qed.

Lemma keeps_stores_bind {A B} (m : M A) (k : A → M B) :
  keeps_stores m → (∀ a, keeps_stores (k a)) → keeps_stores (bind m k).
Proof.
  intros Hm Hk w. unfold bind. destruct (Hm w) as [Hc Ha].
  destruct (m w) as [a w1]. cbn [snd] in Hc, Ha.
  destruct (Hk a w1) as [Hc' Ha']. split; congruence.
Qed.

Lemma quiet_keeps_stores {A} (m : M A) : quiet m → keeps_stores m.
Proof. intros Hm w. destruct (Hm w) as [o ->]. by destruct w. Qed.

Lemma keeps_stores_bot_Send c : keeps_stores (bot_Send c).
Proof. intros w. rewrite bot_Send_run. by destruct (fault_at 0 w), w. Qed.

Lemma keeps_stores_GetAllTransactions : keeps_stores GetAllTransactions.
Proof. intros w. rewrite GetAllTransactions_run. by destruct (fault_at 0 w), w. Qed.

Lemma keeps_stores_CalculateTotals : keeps_stores CalculateTotals.
Proof. intros w. rewrite CalculateTotals_run. by destruct (fault_at 0 w), w. Qed.

End quiet.

(** Computations built from loops over maps and from pure values. *)
Ltac solve_quiet :=
  repeat first
    [ apply quiet_ret
    | apply quiet_range_keys
    | apply quiet_range_items
    | apply quiet_time_Now
    | apply quiet_bind; [|intros ?]
    | match goal with
      | |- quiet (if ?c then _ else _) => destruct c
      | |- quiet (match ?x with _ => _ end) => destruct x
      end
    | progress cbv zeta ].


(** ** The CSV files *)

Section csv_files.
Context `{Location}.
Implicit Types (w : World) (archive : MonthlyArchive.t)
  (archives : list MonthlyArchive.t).

Lemma quiet_GenerateMonthlyCSV archive : quiet (GenerateMonthlyCSV archive).
Proof. unfold GenerateMonthlyCSV. solve_quiet. Qed.

Lemma GenerateMonthlyCSV_Ok archive w :
  ∃ rows, (GenerateMonthlyCSV archive w).1 = Ok rows.
Proof.
  unfold GenerateMonthlyCSV, bind, time_Now, gets, ret.
  repeat match goal with
         | |- context [if ?c then _ else _] => destruct c
         | |- context [range_items ?m ?w] => destruct (range_items m w)
         end; by eexists.
Qed.

Lemma growth_cells_length metric archives :
  length (growth_cells metric archives) = pred (length archives).
Proof.
  induction archives as [|a [|b archives] IH]; [done..|].
  cbn [growth_cells length] in *. by rewrite IH.
Qed.

Lemma growth_header_length archives :
  length (growth_header archives) = pred (length archives).
Proof.
  induction archives as [|a [|b archives] IH]; [done..|].
  cbn [growth_header length] in *. by rewrite IH.
Qed.

(** X10.  [GenerateComparisonCSV] fails on an empty list of archives and
    on no other one.  The rows it writes are three rows of heading, then a
    table of eight rows that all have one cell more than there are
    archives: the row of the months and the seven rows of the metrics.
    For two archives or more there follow an empty row, a title, and a
    table of four rows that all have as many cells as there are archives:
    the row of the pairs of months and the three rows of growth rates,
    which come last. The world is left as it is. *)
Theorem GenerateComparisonCSV_tables archives w :
  (GenerateComparisonCSV archives w).2 = w
  ∧ match (GenerateComparisonCSV archives w).1 with
    | Err e => archives = [] ∧ e = Errorf "no archives provided for comparison"
    | Ok rows =>
        archives ≠ []
        ∧ ∃ heading table growth,
            rows = heading ++ table ++ growth
            ∧ length heading = 3%nat ∧ length table = 8%nat
            ∧ Forall (λ row, length row = S (length archives)) table
            ∧ if decide (length archives = 1%nat) then growth = []
              else ∃ months,
                     growth = [[]; [cell "GROWTH RATES (Month-over-Month)"]; months]
                              ++ growth_rows archives
                     ∧ Forall (λ row, length row = length archives)
                         (months :: growth_rows archives)
    end.
Proof.
  unfold GenerateComparisonCSV. rewrite len_eqb_0.
  case_bool_decide as Hempty; [done|].
  unfold bind, time_Now, gets, ret. cbn [fst snd]. split; [done|]. split; [done|].
  eexists [_; _; _],
    (_ :: ((λ metric, cell metric :: (metric_cell metric <$> archives))
             <$> summary_metrics)), _.
  split; [reflexivity|].
  split; [done|]. split; [cbn [length]; by rewrite length_fmap|]. split.
  - constructor; [cbn [length]; by rewrite length_fmap|].
    unfold summary_metrics. rewrite !fmap_cons, fmap_nil.
    repeat constructor; cbn [length]; by rewrite length_fmap.
  - destruct archives as [|a [|b archives]]; [done| |].
    + rewrite decide_True by done. reflexivity.
    + rewrite decide_False by done.
      replace (1 <? len (a :: b :: archives)) with true
        by (symmetry; apply Z.ltb_lt; unfold len; cbn [length]; lia).
      eexists. split; [reflexivity|].
      unfold growth_rows, growth_metrics. rewrite !fmap_cons, fmap_nil.
      repeat constructor; cbn [length];
        by rewrite ?growth_header_length, ?growth_cells_length.
Qed.

End csv_files.

(** ** The commands of the chat *)

Section commands_runs.
Context `{Location}.
Implicit Types (w : World) (h : Config) (archive : MonthlyArchive.t).

Lemma fault_at_nil n w : faults w = [] → fault_at n w = false.
Proof. unfold fault_at. intros ->. by destruct n. Qed.

(** The file that [safeExportCSV] sends and the message that goes with
    it. *)
Lemma safeExportCSV_run chatID archive w :
  ∃ rows o,
    (GenerateMonthlyCSV archive w) = (Ok rows, set_orders o w)
    ∧ let document :=
        NewDocument chatID
          [Lit "expenses_"; Lit (MonthlyArchive.MonthName archive); Lit "_";
           Int false (MonthlyArchive.Year archive); Lit ".csv"]
          rows
          [Lit "📊 Monthly expense data for "; Lit (MonthlyArchive.MonthName archive);
           Lit " "; Int false (MonthlyArchive.Year archive); Lit "\n💾 ";
           Int false (MonthlyArchive.TotalTransactions archive);
           Lit " transactions, ";
           Float 2 false (MonthlyArchive.TotalSpent archive); Lit "$ total"] in
      let w1 := (bot_Send document (set_orders o w)).2 in
      (safeExportCSV chatID archive w).2
      = if fault_at 0 w
        then (bot_Send
                (NewMessage chatID
                   [Lit "⚠️ Failed to send CSV file. Data is archived in database - use /export command later."]
                   "" None) w1).2
        else w1.
Proof.
  destruct (GenerateMonthlyCSV_Ok archive w) as [rows Hrows].
  destruct (quiet_GenerateMonthlyCSV archive w) as [o Ho].
  exists rows, o. unfold safeExportCSV, bind.
  destruct (GenerateMonthlyCSV archive w) as [r w1]. cbn [fst snd] in Hrows, Ho.
  subst r w1. split; [done|]. cbv zeta. rewrite bot_Send_run, fault_at_set_orders.
  destruct (fault_at 0 w); cbn [snd]; [|done].
  by destruct (bot_Send _ _).
Qed.

Lemma safeExportCSV_sends_the_file_stores chatID archive w :
  collection (safeExportCSV chatID archive w).2 = collection w
  ∧ archiveCollection (safeExportCSV chatID archive w).2 = archiveCollection w.
Proof.
  destruct (safeExportCSV_run chatID archive w) as (rows & o & Hrows & Hrun).
  cbv zeta in Hrun. rewrite Hrun, !bot_Send_run, fault_at_set_orders.
  destruct (fault_at 0 w) eqn:H0; cbn [snd].
  - rewrite fault_at_after_call, fault_at_set_orders.
    by destruct (fault_at 1 w), w.
  - by destruct w.
Qed.

(** The calls of [safeExportCSV]: the file of the archive, named after
    its month and its year, and, when that fails, one message that says
    so. *)
Lemma safeExportCSV_calls chatID archive w :
  ∃ rows caption,
    (GenerateMonthlyCSV archive w).1 = Ok rows
    ∧ trace (safeExportCSV chatID archive w).2
      = trace w
        ++ BotCall
             (NewDocument chatID
                [Lit "expenses_"; Lit (MonthlyArchive.MonthName archive); Lit "_";
                 Int false (MonthlyArchive.Year archive); Lit ".csv"]
                rows caption)
             (fault_at 0 w)
           :: (if fault_at 0 w
               then [BotCall
                       (NewMessage chatID
                          [Lit "⚠️ Failed to send CSV file. Data is archived in database - use /export command later."]
                          "" None)
                       (fault_at 1 w)]
               else []).
Proof.
  destruct (safeExportCSV_run chatID archive w) as (rows & o & Hrows & Hrun).
  exists rows. eexists. split; [by rewrite Hrows|]. cbv zeta in Hrun.
  rewrite Hrun, !bot_Send_run, fault_at_set_orders.
  destruct (fault_at 0 w) eqn:H0; cbn [snd].
  - rewrite fault_at_after_call, fault_at_set_orders.
    destruct (fault_at 1 w), w; cbn; by rewrite <- app_assoc.
  - by destruct w.
Qed.

Lemma quiet_monthly_report archived balance totalSpent ct ut txs n :
  quiet (monthly_report archived balance totalSpent ct ut txs n).
Proof. unfold monthly_report. solve_quiet. Qed.

(** X12.  With fewer than two archives, or when the archives cannot be
    read, [SendMonthlyComparison] reads the archives once and sends one
    notice: that there is no archive, or that there is only one.  It
    changes neither store. *)
Theorem SendMonthlyComparison_needs_two_archives chatID w :
  fault_at 0 w = true ∨ (length (archiveCollection w) < 2)%nat →
  trace (SendMonthlyComparison chatID w).2
  = trace w
    ++ [StoreCall (FindArchives 3) (fault_at 0 w);
        BotCall
          (NewMessage chatID
             (if fault_at 0 w || bool_decide (archiveCollection w = [])
              then [Lit "❌ No archived months found for comparison.\nUse the bot for a month and wait for monthly reset to generate archives."]
              else [Lit "📊 Only one month archived. Need at least 2 months for comparison.\nCheck back after next monthly reset!"])
             "" None)
          (fault_at 1 w)]
  ∧ collection (SendMonthlyComparison chatID w).2 = collection w
  ∧ archiveCollection (SendMonthlyComparison chatID w).2 = archiveCollection w.
Proof.
  intros Hfew. unfold SendMonthlyComparison, bind.
  rewrite GetRecentArchives_run.
  destruct (fault_at 0 w) eqn:H0; cbn [orb].
  - rewrite bot_Send_run, fault_at_after_call.
    destruct (fault_at 1 w), w; cbn; by rewrite <- app_assoc.
  - destruct Hfew as [[=]|Hfew].
    destruct (archiveCollection w) as [|a [|b archives]] eqn:Hstore;
      [| |cbn in Hfew; lia].
    + rewrite bool_decide_eq_true_2 by done.
      change (apply_limit 3 (merge_sort archived_after [])) with (@nil MonthlyArchive.t).
      cbv beta iota.
      rewrite bot_Send_run, fault_at_after_call.
      destruct (fault_at 1 w), w; cbn in *; subst; by rewrite <- app_assoc.
    + rewrite bool_decide_eq_false_2 by done.
      change (apply_limit 3 (merge_sort archived_after [a])) with [a].
      cbv beta iota.
      rewrite bot_Send_run, fault_at_after_call.
      destruct (fault_at 1 w), w; cbn in *; subst; by rewrite <- app_assoc.
Qed.
End commands_runs.

(** A comparison asked when nothing was archived yet. *)
Lemma SendMonthlyComparison_needs_two_archives_witness :
  let w := quiet_world two_user_ledger [] in
  trace (SendMonthlyComparison 1 w).2
  = trace w
    ++ [StoreCall (FindArchives 3) (fault_at 0 w);
        BotCall
          (NewMessage 1
             (if fault_at 0 w || bool_decide (archiveCollection w = [])
              then [Lit "❌ No archived months found for comparison.\nUse the bot for a month and wait for monthly reset to generate archives."]
              else [Lit "📊 Only one month archived. Need at least 2 months for comparison.\nCheck back after next monthly reset!"])
             "" None)
          (fault_at 1 w)]
  ∧ collection (SendMonthlyComparison 1 w).2 = collection w
  ∧ archiveCollection (SendMonthlyComparison 1 w).2 = archiveCollection w.
Proof.
  apply (SendMonthlyComparison_needs_two_archives 1 (quiet_world two_user_ledger [])).
  right. cbn. lia.
Defined.
(** ** The monthly close, from the archive to the reset *)

Section monthly_close_runs.
Context `{Location}.
Implicit Types (w : World) (h : Config).

Lemma faults_after_call e w : faults (after_call e w) = tl (faults w).
Proof. by destruct w. Qed.

Lemma keeps_stores_safeExportCSV chatID archive :
  keeps_stores (safeExportCSV chatID archive).
Proof.
  intros w.
  destruct (safeExportCSV_sends_the_file_stores chatID archive w) as [? ?].
  done.
Qed.

Lemma keeps_stores_report_data archive : keeps_stores (report_data archive).
Proof.
  unfold report_data. destruct archive; [apply keeps_stores_ret|].
  apply keeps_stores_bind; [apply keeps_stores_CalculateTotals|].
  intros [[[balance ct] ut]|e]; [|apply keeps_stores_ret].
  apply keeps_stores_bind; [apply keeps_stores_GetAllTransactions|]. intros r.
  cbv zeta. apply keeps_stores_bind; [|intros; apply keeps_stores_ret].
  apply quiet_keeps_stores, quiet_range_items.
Qed.

(** X13.  [MonthlyReset] leaves the ledger as it was or empty, and the
    archive store as the archive of the month left it: it changes no
    transaction, and no archive but the one of the month. *)
Theorem MonthlyReset_clears_or_keeps_the_ledger h w :
  (collection (MonthlyReset h w).2 = collection w
   ∨ collection (MonthlyReset h w).2 = [])
  ∧ archiveCollection (MonthlyReset h w).2
    = archiveCollection (ArchiveMonthlyData w).2.
Proof.
  unfold MonthlyReset, bind. rewrite safeArchiveData_run.
  pose proof (ArchiveMonthlyData_collection w) as Hc0.
  destruct (ArchiveMonthlyData w) as [r w1]. cbn [fst snd] in *.
  set (archive := (match r with Ok a => (Some a, None) | Err e => _ end).1).
  clearbody archive.
  pose proof (keeps_stores_report_data archive w1) as [Hc1 Ha1].
  destruct (report_data archive w1) as [[data|] w2]; cbn [fst snd] in *;
    [|unfold ret; cbn [snd]; split; [left|]; congruence].
  destruct data as [[[[[balance totalSpent] ct] ut] txs] n].
  pose proof (quiet_keeps_stores _ (quiet_monthly_report (bool_decide (is_Some archive))
                balance totalSpent ct ut txs n) w2) as [Hc2 Ha2].
  destruct (monthly_report _ _ _ _ _ _ _ w2) as [monthlyText w3].
  cbn [fst snd] in *.
  pose proof (keeps_stores_bot_Send
                (NewMessage (ChatID h) monthlyText "Markdown" None) w3) as [Hc3 Ha3].
  destruct (bot_Send _ w3) as [sent w4]. cbn [fst snd] in *.
  assert (∃ w5, (match archive with
                 | Some a => safeExportCSV (ChatID h) a
                 | None => ret tt
                 end w4) = (tt, w5)
                ∧ collection w5 = collection w4
                ∧ archiveCollection w5 = archiveCollection w4) as (w5 & -> & Hc4 & Ha4).
  { destruct archive as [a|]; [|by exists w4].
    pose proof (keeps_stores_safeExportCSV (ChatID h) a w4) as [Hc4 Ha4].
    destruct (safeExportCSV (ChatID h) a w4) as [[] w5]. by exists w5. }
  rewrite DeleteAllTransactions_run. destruct (fault_at 0 w5).
  - match goal with
    | |- context [bot_Send ?c ?w6] =>
        pose proof (keeps_stores_bot_Send c w6) as [Hc5 Ha5];
        destruct (bot_Send c w6) as [sent' w7]
    end.
    cbn [fst snd] in *. unfold ret. cbn [snd]. rewrite Hc5, Ha5.
    split; [left|]; destruct w5; cbn in *; congruence.
  - unfold ret. cbn [snd]. split; [by right|]. destruct w5; cbn in *; congruence.
Qed.

Lemma safeExportCSV_sent chatID archive w :
  fault_at 0 w = false →
  ∃ name rows caption o,
    safeExportCSV chatID archive w
    = (tt, set_next_message_id (next_message_id w + 1)
             (after_call (BotCall (NewDocument chatID name rows caption) false)
                (set_orders o w))).
Proof.
  intros Hsend.
  destruct (GenerateMonthlyCSV_Ok archive w) as [rows Hrows].
  destruct (quiet_GenerateMonthlyCSV archive w) as [o Ho].
  unfold safeExportCSV, bind.
  destruct (GenerateMonthlyCSV archive w) as [r w1]. cbn [fst snd] in Hrows, Ho.
  subst r w1. cbv zeta. rewrite bot_Send_run, fault_at_set_orders, Hsend.
  by eexists _, rows, _, o.
Qed.

(** The world after a monthly close in which no call fails. *)
Lemma MonthlyReset_run_quiet h w :
  collection w ≠ [] → faults w = [] →
  let a := archive_of (collection w) (now w) (hd 0%nat (orders w)) in
  ∃ report name rows caption o,
    MonthlyReset h w
    = (tt,
       set_collection []
         (after_call (StoreCall DeleteMany false)
            (set_next_message_id (next_message_id w + 1 + 1)
               (after_call (BotCall (NewDocument (ChatID h) name rows caption) false)
                  (after_call
                     (BotCall (NewMessage (ChatID h) report "Markdown" None) false)
                     (set_archiveCollection
                        (replace_upsert (archive_has_id (Format_month (now w))) a
                           (archiveCollection w))
                        (after_call
                           (StoreCall (ReplaceOne (Format_month (now w)) a) false)
                           (set_orders o
                              (after_call (StoreCall Find false)
                                 (after_call (StoreCall Find false) w)))))))))).
Proof.
  intros Hne Hquiet a.
  unfold MonthlyReset, bind. rewrite safeArchiveData_run, ArchiveMonthlyData_run.
  rewrite !fault_at_nil by done. cbn zeta.
  rewrite len_eqb_0, bool_decide_eq_false_2 by done.
  rewrite archive_of_ID. fold a. cbn [fst snd report_data]. unfold ret at 1.
  match goal with
  | |- context [monthly_report ?x1 ?x2 ?x3 ?x4 ?x5 ?x6 ?x7 ?w1] =>
      destruct (quiet_monthly_report x1 x2 x3 x4 x5 x6 x7 w1) as [o Ho];
      destruct (monthly_report x1 x2 x3 x4 x5 x6 x7 w1) as [report w2]
  end.
  cbn [snd] in Ho. subst w2. rewrite bot_Send_run.
  rewrite fault_at_nil by (world_simpl; by rewrite Hquiet).
  match goal with
  | |- context [safeExportCSV ?c a ?w3] =>
      destruct (safeExportCSV_sent c a w3) as (name & rows & caption & o' & ->);
        [apply fault_at_nil; world_simpl; by rewrite Hquiet|]
  end.
  rewrite DeleteAllTransactions_run.
  rewrite fault_at_nil by (world_simpl; by rewrite Hquiet).
  exists report, name, rows, caption, o'. unfold ret. by destruct w.
Qed.

(** X14.  When no call fails, the monthly close of a ledger that is not
    empty reads the ledger twice, writes the archive of the ledger under
    the identifier of the month, sends the report, sends the file of the
    archive, and deletes the transactions, in this order: the ledger is
    empty afterwards, and its transactions are in the archive. *)
Theorem MonthlyReset_archives_then_clears h w :
  collection w ≠ [] → faults w = [] →
  let a := archive_of (collection w) (now w) (hd 0%nat (orders w)) in
  ∃ report name rows caption,
    trace (MonthlyReset h w).2
    = trace w
      ++ [StoreCall Find false; StoreCall Find false;
          StoreCall (ReplaceOne (Format_month (now w)) a) false;
          BotCall (NewMessage (ChatID h) report "Markdown" None) false;
          BotCall (NewDocument (ChatID h) name rows caption) false;
          StoreCall DeleteMany false]
    ∧ collection (MonthlyReset h w).2 = []
    ∧ archiveCollection (MonthlyReset h w).2
      = replace_upsert (archive_has_id (Format_month (now w))) a (archiveCollection w)
    ∧ MonthlyArchive.Transactions a = collection w.
Proof.
  intros Hne Hquiet a.
  destruct (MonthlyReset_run_quiet h w Hne Hquiet)
    as (report & name & rows & caption & o & ->).
  exists report, name, rows, caption. fold a. cbn [snd].
  split; [destruct w; cbn; by rewrite <- !app_assoc|].
  split; [done|]. split; [by destruct w|].
  unfold a, archive_of.
  match goal with
  | |- context [archive_record ?txs ?b ?ct ?ut ?clock] =>
      by pose proof (archive_record_fields txs b ct ut clock) as [-> _]
  end.
Qed.

(** X15.  The monthly close of an empty ledger, when no call fails: no
    archive is written; the ledger is read three times, once for the
    archive and twice for the report; the report says that there was no
    transaction, and that the archive failed; the deletion is still made.
    *)
Theorem MonthlyReset_empty_month h w :
  collection w = [] → faults w = [] →
  trace (MonthlyReset h w).2
  = trace w
    ++ [StoreCall Find false; StoreCall Find false; StoreCall Find false;
        BotCall
          (NewMessage (ChatID h)
             [Lit "📅 **MONTHLY EXPENSE REPORT**\n";
              Lit "════════════════════════════\n\n";
              Lit "❌ No transactions this month\n";
              Lit "\n🔄 **Starting fresh for next month!**\n";
              Lit "Transactions cleared (archive failed)."]
             "Markdown" None)
          false;
        StoreCall DeleteMany false]
  ∧ collection (MonthlyReset h w).2 = []
  ∧ archiveCollection (MonthlyReset h w).2 = archiveCollection w.
Proof.
  intros Hempty Hquiet.
  assert (∃ o,
    MonthlyReset h w
    = (tt,
       set_collection []
         (after_call (StoreCall DeleteMany false)
            (set_next_message_id (next_message_id w + 1)
               (after_call
                  (BotCall
                     (NewMessage (ChatID h)
                        [Lit "📅 **MONTHLY EXPENSE REPORT**\n";
                         Lit "════════════════════════════\n\n";
                         Lit "❌ No transactions this month\n";
                         Lit "\n🔄 **Starting fresh for next month!**\n";
                         Lit "Transactions cleared (archive failed)."]
                        "Markdown" None)
                     false)
                  (set_orders o
                     (after_call (StoreCall Find false)
                        (after_call (StoreCall Find false)
                           (after_call (StoreCall Find false) w)))))))))
    as [o ->].
  { unfold MonthlyReset, bind. rewrite safeArchiveData_run, ArchiveMonthlyData_run.
    rewrite !fault_at_nil by done. cbn zeta.
    rewrite len_eqb_0, bool_decide_eq_true_2 by done.
    cbn [fst snd report_data]. unfold bind.
    rewrite CalculateTotals_run.
    rewrite fault_at_nil by (world_simpl; by rewrite Hquiet).
    cbn zeta. cbv beta iota. rewrite GetAllTransactions_run.
    rewrite fault_at_nil by (world_simpl; by rewrite Hquiet).
    match goal with
    | |- context [range_items ?m ?w1] =>
        destruct (quiet_range_items m w1) as [o Ho];
        destruct (range_items m w1) as [items w2]
    end.
    cbn [snd] in Ho. subst w2. unfold ret at 1. cbv beta iota.
    replace (len (collection _)) with 0 by (world_simpl; by rewrite Hempty).
    unfold monthly_report, bind, ret. cbn [Z.eqb]. cbv beta iota zeta.
    rewrite bool_decide_eq_false_2 by (by intros [? [=]]).
    rewrite bot_Send_run.
    rewrite fault_at_nil by (world_simpl; by rewrite Hquiet).
    rewrite DeleteAllTransactions_run.
    rewrite fault_at_nil by (world_simpl; by rewrite Hquiet).
    exists o. by destruct w. }
  cbn [snd]. destruct w; cbn. by rewrite <- !app_assoc.
Qed.
End monthly_close_runs.

(** The monthly close of the ledger of two users. *)
Lemma MonthlyReset_archives_then_clears_witness :
  let w := quiet_world two_user_ledger [] in
  let a := @archive_of UTC (collection w) (now w) (hd 0%nat (orders w)) in
  ∃ report name rows caption,
    trace (@MonthlyReset UTC example_config w).2
    = trace w
      ++ [StoreCall Find false; StoreCall Find false;
          StoreCall (ReplaceOne (@Format_month UTC (now w)) a) false;
          BotCall (NewMessage (ChatID example_config) report "Markdown" None) false;
          BotCall (NewDocument (ChatID example_config) name rows caption) false;
          StoreCall DeleteMany false]
    ∧ collection (@MonthlyReset UTC example_config w).2 = []
    ∧ archiveCollection (@MonthlyReset UTC example_config w).2
      = replace_upsert (archive_has_id (@Format_month UTC (now w))) a
          (archiveCollection w)
    ∧ MonthlyArchive.Transactions a = collection w.
Proof.
  apply (@MonthlyReset_archives_then_clears UTC example_config
           (quiet_world two_user_ledger [])); [discriminate | reflexivity].
Defined.

(** The monthly close of an empty ledger. *)
Lemma MonthlyReset_empty_month_witness :
  let w := quiet_world [] [] in
  trace (@MonthlyReset UTC example_config w).2
  = trace w
    ++ [StoreCall Find false; StoreCall Find false; StoreCall Find false;
        BotCall
          (NewMessage (ChatID example_config)
             [Lit "📅 **MONTHLY EXPENSE REPORT**\n";
              Lit "════════════════════════════\n\n";
              Lit "❌ No transactions this month\n";
              Lit "\n🔄 **Starting fresh for next month!**\n";
              Lit "Transactions cleared (archive failed)."]
             "Markdown" None)
          false;
        StoreCall DeleteMany false]
  ∧ collection (@MonthlyReset UTC example_config w).2 = []
  ∧ archiveCollection (@MonthlyReset UTC example_config w).2 = archiveCollection w.
Proof.
  apply (@MonthlyReset_empty_month UTC example_config (quiet_world [] []));
    reflexivity.
Defined.
(** ** Identifiers written as decimal strings and read back *)

Section decimal_strings.

Lemma digit_of_pretty_N_char r :
  (r < 10)%N →
  is_digit (pretty_N_char r) = true ∧ digit_value (pretty_N_char r) = Z.of_N r.
Proof.
  intros Hr.
  assert (r = 0 ∨ r = 1 ∨ r = 2 ∨ r = 3 ∨ r = 4 ∨ r = 5 ∨ r = 6 ∨ r = 7
          ∨ r = 8 ∨ r = 9)%N as Hcases by lia.
  repeat destruct Hcases as [->|Hcases]; try subst r; by compute.
Qed.

Lemma read_digits_pretty_N_go x s acc count :
  ∃ k, 0 ≤ k ∧ ((0 < x)%N → 0 < k)
       ∧ read_digits (pretty_N_go x s) acc count
         = read_digits s (acc * 10 ^ k + Z.of_N x) (count + k).
Proof.
  revert s acc count. induction (N.lt_wf_0 x) as [x _ IH]; intros s acc count.
  assert (x = 0 ∨ 0 < x)%N as [->|Hx] by lia.
  - exists 0. rewrite pretty_N_go_0. split; [done|]. split; [lia|].
    f_equal; lia.
  - rewrite pretty_N_go_step by done.
    destruct (IH (x `div` 10)%N ltac:(by apply N.div_lt)
                (String (pretty_N_char (x `mod` 10)) s) acc count)
      as (k & Hk & _ & ->).
    destruct (digit_of_pretty_N_char (x `mod` 10)%N) as [Hdigit Hvalue];
      [by apply N.mod_lt|].
    cbn [read_digits]. rewrite Hdigit, Hvalue.
    exists (k + 1). split; [lia|]. split; [lia|].
    f_equal; [|lia].
    rewrite Z.pow_add_r, Z.pow_1_r by lia.
    rewrite (N.div_mod x 10) at 3 by done. lia.
Qed.

Lemma pretty_N_go_digit x s :
  (0 < x)%N → ∃ c rest, pretty_N_go x s = String c rest ∧ is_digit c = true.
Proof.
  revert s. induction (N.lt_wf_0 x) as [x _ IH]; intros s Hx.
  rewrite pretty_N_go_step by done.
  destruct (N.eq_0_gt_0_cases (x `div` 10)) as [->|Hdiv].
  - rewrite pretty_N_go_0. eexists _, _. split; [done|].
    by apply digit_of_pretty_N_char, N.mod_lt.
  - apply IH; [by apply N.div_lt | done].
Qed.

Lemma read_sign_digit c rest :
  is_digit c = true → read_sign (String c rest) = (false, String c rest).
Proof.
  intros Hc. unfold read_sign.
  destruct c as [[] [] [] [] [] [] [] []]; try done.
Qed.

Lemma Atoi_pretty_positive (p : positive) (negative : bool) :
  let s := pretty (Npos p) in
  (let '(n, count, rest) := read_digits s 0 0 in
   if (count =? 0) || negb (bool_decide (rest = EmptyString)) then 0
   else if negative then - n else n)
  = if negative then Z.neg p else Z.pos p.
Proof.
  cbn zeta. unfold pretty, pretty_N. rewrite decide_False by done.
  destruct (read_digits_pretty_N_go (Npos p) "" 0 0) as (k & Hk & Hpos & ->).
  cbn [read_digits]. specialize (Hpos ltac:(lia)).
  replace (0 + k =? 0) with false by (symmetry; apply Z.eqb_neq; lia).
  rewrite bool_decide_eq_true_2 by done. cbn [orb negb].
  destruct negative; cbn; lia.
Qed.

(** [strconv.Atoi] reads back the number that [strconv.Itoa] wrote. *)
Lemma Atoi_Itoa (n : Z) : Atoi (Itoa n) = n.
Proof.
  unfold Atoi, Itoa. destruct n as [|p|p]; [done| |].
  - change (pretty (Z.pos p)) with (pretty (Npos p)).
    destruct (pretty_N_go_digit (Npos p) "" ltac:(lia)) as (c & rest & Hs & Hc).
    assert (pretty (Npos p) = String c rest) as Hpretty.
    { unfold pretty, pretty_N. by rewrite decide_False. }
    rewrite Hpretty, read_sign_digit, <- Hpretty by done.
    apply (Atoi_pretty_positive p false).
  - change (pretty (Z.neg p)) with ("-" +:+ pretty (Npos p)).
    change (read_sign ("-" +:+ pretty (Npos p))) with (true, pretty (Npos p)).
    apply (Atoi_pretty_positive p true).
Qed.
End decimal_strings.
(** ** An amount reported, and its message edited *)

Section reported_amounts.
Implicit Types (w : World) (h : Config) (message : Message).

(** The world after the steps of [handleNewTransaction] for an amount that
    passes the validation, by the outcome of the calls. *)
Lemma handleNewTransaction_run h message w amount :
  ValidateAmount (Text message) = Ok amount →
  let id := Itoa (MessageID message) in
  let doc :=
    Transaction.mk id amount (From_UserName message) "" "" "" (now w) in
  let prompt :=
    NewMessage (Chat_ID message) select_a_category ""
      (Some (BuildInlineKeyboard (Categories h) id)) in
  let update := [("buttonMessageId"%string, BString (Itoa (next_message_id w)))] in
  (handleNewTransaction h message w).2
  = if fault_at 0 w || existsb (has_id id) (collection w) then
      (bot_Send
         (NewMessage (Chat_ID message) [Lit "Failed to save transaction in DB."] "" None)
         (after_call (StoreCall (InsertOne doc) true) w)).2
    else
      let w1 :=
        set_collection (collection w ++ [doc])
          (after_call (StoreCall (InsertOne doc) false) w) in
      if fault_at 1 w then after_call (BotCall prompt true) w1
      else
        (UpdateTransaction id update
           (set_next_message_id (next_message_id w + 1)
              (after_call (BotCall prompt false) w1))).2.
Proof.
  intros Hv. cbn zeta. unfold handleNewTransaction, bind. rewrite Hv.
  rewrite InsertTransaction_run. cbn zeta. cbn [Transaction.ID].
  unfold with_CreatedAt. cbn [Transaction.ID Transaction.Amount Transaction.Author
    Transaction.Category Transaction.ButtonMessageID
    Transaction.ConfirmationMessageID].
  destruct (fault_at 0 w || _) eqn:Hins.
  - by destruct (bot_Send _ _).
  - unfold sendCategorySelection, bind. rewrite bot_Send_run.
    replace (fault_at 0 (set_collection _ _)) with (fault_at 1 w) by (by destruct w).
    destruct (fault_at 1 w); [done|]. cbv beta iota zeta.
    replace (next_message_id (set_collection _ _)) with (next_message_id w)
      by (by destruct w).
    by destruct (UpdateTransaction _ _ _).
Qed.

(** X16.  An amount that passes the validation, reported in a message
    whose number is not that of a record of the ledger, when the insertion
    succeeds: the record is added at the end of the ledger, under the
    number of the message, with the amount, the author and the time, and
    no category; the keyboard of the categories is sent; and when the
    keyboard was sent, the number of its message is written in the record,
    unless that update fails. *)
Theorem handleNewTransaction_records_the_amount h message w amount :
  ValidateAmount (Text message) = Ok amount →
  fault_at 0 w = false →
  Itoa (MessageID message) ∉ Transaction.ID <$> collection w →
  let id := Itoa (MessageID message) in
  let prompt :=
    NewMessage (Chat_ID message) [Lit "Select a category:"] ""
      (Some (BuildInlineKeyboard (Categories h) id)) in
  let update := [("buttonMessageId"%string, BString (Itoa (next_message_id w)))] in
  collection (handleNewTransaction h message w).2
  = collection w
    ++ [Transaction.mk id amount (From_UserName message) ""
          (if fault_at 1 w || fault_at 2 w then "" else Itoa (next_message_id w))
          "" (now w)]
  ∧ trace (handleNewTransaction h message w).2
    = trace w
      ++ [StoreCall
            (InsertOne (Transaction.mk id amount (From_UserName message) "" "" ""
                          (now w))) false;
          BotCall prompt (fault_at 1 w)]
      ++ (if fault_at 1 w then []
          else [StoreCall (UpdateOne id update) (fault_at 2 w)]).
Proof.
  intros Hv Hins Hfresh. cbn zeta.
  rewrite (handleNewTransaction_run h message w amount Hv). cbn zeta.
  rewrite Hins.
  assert (existsb (has_id (Itoa (MessageID message))) (collection w) = false) as ->.
  { apply not_true_is_false. by intros ?%existsb_has_id. }
  cbn [orb]. destruct (fault_at 1 w) eqn:Hsend; cbn [orb].
  - destruct w; cbn. by rewrite <- app_assoc.
  - rewrite UpdateTransaction_run.
    replace (fault_at 0 (set_next_message_id _ _)) with (fault_at 2 w)
      by (by destruct w as [c ac t n [|f0 [|f1 f]] o m]).
    destruct (fault_at 2 w); cbn [snd].
    + destruct w; cbn. by rewrite <- !app_assoc.
    + world_simpl. rewrite update_first_last by done.
      destruct w; cbn. by rewrite <- !app_assoc.
Qed.

(** X17.  When the record cannot be inserted, because the call fails or
    because the number of the message is that of a record of the ledger,
    the ledger is left as it was, and the chat is told that the
    transaction was not saved. *)
Theorem handleNewTransaction_reports_a_failed_insertion h message w amount :
  ValidateAmount (Text message) = Ok amount →
  fault_at 0 w = true ∨ Itoa (MessageID message) ∈ Transaction.ID <$> collection w →
  collection (handleNewTransaction h message w).2 = collection w
  ∧ trace (handleNewTransaction h message w).2
    = trace w
      ++ [StoreCall
            (InsertOne
               (Transaction.mk (Itoa (MessageID message)) amount
                  (From_UserName message) "" "" "" (now w))) true;
          BotCall
            (NewMessage (Chat_ID message) [Lit "Failed to save transaction in DB."]
               "" None)
            (fault_at 1 w)].
Proof.
  intros Hv Hfail.
  rewrite (handleNewTransaction_run h message w amount Hv). cbn zeta.
  assert (fault_at 0 w || existsb (has_id (Itoa (MessageID message))) (collection w)
          = true) as ->.
  { destruct Hfail as [->|Htaken]; [done|].
    apply orb_true_iff. right. by apply existsb_has_id. }
  rewrite bot_Send_run, fault_at_after_call.
  destruct (fault_at 1 w), w; cbn; by rewrite <- app_assoc.
Qed.

(** The world after the steps of [handleEditedMessage] for the message of
    a record of the ledger, edited to an amount that passes the
    validation, when the two calls to the store succeed. *)
Lemma handleEditedMessage_run h message w newAmount tx :
  Chat_ID message = ChatID h →
  ValidateAmount (Text message) = Ok newAmount →
  find (has_id (Itoa (MessageID message))) (collection w) = Some tx →
  fault_at 0 w = false → fault_at 1 w = false →
  let id := Itoa (MessageID message) in
  let update := [("amount"%string, BFloat newAmount)] in
  let w2 :=
    set_collection (update_first (has_id id) (apply_set update) (collection w))
      (after_call (StoreCall (UpdateOne id update) false)
         (after_call (StoreCall (FindOne id) false) w)) in
  (handleEditedMessage h message w).2
  = if decide (Transaction.ButtonMessageID tx ≠ ""%string) then
      (bot_Send
         (NewEditMessageText (Chat_ID message) (Atoi (Transaction.ButtonMessageID tx))
            (if decide (Transaction.Category tx ≠ ""%string) then
               [Lit "✅ Updated to "; Float 2 false (fabs newAmount); Lit "$ in ";
                Lit (Transaction.Category tx);
                Lit " category.\n\nTap a different category to change:"]
             else [Lit "Select a category:"])
            (Some (BuildInlineKeyboard (Categories h) id)))
         w2).2
    else w2.
Proof.
  intros Hchat Hv Hfind Hread Hwrite. cbn zeta.
  unfold handleEditedMessage, bind, IsAuthorizedUser.
  rewrite bool_decide_eq_true_2 by done. cbn [negb]. rewrite Hv.
  rewrite FindTransaction_run, Hread, Hfind.
  rewrite UpdateTransaction_run, fault_at_after_call, Hwrite.
  replace (collection (after_call _ w)) with (collection w) by (by destruct w).
  case_decide; [|done]. by destruct (bot_Send _ _).
Qed.

(** X18.  The message of a record of the ledger is edited, in the chat of
    the bot, to an amount that passes the validation, and the two calls to
    the store succeed: the record has the new amount, and every other
    field of every record is as before; the record is read, then updated;
    and when the record holds the number of a keyboard message, that
    message is edited, to show the new amount if the record has a
    category. *)
Theorem handleEditedMessage_updates_the_amount h message w newAmount tx :
  Chat_ID message = ChatID h →
  ValidateAmount (Text message) = Ok newAmount →
  find (has_id (Itoa (MessageID message))) (collection w) = Some tx →
  fault_at 0 w = false → fault_at 1 w = false →
  let id := Itoa (MessageID message) in
  let update := [("amount"%string, BFloat newAmount)] in
  find (has_id id) (collection (handleEditedMessage h message w).2)
  = Some (Transaction.mk id newAmount (Transaction.Author tx)
            (Transaction.Category tx) (Transaction.ButtonMessageID tx)
            (Transaction.ConfirmationMessageID tx) (Transaction.CreatedAt tx))
  ∧ Forall2 same_but_amount (collection w)
      (collection (handleEditedMessage h message w).2)
  ∧ (∀ id', id' ≠ id →
       find (has_id id') (collection (handleEditedMessage h message w).2)
       = find (has_id id') (collection w))
  ∧ trace (handleEditedMessage h message w).2
    = trace w
      ++ [StoreCall (FindOne id) false; StoreCall (UpdateOne id update) false]
      ++ (if decide (Transaction.ButtonMessageID tx ≠ ""%string) then
            [BotCall
               (NewEditMessageText (Chat_ID message)
                  (Atoi (Transaction.ButtonMessageID tx))
                  (if decide (Transaction.Category tx ≠ ""%string) then
                     [Lit "✅ Updated to "; Float 2 false (fabs newAmount);
                      Lit "$ in "; Lit (Transaction.Category tx);
                      Lit " category.\n\nTap a different category to change:"]
                   else [Lit "Select a category:"])
                  (Some (BuildInlineKeyboard (Categories h) id)))
               (fault_at 2 w)]
          else []).
Proof.
  intros Hchat Hv Hfind Hread Hwrite. cbn zeta.
  assert (Transaction.ID tx = Itoa (MessageID message)) as Hid.
  { apply find_some in Hfind as [_ Hid]. by apply has_id_true in Hid. }
  assert (collection (handleEditedMessage h message w).2
          = update_first (has_id (Itoa (MessageID message)))
              (apply_set [("amount"%string, BFloat newAmount)]) (collection w))
    as Hledger.
  { rewrite (handleEditedMessage_run h message w newAmount tx) by done.
    cbn zeta. case_decide; [|by destruct w].
    match goal with
    | |- context [bot_Send ?c ?w2] =>
        destruct (keeps_stores_bot_Send c w2) as [-> _]
    end.
    by destruct w. }
  split; [|split; [|split]].
  - rewrite Hledger, find_update_first, Hfind by apply apply_set_ID.
    cbn [fmap option_fmap option_map]. f_equal.
    destruct tx. cbn in Hid |- *. by subst.
  - rewrite Hledger. apply update_first_same_but_amount.
  - intros id' Hne. rewrite Hledger.
    by apply find_update_first_other; [apply apply_set_ID|].
  - rewrite (handleEditedMessage_run h message w newAmount tx) by done.
    cbn zeta. case_decide.
    + rewrite bot_Send_trace.
      replace (fault_at 0 (set_collection _ _)) with (fault_at 2 w)
        by (by destruct w as [c ac t n [|f0 [|f1 f]] o m]).
      destruct w; cbn. by rewrite <- !app_assoc.
    + destruct w; cbn. by rewrite <- ?app_assoc, ?app_nil_r.
Qed.

(** X19.  An amount is reported and recorded, its keyboard is sent, and
    later the message is edited to another amount, no call failing: the
    edit is shown in the message of that keyboard, the one that was sent
    when the amount was reported. *)
Theorem edit_after_report_updates_the_keyboard h message edited w amount newAmount :
  Chat_ID message = ChatID h →
  Chat_ID edited = ChatID h →
  MessageID edited = MessageID message →
  ValidateAmount (Text message) = Ok amount →
  ValidateAmount (Text edited) = Ok newAmount →
  Itoa (MessageID message) ∉ Transaction.ID <$> collection w →
  faults w = [] →
  let w1 := (handleNewTransaction h message w).2 in
  last (trace w1)
  = Some (StoreCall
            (UpdateOne (Itoa (MessageID message))
               [("buttonMessageId"%string, BString (Itoa (next_message_id w)))])
            false)
  ∧ last (trace (handleEditedMessage h edited w1).2)
    = Some (BotCall
              (NewEditMessageText (ChatID h) (next_message_id w)
                 [Lit "Select a category:"]
                 (Some (BuildInlineKeyboard (Categories h) (Itoa (MessageID message)))))
              false)
  ∧ collection (handleEditedMessage h edited w1).2
    = collection w
      ++ [Transaction.mk (Itoa (MessageID message)) newAmount
            (From_UserName message) "" (Itoa (next_message_id w)) "" (now w)].
Proof.
  intros Hchat Hchat' Hsame Hv Hv' Hfresh Hquiet. cbn zeta.
  set (tx := Transaction.mk (Itoa (MessageID message)) amount (From_UserName message)
               "" (Itoa (next_message_id w)) "" (now w)).
  assert (existsb (has_id (Itoa (MessageID message))) (collection w) = false) as Hnew.
  { apply not_true_is_false. by intros ?%existsb_has_id. }
  assert (∃ t, (handleNewTransaction h message w).2
               = mkWorld (collection w ++ [tx]) (archiveCollection w)
                   (t ++ [StoreCall
                            (UpdateOne (Itoa (MessageID message))
                               [("buttonMessageId"%string,
                                 BString (Itoa (next_message_id w)))])
                            false])
                   (now w) [] (orders w) (next_message_id w + 1)) as [t Hw1].
  { rewrite (handleNewTransaction_run h message w amount Hv). cbn zeta.
    rewrite !(fault_at_nil _ w Hquiet), Hnew. cbn [orb].
    rewrite UpdateTransaction_run.
    rewrite fault_at_nil by (world_simpl; by rewrite Hquiet).
    cbn [snd]. world_simpl. rewrite update_first_last by done.
    destruct w; cbn in *; subst. by eexists. }
  set (w1 := (handleNewTransaction h message w).2) in *.
  assert (find (has_id (Itoa (MessageID edited))) (collection w1) = Some tx) as Hfind.
  { rewrite Hsame, Hw1. by apply find_has_id_last. }
  assert (Transaction.ButtonMessageID tx ≠ ""%string) as Hbutton.
  { cbn. intros Hempty. pose proof (Atoi_Itoa (next_message_id w)) as Hround.
    rewrite Hempty in Hround. cbn in Hround.
    assert (Itoa 0 = Itoa (next_message_id w)) as Heq by (by rewrite <- Hround).
    rewrite <- Heq in Hempty. discriminate Hempty. }
  rewrite (handleEditedMessage_run h edited w1 newAmount tx Hchat' Hv' Hfind)
    by (apply fault_at_nil; by rewrite Hw1).
  cbn zeta. rewrite decide_True by done.
  cbn [tx Transaction.Category Transaction.ButtonMessageID].
  rewrite decide_False by (by intros ?). rewrite Atoi_Itoa, Hchat', Hsame.
  split; [rewrite Hw1; cbn [trace]; by rewrite last_snoc|].
  split.
  - rewrite bot_Send_trace.
    rewrite fault_at_nil by (world_simpl; by rewrite Hw1).
    by rewrite last_snoc.
  - match goal with
    | |- context [bot_Send ?c ?w2] =>
        destruct (keeps_stores_bot_Send c w2) as [-> _]
    end.
    world_simpl. rewrite Hw1. cbn [collection].
    by rewrite update_first_last.
Qed.
End reported_amounts.

(** A first amount, reported by bob in message 9. *)
Lemma handleNewTransaction_records_the_amount_witness :
  let h := example_config in
  let message := message_from 9 "bob" "25.50" in
  let w := quiet_world [] [] in
  let amount := Finite (Q2Qc (51 # 2)) in
  let id := Itoa (MessageID message) in
  let prompt :=
    NewMessage (Chat_ID message) [Lit "Select a category:"] ""
      (Some (BuildInlineKeyboard (Categories h) id)) in
  let update := [("buttonMessageId"%string, BString (Itoa (next_message_id w)))] in
  collection (handleNewTransaction h message w).2
  = collection w
    ++ [Transaction.mk id amount (From_UserName message) ""
          (if fault_at 1 w || fault_at 2 w then "" else Itoa (next_message_id w))
          "" (now w)]
  ∧ trace (handleNewTransaction h message w).2
    = trace w
      ++ [StoreCall
            (InsertOne (Transaction.mk id amount (From_UserName message) "" "" ""
                          (now w))) false;
          BotCall prompt (fault_at 1 w)]
      ++ (if fault_at 1 w then []
          else [StoreCall (UpdateOne id update) (fault_at 2 w)]).
Proof.
  apply (handleNewTransaction_records_the_amount example_config
           (message_from 9 "bob" "25.50") (quiet_world [] [])
           (Finite (Q2Qc (51 # 2))));
    [by_computation | reflexivity | by_computation].
Defined.

(** The amount of message 8 is reported a second time. *)
Lemma handleNewTransaction_reports_a_failed_insertion_witness :
  let h := example_config in
  let message := message_from 8 "bob" "25.50" in
  let w := quiet_world [groceries_record] [] in
  let amount := Finite (Q2Qc (51 # 2)) in
  collection (handleNewTransaction h message w).2 = collection w
  ∧ trace (handleNewTransaction h message w).2
    = trace w
      ++ [StoreCall
            (InsertOne
               (Transaction.mk (Itoa (MessageID message)) amount
                  (From_UserName message) "" "" "" (now w))) true;
          BotCall
            (NewMessage (Chat_ID message) [Lit "Failed to save transaction in DB."]
               "" None)
            (fault_at 1 w)].
Proof.
  apply (handleNewTransaction_reports_a_failed_insertion example_config
           (message_from 8 "bob" "25.50") (quiet_world [groceries_record] [])
           (Finite (Q2Qc (51 # 2))));
    [by_computation | right; by_computation].
Defined.

(** Message 8, the one of the groceries, is edited to 12. *)
Lemma handleEditedMessage_updates_the_amount_witness :
  let h := example_config in
  let message := message_from 8 "bob" "12" in
  let w := quiet_world [groceries_record] [] in
  let newAmount := Finite (Q2Qc 12) in
  let tx := groceries_record in
  let id := Itoa (MessageID message) in
  let update := [("amount"%string, BFloat newAmount)] in
  find (has_id id) (collection (handleEditedMessage h message w).2)
  = Some (Transaction.mk id newAmount (Transaction.Author tx)
            (Transaction.Category tx) (Transaction.ButtonMessageID tx)
            (Transaction.ConfirmationMessageID tx) (Transaction.CreatedAt tx))
  ∧ Forall2 same_but_amount (collection w)
      (collection (handleEditedMessage h message w).2)
  ∧ (∀ id', id' ≠ id →
       find (has_id id') (collection (handleEditedMessage h message w).2)
       = find (has_id id') (collection w))
  ∧ trace (handleEditedMessage h message w).2
    = trace w
      ++ [StoreCall (FindOne id) false; StoreCall (UpdateOne id update) false]
      ++ (if decide (Transaction.ButtonMessageID tx ≠ ""%string) then
            [BotCall
               (NewEditMessageText (Chat_ID message)
                  (Atoi (Transaction.ButtonMessageID tx))
                  (if decide (Transaction.Category tx ≠ ""%string) then
                     [Lit "✅ Updated to "; Float 2 false (fabs newAmount);
                      Lit "$ in "; Lit (Transaction.Category tx);
                      Lit " category.\n\nTap a different category to change:"]
                   else [Lit "Select a category:"])
                  (Some (BuildInlineKeyboard (Categories h) id)))
               (fault_at 2 w)]
          else []).
Proof.
  apply (handleEditedMessage_updates_the_amount example_config
           (message_from 8 "bob" "12") (quiet_world [groceries_record] [])
           (Finite (Q2Qc 12)) groceries_record);
    [reflexivity | by_computation | reflexivity | reflexivity | reflexivity].
Defined.

(** Bob reports 25.50 in message 9 and edits the message to 12. *)
Lemma edit_after_report_updates_the_keyboard_witness :
  let h := example_config in
  let message := message_from 9 "bob" "25.50" in
  let edited := message_from 9 "bob" "12" in
  let w := quiet_world [] [] in
  let w1 := (handleNewTransaction h message w).2 in
  last (trace w1)
  = Some (StoreCall
            (UpdateOne (Itoa (MessageID message))
               [("buttonMessageId"%string, BString (Itoa (next_message_id w)))])
            false)
  ∧ last (trace (handleEditedMessage h edited w1).2)
    = Some (BotCall
              (NewEditMessageText (ChatID h) (next_message_id w)
                 [Lit "Select a category:"]
                 (Some (BuildInlineKeyboard (Categories h) (Itoa (MessageID message)))))
              false)
  ∧ collection (handleEditedMessage h edited w1).2
    = collection w
      ++ [Transaction.mk (Itoa (MessageID message)) (Finite (Q2Qc 12))
            (From_UserName message) "" (Itoa (next_message_id w)) "" (now w)].
Proof.
  apply (edit_after_report_updates_the_keyboard example_config
           (message_from 9 "bob" "25.50") (message_from 9 "bob" "12")
           (quiet_world [] []) (Finite (Q2Qc (51 # 2))) (Finite (Q2Qc 12)));
    [reflexivity | reflexivity | reflexivity | by_computation | by_computation
    | by_computation | reflexivity].
Defined.
(** ** The buttons of the keyboard *)

Section callback_runs.
Implicit Types (b : Bot) (w : World) (h : Config) (callback : CallbackQuery).

Lemma lift_run {A} (m : M A) b e :
  (m (world b)).2 = after_call e (world b) →
  lift m b
  = ((m (world b)).1,
     {| world := after_call e (world b); journal := journal b ++ [Earlier e] |}).
Proof.
  intros Hrun. unfold lift. destruct (m (world b)) as [a w']. cbn [fst snd] in *.
  subst w'. f_equal. f_equal.
  replace (trace (after_call e (world b))) with (trace (world b) ++ [e])
    by (by destruct (world b)).
  by rewrite drop_app_length.
Qed.

Lemma lift_FindTransaction id b :
  lift (FindTransaction id) b
  = (if fault_at 0 (world b)
     then Err (Wrapf "failed to find transaction" ExternalError)
     else Ok (find (has_id id) (collection (world b))),
     {| world := after_call (StoreCall (FindOne id) (fault_at 0 (world b))) (world b);
        journal :=
          journal b ++ [Earlier (StoreCall (FindOne id) (fault_at 0 (world b)))] |}).
Proof.
  rewrite (lift_run _ b (StoreCall (FindOne id) (fault_at 0 (world b))));
    rewrite FindTransaction_run; by destruct (fault_at 0 (world b)).
Qed.

Lemma lift_UpdateTransaction id update b :
  lift (UpdateTransaction id update) b
  = (if fault_at 0 (world b)
     then Some (Wrapf "failed to update transaction" ExternalError)
     else None,
     {| world :=
          (if fault_at 0 (world b) then λ w, w
           else set_collection
                  (update_first (has_id id) (apply_set update) (collection (world b))))
            (after_call (StoreCall (UpdateOne id update) (fault_at 0 (world b)))
               (world b));
        journal :=
          journal b
          ++ [Earlier (StoreCall (UpdateOne id update) (fault_at 0 (world b)))] |}).
Proof.
  unfold lift. rewrite UpdateTransaction_run.
  destruct (fault_at 0 (world b)); cbn [fst snd]; f_equal; f_equal;
    destruct (world b); cbn; by rewrite drop_app_length.
Qed.

Lemma lift_bot_Send c b :
  lift (bot_Send c) b
  = (if fault_at 0 (world b) then Err ExternalError
     else Ok (next_message_id (world b)),
     {| world :=
          (if fault_at 0 (world b) then λ w, w
           else set_next_message_id (next_message_id (world b) + 1))
            (after_call (BotCall c (fault_at 0 (world b))) (world b));
        journal := journal b ++ [Earlier (BotCall c (fault_at 0 (world b)))] |}).
Proof.
  unfold lift. rewrite bot_Send_run.
  destruct (fault_at 0 (world b)); cbn [fst snd]; f_equal; f_equal;
    destruct (world b); cbn; by rewrite drop_app_length.
Qed.

Lemma bot_Request_run r b :
  bot_Request r b
  = (tt, {| world := set_faults (tl (faults (world b))) (world b);
            journal := journal b ++ [BotRequest r (fault_at 0 (world b))] |}).
Proof.
  unfold bot_Request, bindH, further_call, retH. rewrite fault_at_0.
  by destruct (hd false (faults (world b))).
Qed.

Lemma DeleteTransaction_run id b :
  DeleteTransaction id b
  = (if fault_at 0 (world b)
     then Some (Wrapf "failed to delete transaction" ExternalError)
     else None,
     {| world :=
          (if fault_at 0 (world b) then λ w, w
           else set_collection (delete_first (has_id id) (collection (world b))))
            (set_faults (tl (faults (world b))) (world b));
        journal := journal b ++ [CollectionDeleteOne id (fault_at 0 (world b))] |}).
Proof.
  unfold DeleteTransaction, bindH, further_call, retH. rewrite fault_at_0.
  destruct (hd false (faults (world b))); [done|]. by destruct (world b).
Qed.

Lemma HasPrefix_append prefix s : HasPrefix (prefix +:+ s) prefix = true.
Proof.
  unfold HasPrefix. induction prefix as [|c prefix IH]; [by destruct s|].
  rewrite append_String. cbn [String.prefix].
  by destruct (ascii_dec c c).
Qed.

(** The parts of a string between underscores. *)
Lemma Split_no_underscore s : no_underscore s → Split s "_" = [s].
Proof.
  unfold no_underscore. induction s as [|c s IH]; [done|].
  cbn [list_ascii_of_string Split]. rewrite not_elem_of_cons. intros [Hc Hs].
  rewrite decide_False by done. by rewrite IH.
Qed.

Lemma Split_underscore s rest :
  no_underscore s → Split (s +:+ "_" +:+ rest) "_" = s :: Split rest "_".
Proof.
  unfold no_underscore. induction s as [|c s IH].
  - intros _. change ("" +:+ "_" +:+ rest) with (String "_" rest). cbn [Split].
    by rewrite decide_True.
  - cbn [list_ascii_of_string]. rewrite not_elem_of_cons. intros [Hc Hs].
    rewrite append_String. cbn [Split]. rewrite decide_False by done.
    by rewrite IH.
Qed.

Lemma Split_category_data category id :
  no_underscore category → no_underscore id →
  Split ("category_" +:+ category +:+ "_" +:+ id) "_"
  = ["category"%string; category; id].
Proof.
  intros Hcategory Hid.
  change ("category_" +:+ category +:+ "_" +:+ id)
    with ("category" +:+ "_" +:+ (category +:+ "_" +:+ id)).
  rewrite Split_underscore by (by_computation).
  by rewrite Split_underscore, Split_no_underscore.
Qed.

Lemma Split_delete_data id :
  no_underscore id → Split ("delete_" +:+ id) "_" = ["delete"%string; id].
Proof.
  intros Hid. change ("delete_" +:+ id) with ("delete" +:+ "_" +:+ id).
  rewrite Split_underscore by (by_computation).
  by rewrite Split_no_underscore.
Qed.

(** The decimal string of a number has no underscore. *)
Lemma no_underscore_pretty_N_go x s : no_underscore s → no_underscore (pretty_N_go x s).
Proof.
  revert s. induction (N.lt_wf_0 x) as [x _ IH]; intros s Hs.
  destruct (N.eq_0_gt_0_cases x) as [->|Hx]; [by rewrite pretty_N_go_0|].
  rewrite pretty_N_go_step by done. apply IH; [by apply N.div_lt|].
  unfold no_underscore in *. cbn [list_ascii_of_string]. apply not_elem_of_cons.
  split; [|done]. unfold pretty_N_char. by repeat case_match.
Qed.

Lemma no_underscore_Itoa n : no_underscore (Itoa n).
Proof.
  assert (∀ p : positive, no_underscore (pretty (Npos p))) as Hpos.
  { intros p. unfold pretty, pretty_N. rewrite decide_False by done.
    apply no_underscore_pretty_N_go. unfold no_underscore. cbn. apply not_elem_of_nil. }
  unfold Itoa. destruct n as [|p|p].
  - by_computation.
  - apply Hpos.
  - change (pretty (Z.neg p)) with (String "-" (pretty (Npos p))).
    unfold no_underscore. cbn [list_ascii_of_string]. apply not_elem_of_cons.
    split; [done | apply Hpos].
Qed.
End callback_runs.
(** Reduces the world of a process after a call. *)
Ltac simpl_bot :=
  cbn [world journal fault_at faults drop hd tl after_call set_faults set_trace
       set_collection set_next_message_id collection next_message_id trace
       fst snd];
  cbv beta iota delta [retH].

Section callbacks.
Implicit Types (b : Bot) (w : World) (h : Config) (callback : CallbackQuery).

Lemma find_delete_first_other id id' (l : list Transaction.t) :
  id' ≠ id →
  find (has_id id') (delete_first (has_id id) l) = find (has_id id') l.
Proof.
  intros Hne. induction l as [|x l IH]; [done|]. cbn [delete_first find].
  destruct (has_id id x) eqn:E; cbn [find].
  - apply has_id_true in E.
    destruct (has_id id' x) eqn:E'; [apply has_id_true in E'; congruence | done].
  - destruct (has_id id' x); by rewrite ?IH.
Qed.

Lemma find_delete_first id (l : list Transaction.t) :
  NoDup (Transaction.ID <$> l) → find (has_id id) (delete_first (has_id id) l) = None.
Proof.
  induction l as [|x l IH]; [done|]. rewrite fmap_cons, NoDup_cons.
  intros [Hx Hl]. cbn [delete_first].
  destruct (has_id id x) eqn:E; cbn [find].
  - apply has_id_true in E. subst id. by apply find_has_id_fresh.
  - rewrite E. by apply IH.
Qed.

Lemma delete_first_sublist id (l : list Transaction.t) :
  delete_first (has_id id) l `sublist_of` l.
Proof.
  induction l as [|x l IH]; [done|]. cbn [delete_first].
  destruct (has_id id x); [by apply sublist_cons | by apply sublist_skip].
Qed.

Lemma delete_first_length id (l : list Transaction.t) tx :
  find (has_id id) l = Some tx → length l = S (length (delete_first (has_id id) l)).
Proof.
  induction l as [|x l IH]; [done|]. cbn [find delete_first].
  destruct (has_id id x); [done|]. cbn [length]. intros Hfind. by rewrite IH.
Qed.

(** X20.  A callback that does not come from the chat of the bot is
    ignored: no call is made and nothing changes.  Any other callback is
    answered, by the last request that is made for it. *)
Theorem HandleCallbackQuery_answers_its_chat_only h callback b :
  if decide (Message_Chat_ID callback = ChatID h) then
    ∃ failed,
      last (journal (HandleCallbackQuery h callback b).2)
      = Some (BotRequest (NewCallback (Callback_ID callback) "") failed)
  else HandleCallbackQuery h callback b = (tt, b).
Proof.
  unfold HandleCallbackQuery. case_decide as Hchat.
  - rewrite bool_decide_eq_true_2 by done. cbn [negb]. unfold bindH.
    match goal with
    | |- context [(if ?c then ?x else ?y) b] =>
        destruct ((if c then x else y) b) as [[] b1]
    end.
    rewrite bot_Request_run. cbn [snd journal]. eexists. apply last_snoc.
  - by rewrite bool_decide_eq_false_2.
Qed.

(** X21.  The button of a category, of the keyboard of a transaction that
    is in the ledger, is pressed in the chat of the bot, and no call
    fails: the category is set on the record of the transaction, whose
    other fields are as before, as is the record found under any other
    identifier; the record is read, its confirmation message, if it has
    one, is deleted, the record is updated, the message of the keyboard is
    edited to show the amount and the category, and the callback is
    answered. *)
Theorem HandleCallbackQuery_category_button h callback category n tx b :
  Message_Chat_ID callback = ChatID h →
  Data callback = (category_button (Itoa n) category).2 →
  no_underscore category →
  find (has_id (Itoa n)) (collection (world b)) = Some tx →
  faults (world b) = [] →
  let id := Itoa n in
  let update := [("category"%string, BString category)] in
  let edit :=
    NewEditMessageText (ChatID h) (Message_MessageID callback)
      [Lit "✅ Added "; Float 2 false (fabs (Transaction.Amount tx)); Lit "$ to ";
       Lit category; Lit " category.\n\nTap a different category to change:"]
      (Some (BuildInlineKeyboard (Categories h) id)) in
  find (has_id id) (collection (world (HandleCallbackQuery h callback b).2))
  = Some (with_Category category tx)
  ∧ (∀ id', id' ≠ id →
       find (has_id id') (collection (world (HandleCallbackQuery h callback b).2))
       = find (has_id id') (collection (world b)))
  ∧ journal (HandleCallbackQuery h callback b).2
    = journal b
      ++ [Earlier (StoreCall (FindOne id) false)]
      ++ (if decide (Transaction.ConfirmationMessageID tx ≠ ""%string)
          then [BotRequest
                  (NewDeleteMessage (ChatID h)
                     (Atoi (Transaction.ConfirmationMessageID tx))) false]
          else [])
      ++ [Earlier (StoreCall (UpdateOne id update) false);
          Earlier (BotCall edit false);
          BotRequest (NewCallback (Callback_ID callback) "") false].
Proof.
  intros Hchat Hdata Hcategory Hfind Hquiet. cbn zeta.
  assert (Transaction.ID tx = Itoa n) as Hid.
  { apply find_some in Hfind as [_ Hid]. by apply has_id_true in Hid. }
  unfold category_button in Hdata. cbn [snd] in Hdata.
  assert (∃ w',
    (HandleCallbackQuery h callback b).2
    = {| world := w';
         journal :=
           journal b
           ++ [Earlier (StoreCall (FindOne (Itoa n)) false)]
           ++ (if decide (Transaction.ConfirmationMessageID tx ≠ ""%string)
               then [BotRequest
                       (NewDeleteMessage (ChatID h)
                          (Atoi (Transaction.ConfirmationMessageID tx))) false]
               else [])
           ++ [Earlier (StoreCall
                          (UpdateOne (Itoa n) [("category"%string, BString category)])
                          false);
               Earlier
                 (BotCall
                    (NewEditMessageText (ChatID h) (Message_MessageID callback)
                       [Lit "✅ Added "; Float 2 false (fabs (Transaction.Amount tx));
                        Lit "$ to "; Lit category;
                        Lit " category.\n\nTap a different category to change:"]
                       (Some (BuildInlineKeyboard (Categories h) (Itoa n))))
                    false);
               BotRequest (NewCallback (Callback_ID callback) "") false] |}
    ∧ collection w'
      = update_first (has_id (Itoa n))
          (apply_set [("category"%string, BString category)])
          (collection (world b))) as (w' & -> & Hledger).
  { unfold HandleCallbackQuery. rewrite bool_decide_eq_true_2 by done.
    cbn [negb]. rewrite Hdata.
    rewrite HasPrefix_append.
    cbv beta iota. unfold bindH, handleCategorySelection. rewrite Hdata.
    rewrite Split_category_data by (done || apply no_underscore_Itoa).
    change (len ["category"%string; category; Itoa n] <? 3) with false.
    cbv beta iota zeta. unfold part. cbn [lookup list_lookup default from_option id].
    unfold bindH. rewrite lift_FindTransaction.
    rewrite (fault_at_nil 0 _ Hquiet), Hfind, Hchat. unfold delete_confirmation.
    destruct b as [[c ac t now0 f o m] j]. cbn in Hquiet. subst f. simpl_bot.
    case_decide.
    - rewrite bot_Request_run. simpl_bot. rewrite lift_UpdateTransaction. simpl_bot.
      rewrite lift_bot_Send. simpl_bot. rewrite bot_Request_run. simpl_bot.
      eexists. split; [by rewrite <- !app_assoc|]. reflexivity.
    - unfold retH. rewrite lift_UpdateTransaction. simpl_bot.
      rewrite lift_bot_Send. simpl_bot. rewrite bot_Request_run. simpl_bot.
      eexists. split; [by rewrite <- !app_assoc|]. reflexivity. }
  cbn [world journal]. rewrite Hledger. split; [|split; [|done]].
  - rewrite find_update_first, Hfind by apply apply_set_ID.
    by destruct tx.
  - intros id' Hne. by apply find_update_first_other; [apply apply_set_ID|].
Qed.

(** X22.  The button that deletes a transaction of the ledger, whose
    identifiers are distinct, is pressed in the chat of the bot, and no
    call fails: the record of the transaction is removed and the other
    records stay, in their order; the message of the keyboard is deleted,
    and the confirmation message if there is one; the chat is told the
    amount of the transaction deleted, in a message that a goroutine is
    started to delete five seconds later; and the callback is answered. *)
Theorem HandleCallbackQuery_delete_button h callback n tx b :
  Message_Chat_ID callback = ChatID h →
  Data callback = "delete_" +:+ Itoa n →
  find (has_id (Itoa n)) (collection (world b)) = Some tx →
  NoDup (Transaction.ID <$> collection (world b)) →
  faults (world b) = [] →
  let id := Itoa n in
  let b' := (HandleCallbackQuery h callback b).2 in
  find (has_id id) (collection (world b')) = None
  ∧ (∀ id', id' ≠ id →
       find (has_id id') (collection (world b'))
       = find (has_id id') (collection (world b)))
  ∧ collection (world b') `sublist_of` collection (world b)
  ∧ length (collection (world b)) = S (length (collection (world b')))
  ∧ journal b'
    = journal b
      ++ [Earlier (StoreCall (FindOne id) false);
          CollectionDeleteOne id false;
          BotRequest (NewDeleteMessage (ChatID h) (Message_MessageID callback)) false]
      ++ (if decide (Transaction.ConfirmationMessageID tx ≠ ""%string)
          then [BotRequest
                  (NewDeleteMessage (ChatID h)
                     (Atoi (Transaction.ConfirmationMessageID tx))) false]
          else [])
      ++ [Earlier
            (BotCall
               (NewMessage (ChatID h)
                  [Lit "🗑️ Deleted transaction: ";
                   Float 2 false (fabs (Transaction.Amount tx)); Lit "$"]
                  "" None)
               false);
          GoAfter 5 (NewDeleteMessage (ChatID h) (next_message_id (world b)));
          BotRequest (NewCallback (Callback_ID callback) "") false].
Proof.
  intros Hchat Hdata Hfind Hnodup Hquiet. cbn zeta.
  assert (∃ w',
    (HandleCallbackQuery h callback b).2
    = {| world := w';
         journal :=
           journal b
           ++ [Earlier (StoreCall (FindOne (Itoa n)) false);
               CollectionDeleteOne (Itoa n) false;
               BotRequest
                 (NewDeleteMessage (ChatID h) (Message_MessageID callback)) false]
           ++ (if decide (Transaction.ConfirmationMessageID tx ≠ ""%string)
               then [BotRequest
                       (NewDeleteMessage (ChatID h)
                          (Atoi (Transaction.ConfirmationMessageID tx))) false]
               else [])
           ++ [Earlier
                 (BotCall
                    (NewMessage (ChatID h)
                       [Lit "🗑️ Deleted transaction: ";
                        Float 2 false (fabs (Transaction.Amount tx)); Lit "$"]
                       "" None)
                    false);
               GoAfter 5 (NewDeleteMessage (ChatID h) (next_message_id (world b)));
               BotRequest (NewCallback (Callback_ID callback) "") false] |}
    ∧ collection w' = delete_first (has_id (Itoa n)) (collection (world b)))
    as (w' & -> & Hledger).
  { unfold HandleCallbackQuery. rewrite bool_decide_eq_true_2 by done.
    cbn [negb]. rewrite Hdata.
    change (HasPrefix ("delete_" +:+ Itoa n) "category_") with false.
    rewrite HasPrefix_append.
    cbv beta iota. unfold bindH, handleTransactionDeletion. rewrite Hdata.
    rewrite Split_delete_data by apply no_underscore_Itoa.
    change (len ["delete"%string; Itoa n] <? 2) with false.
    cbv beta iota zeta. unfold part. cbn [lookup list_lookup default from_option id].
    unfold bindH. rewrite lift_FindTransaction.
    rewrite (fault_at_nil 0 _ Hquiet), Hfind, Hchat. unfold delete_confirmation.
    destruct b as [[c ac t now0 f o m] j]. cbn in Hquiet. subst f.
    simpl_bot. rewrite DeleteTransaction_run. simpl_bot.
    rewrite bot_Request_run. simpl_bot.
    case_decide.
    - rewrite bot_Request_run. simpl_bot. rewrite lift_bot_Send. simpl_bot.
      unfold go_after. simpl_bot. rewrite bot_Request_run. simpl_bot.
      eexists. split; [by rewrite <- !app_assoc|]. reflexivity.
    - unfold retH. rewrite lift_bot_Send. simpl_bot.
      unfold go_after. simpl_bot. rewrite bot_Request_run. simpl_bot.
      eexists. split; [by rewrite <- !app_assoc|]. reflexivity. }
  cbn [world journal]. rewrite Hledger.
  split; [by apply find_delete_first|].
  split; [intros id' Hne; by apply find_delete_first_other|].
  split; [apply delete_first_sublist|].
  split; [by eapply delete_first_length | done].
Qed.

(** X23.  A button of the keyboard of a transaction that is not in the
    ledger is pressed in the chat of the bot, the ledger being read: the
    ledger stays as it is.  For the button of a category nothing is done
    but to answer the callback; for the button that deletes, the message
    of the keyboard is deleted first. *)
Theorem HandleCallbackQuery_unknown_transaction h callback category n b :
  Message_Chat_ID callback = ChatID h →
  Data callback = (category_button (Itoa n) category).2 ∧ no_underscore category
  ∨ Data callback = "delete_" +:+ Itoa n →
  find (has_id (Itoa n)) (collection (world b)) = None →
  fault_at 0 (world b) = false →
  collection (world (HandleCallbackQuery h callback b).2) = collection (world b)
  ∧ journal (HandleCallbackQuery h callback b).2
    = journal b
      ++ Earlier (StoreCall (FindOne (Itoa n)) false)
         :: (if HasPrefix (Data callback) "category_" then []
             else [BotRequest
                     (NewDeleteMessage (ChatID h) (Message_MessageID callback))
                     (fault_at 1 (world b))])
      ++ [BotRequest (NewCallback (Callback_ID callback) "")
            (fault_at (if HasPrefix (Data callback) "category_" then 1 else 2)
               (world b))].
Proof.
  intros Hchat Hdata Hfind Hread.
  unfold HandleCallbackQuery. rewrite bool_decide_eq_true_2 by done.
  cbn [negb]. unfold bindH.
  destruct Hdata as [[Hdata Hcategory]|Hdata]; rewrite Hdata.
  - unfold category_button. cbn [snd].
    rewrite HasPrefix_append.
    cbv beta iota. unfold handleCategorySelection. rewrite Hdata.
    unfold category_button. cbn [snd].
    rewrite Split_category_data by (done || apply no_underscore_Itoa).
    change (len ["category"%string; category; Itoa n] <? 3) with false.
    cbv beta iota zeta. unfold part. cbn [lookup list_lookup default from_option id].
    unfold bindH. rewrite lift_FindTransaction, Hread, Hfind. unfold retH.
    rewrite bot_Request_run. cbn [snd world journal].
    rewrite fault_at_after_call.
    split; [by destruct (world b) | by rewrite <- app_assoc].
  - change (HasPrefix ("delete_" +:+ Itoa n) "category_") with false.
    rewrite HasPrefix_append.
    cbv beta iota. unfold handleTransactionDeletion. rewrite Hdata.
    rewrite Split_delete_data by apply no_underscore_Itoa.
    change (len ["delete"%string; Itoa n] <? 2) with false.
    cbv beta iota zeta. unfold part. cbn [lookup list_lookup default from_option id].
    unfold bindH. rewrite lift_FindTransaction, Hread, Hfind.
    rewrite Hchat, !bot_Request_run. cbn [snd world journal].
    rewrite fault_at_after_call.
    replace (fault_at 0 (set_faults _ _)) with (fault_at 2 (world b))
      by (by destruct (world b) as [c ac t now0 [|f0 [|f1 f]] o m]).
    split; [by destruct (world b) | by rewrite <- !app_assoc].
Qed.
End callbacks.

(** The button [Other] of the keyboard of the groceries is pressed. *)
Lemma HandleCallbackQuery_category_button_witness :
  let h := example_config in
  let callback := press "category_Other_8" in
  let b := start (quiet_world [groceries_record] []) in
  let tx := groceries_record in
  let id := Itoa 8 in
  let update := [("category"%string, BString "Other")] in
  let edit :=
    NewEditMessageText (ChatID h) (Message_MessageID callback)
      [Lit "✅ Added "; Float 2 false (fabs (Transaction.Amount tx)); Lit "$ to ";
       Lit "Other"; Lit " category.\n\nTap a different category to change:"]
      (Some (BuildInlineKeyboard (Categories h) id)) in
  find (has_id id) (collection (world (HandleCallbackQuery h callback b).2))
  = Some (with_Category "Other" tx)
  ∧ (∀ id', id' ≠ id →
       find (has_id id') (collection (world (HandleCallbackQuery h callback b).2))
       = find (has_id id') (collection (world b)))
  ∧ journal (HandleCallbackQuery h callback b).2
    = journal b
      ++ [Earlier (StoreCall (FindOne id) false)]
      ++ (if decide (Transaction.ConfirmationMessageID tx ≠ ""%string)
          then [BotRequest
                  (NewDeleteMessage (ChatID h)
                     (Atoi (Transaction.ConfirmationMessageID tx))) false]
          else [])
      ++ [Earlier (StoreCall (UpdateOne id update) false);
          Earlier (BotCall edit false);
          BotRequest (NewCallback (Callback_ID callback) "") false].
Proof.
  apply (HandleCallbackQuery_category_button example_config
           (press "category_Other_8") "Other" 8 groceries_record
           (start (quiet_world [groceries_record] [])));
    [reflexivity | reflexivity | by_computation | reflexivity | reflexivity].
Defined.

(** The button that deletes the groceries is pressed. *)
Lemma HandleCallbackQuery_delete_button_witness :
  let h := example_config in
  let callback := press "delete_8" in
  let b := start (quiet_world [groceries_record] []) in
  let tx := groceries_record in
  let id := Itoa 8 in
  let b' := (HandleCallbackQuery h callback b).2 in
  find (has_id id) (collection (world b')) = None
  ∧ (∀ id', id' ≠ id →
       find (has_id id') (collection (world b'))
       = find (has_id id') (collection (world b)))
  ∧ collection (world b') `sublist_of` collection (world b)
  ∧ length (collection (world b)) = S (length (collection (world b')))
  ∧ journal b'
    = journal b
      ++ [Earlier (StoreCall (FindOne id) false);
          CollectionDeleteOne id false;
          BotRequest (NewDeleteMessage (ChatID h) (Message_MessageID callback)) false]
      ++ (if decide (Transaction.ConfirmationMessageID tx ≠ ""%string)
          then [BotRequest
                  (NewDeleteMessage (ChatID h)
                     (Atoi (Transaction.ConfirmationMessageID tx))) false]
          else [])
      ++ [Earlier
            (BotCall
               (NewMessage (ChatID h)
                  [Lit "🗑️ Deleted transaction: ";
                   Float 2 false (fabs (Transaction.Amount tx)); Lit "$"]
                  "" None)
               false);
          GoAfter 5 (NewDeleteMessage (ChatID h) (next_message_id (world b)));
          BotRequest (NewCallback (Callback_ID callback) "") false].
Proof.
  apply (HandleCallbackQuery_delete_button example_config (press "delete_8") 8
           groceries_record (start (quiet_world [groceries_record] [])));
    [reflexivity | reflexivity | reflexivity | by_computation | reflexivity].
Defined.

(** The button that deletes the groceries is pressed a second time, when
    the ledger is empty. *)
Lemma HandleCallbackQuery_unknown_transaction_witness :
  let h := example_config in
  let callback := press "delete_8" in
  let b := start (quiet_world [] []) in
  collection (world (HandleCallbackQuery h callback b).2) = collection (world b)
  ∧ journal (HandleCallbackQuery h callback b).2
    = journal b
      ++ Earlier (StoreCall (FindOne (Itoa 8)) false)
         :: (if HasPrefix (Data callback) "category_" then []
             else [BotRequest
                     (NewDeleteMessage (ChatID h) (Message_MessageID callback))
                     (fault_at 1 (world b))])
      ++ [BotRequest (NewCallback (Callback_ID callback) "")
            (fault_at (if HasPrefix (Data callback) "category_" then 1 else 2)
               (world b))].
Proof.
  apply (HandleCallbackQuery_unknown_transaction example_config (press "delete_8")
           "" 8 (start (quiet_world [] [])));
    [reflexivity | right; reflexivity | reflexivity | reflexivity].
Defined.
(** ** Further commands *)

Section further_commands_runs.
Context `{Location} `{Platform}.
Implicit Types (w : World) (b : Bot) (h : Config).


(** X24.  [ResetDatabase] makes two calls, the deletion of all the
    transactions and one message that tells its outcome.  When the
    deletion succeeds the ledger is empty, so that the totals computed
    next are a zero balance and no total at all; when it fails the ledger
    is as before. The archive store is not changed. *)
Theorem ResetDatabase_clears_the_ledger chatID w :
  let w' := (ResetDatabase chatID w).2 in
  trace w'
  = trace w
    ++ [StoreCall DeleteMany (fault_at 0 w);
        BotCall
          (NewMessage chatID
             [Lit (if fault_at 0 w then "Failed to reset DB."
                   else "All transactions deleted. Fresh start!")]
             "" None)
          (fault_at 1 w)]
  ∧ collection w' = (if fault_at 0 w then collection w else [])
  ∧ archiveCollection w' = archiveCollection w
  ∧ (fault_at 0 w = false → fault_at 2 w = false →
       (CalculateTotals w').1 = Ok (fzero, ∅, ∅)).
Proof.
  cbn zeta. unfold ResetDatabase, bind. rewrite DeleteAllTransactions_run.
  destruct (fault_at 0 w) eqn:Hdelete; rewrite bot_Send_run;
    [rewrite fault_at_after_call|];
    try replace (fault_at 0 (set_collection _ _)) with (fault_at 1 w)
      by (by destruct w).
  - destruct (fault_at 1 w), w; cbn; by rewrite <- app_assoc.
  - destruct (fault_at 1 w) eqn:Hsend; unfold ret; cbn [snd].
    + split; [destruct w; cbn; by rewrite <- app_assoc|].
      split; [done|]. split; [by destruct w|]. intros _ Hread.
      rewrite CalculateTotals_run.
      replace (fault_at 0 _) with (fault_at 2 w)
        by (by destruct w as [c ac t n [|f0 [|f1 f]] o m]).
      rewrite Hread. cbn zeta. cbn [fst].
      replace (collection _) with (@nil Transaction.t) by (by destruct w).
      unfold totals_loop. cbn [fold_left fst snd].
      rewrite (nil_length_inv (keys_in_order _ ∅)); [done|].
      by rewrite keys_in_order_length, map_size_empty.
    + split; [destruct w; cbn; by rewrite <- app_assoc|].
      split; [done|]. split; [by destruct w|]. intros _ Hread.
      rewrite CalculateTotals_run.
      replace (fault_at 0 _) with (fault_at 2 w)
        by (by destruct w as [c ac t n [|f0 [|f1 f]] o m]).
      rewrite Hread. cbn zeta. cbn [fst].
      replace (collection _) with (@nil Transaction.t) by (by destruct w).
      unfold totals_loop. cbn [fold_left fst snd].
      rewrite (nil_length_inv (keys_in_order _ ∅)); [done|].
      by rewrite keys_in_order_length, map_size_empty.
Qed.

Lemma quiet_run {A} (m : M A) w : quiet m → ∃ a o, m w = (a, set_orders o w).
Proof.
  intros Hm. destruct (Hm w) as [o Ho]. destruct (m w) as [a w1].
  cbn [snd] in Ho. subst w1. by exists a, o.
Qed.


Lemma quiet_category_breakdown categoryTotals transactions :
  quiet (category_breakdown categoryTotals transactions).
Proof. unfold category_breakdown. solve_quiet. Qed.


End further_commands_runs.
(** ** The trends and the history *)

Section trends_and_history.
Context `{Location} `{Platform}.
Implicit Types (w : World) (b : Bot) (h : Config).

Lemma quiet_category_trends archives acc : quiet (category_trends archives acc).
Proof.
  revert acc. induction archives as [|a archives IH]; intros acc;
    cbn [category_trends]; [apply quiet_ret|].
  apply quiet_bind; [apply quiet_range_items|]. intros items. apply IH.
Qed.

Lemma trends_text_run first archives w :
  ∃ rest o,
    trends_text first archives w
    = (Lit "📈 **SPENDING TRENDS ANALYSIS**\n" :: rest, set_orders o w).
Proof.
  unfold trends_text. unfold bind at 1.
  destruct (quiet_run (category_trends archives (∅, ∅)) w
              (quiet_category_trends _ _)) as ([ct cm] & o & ->).
  unfold bind at 1.
  match goal with
  | |- context [(if ?c then ?x else ?y) (set_orders o w)] =>
      assert (quiet (if c then x else y)) as Hq by solve_quiet;
      destruct (quiet_run _ (set_orders o w) Hq) as (categories & o' & ->)
  end.
  unfold ret. by eexists _, _.
Qed.

(** X26.  [SendSpendingTrends] reads the six latest archives and sends one
    message; it changes neither store.  The message is a notice when the
    archives cannot be read or when there is none, and otherwise the
    analysis, in Markdown. *)
Theorem SendSpendingTrends_sends_one_message chatID w :
  let w' := (SendSpendingTrends chatID w).2 in
  collection w' = collection w
  ∧ archiveCollection w' = archiveCollection w
  ∧ ∃ content parseMode,
      trace w'
      = trace w
        ++ [StoreCall (FindArchives 6) (fault_at 0 w);
            BotCall (NewMessage chatID content parseMode None) (fault_at 1 w)]
      ∧ if fault_at 0 w || bool_decide (archiveCollection w = [])
        then content = [Lit "❌ No archived data found for trend analysis."]
             ∧ parseMode = ""%string
        else head content = Some (Lit "📈 **SPENDING TRENDS ANALYSIS**\n")
             ∧ parseMode = "Markdown"%string.
Proof.
  cbn zeta. unfold SendSpendingTrends, bind. rewrite GetRecentArchives_run.
  destruct (fault_at 0 w) eqn:Hread; cbn [orb].
  { rewrite bot_Send_run, fault_at_after_call.
    split_and!; [by destruct (fault_at 1 w), w..|]. eexists _, _.
    split; [|done]. destruct (fault_at 1 w), w; cbn; by rewrite <- app_assoc. }
  destruct (apply_limit 6 (merge_sort archived_after (archiveCollection w)))
    as [|first archives] eqn:Hrecent.
  - assert (archiveCollection w = []) as Hnone.
    { destruct (archiveCollection w) as [|a l] eqn:Hstore; [done|].
      apply (f_equal length) in Hrecent. unfold apply_limit in Hrecent.
      cbn -[merge_sort] in Hrecent.
      rewrite length_take, (Permutation_length (merge_sort_Permutation _ _)) in Hrecent.
      cbn in Hrecent. lia. }
    rewrite bool_decide_eq_true_2 by done.
    rewrite bot_Send_run, fault_at_after_call.
    split_and!; [by destruct (fault_at 1 w), w..|]. eexists _, _.
    split; [|done]. destruct (fault_at 1 w), w; cbn; by rewrite <- app_assoc.
  - assert (archiveCollection w ≠ []) as Hsome.
    { intros Hnone. by rewrite Hnone in Hrecent. }
    rewrite bool_decide_eq_false_2 by done.
    destruct (trends_text_run first (first :: archives)
                (after_call (StoreCall (FindArchives 6) false) w))
      as (rest & o & ->).
    rewrite bot_Send_run, fault_at_set_orders, fault_at_after_call.
    split_and!; [by destruct (fault_at 1 w), w..|].
    exists (Lit "📈 **SPENDING TRENDS ANALYSIS**\n" :: rest), "Markdown"%string.
    split; [|done]. destruct (fault_at 1 w), w; cbn; by rewrite <- app_assoc.
Qed.

Lemma extremes_step_scans hi lo a :
  is_finite (MonthlyArchive.TotalSpent hi) → is_finite (MonthlyArchive.TotalSpent lo) →
  is_finite (MonthlyArchive.TotalSpent a) →
  let r := extremes_step (hi, lo) a in
  (r.1 = hi ∨ r.1 = a) ∧ (r.2 = lo ∨ r.2 = a)
  ∧ fle (MonthlyArchive.TotalSpent hi) (MonthlyArchive.TotalSpent r.1) = true
  ∧ fle (MonthlyArchive.TotalSpent a) (MonthlyArchive.TotalSpent r.1) = true
  ∧ fle (MonthlyArchive.TotalSpent r.2) (MonthlyArchive.TotalSpent lo) = true
  ∧ fle (MonthlyArchive.TotalSpent r.2) (MonthlyArchive.TotalSpent a) = true.
Proof.
  intros [x Hx] [y Hy] [z Hz]. cbn zeta. unfold extremes_step. cbn [fst snd].
  rewrite Hx, Hy, Hz.
  destruct (keep_greater z x) as (_ & Hgz & Hgx).
  destruct (keep_smaller z y) as (_ & Hsz & Hsy).
  destruct (fgt (Finite z) (Finite x)), (flt (Finite z) (Finite y));
    rewrite ?Hx, ?Hy, ?Hz; split_and!; auto.
Qed.

Lemma extremes_scan archives : ∀ hi lo,
  Forall (λ a, is_finite (MonthlyArchive.TotalSpent a)) archives →
  is_finite (MonthlyArchive.TotalSpent hi) → is_finite (MonthlyArchive.TotalSpent lo) →
  let r := fold_left extremes_step archives (hi, lo) in
  (r.1 = hi ∨ r.1 ∈ archives) ∧ (r.2 = lo ∨ r.2 ∈ archives)
  ∧ fle (MonthlyArchive.TotalSpent hi) (MonthlyArchive.TotalSpent r.1) = true
  ∧ fle (MonthlyArchive.TotalSpent r.2) (MonthlyArchive.TotalSpent lo) = true
  ∧ Forall (λ a, fle (MonthlyArchive.TotalSpent a) (MonthlyArchive.TotalSpent r.1) = true
                 ∧ fle (MonthlyArchive.TotalSpent r.2) (MonthlyArchive.TotalSpent a) = true)
      archives.
Proof.
  induction archives as [|a archives IH]; intros hi lo Hfin Hhi Hlo; cbn zeta.
  { destruct Hhi as [x Hx], Hlo as [y Hy]. cbn [fold_left fst snd].
    rewrite Hx, Hy, !(proj2 (fle_Finite _ _)) by apply Qcle_refl.
    split_and!; auto. }
  apply Forall_cons in Hfin as [Ha Hfin]. cbn [fold_left].
  destruct (extremes_step_scans hi lo a Hhi Hlo Ha)
    as (Hhi1 & Hlo1 & Hhh & Hah & Hll & Hla).
  destruct (extremes_step (hi, lo) a) as [hi1 lo1]. cbn [fst snd] in *.
  assert (is_finite (MonthlyArchive.TotalSpent hi1)) as Hfhi
    by (by destruct Hhi1 as [-> | ->]).
  assert (is_finite (MonthlyArchive.TotalSpent lo1)) as Hflo
    by (by destruct Hlo1 as [-> | ->]).
  destruct (IH hi1 lo1 Hfin Hfhi Hflo) as (Hhi2 & Hlo2 & Hh & Hl & Hall).
  destruct Hfhi as [x Hx], Hflo as [y Hy]. rewrite Hx in *. rewrite Hy in *.
  split_and!.
  - destruct Hhi2 as [->|?]; [|right; by apply list_elem_of_further].
    destruct Hhi1 as [-> | ->]; [by left | right; apply list_elem_of_here].
  - destruct Hlo2 as [->|?]; [|right; by apply list_elem_of_further].
    destruct Hlo1 as [-> | ->]; [by left | right; apply list_elem_of_here].
  - by eapply fle_trans_Finite.
  - by eapply fle_trans_Finite.
  - apply Forall_cons. split; [|done]. split; by eapply fle_trans_Finite.
Qed.

(** X27.  With three archives or more, whose totals are finite, the
    insights of [SendSpendingTrends] name as the month of the highest
    spending an archive that none exceeds, and as the month of the lowest
    spending an archive that exceeds none; both are among the archives
    analysed. *)
Theorem trend_insights_names_the_extremes first archives avg :
  head archives = Some first →
  Forall (λ a, is_finite (MonthlyArchive.TotalSpent a)) archives →
  ∃ highest lowest volatility,
    trend_insights first archives avg
    = [Lit "🔍 **Insights:**\n";
       Lit "   • Highest spending: "; Lit (MonthlyArchive.MonthName highest); Lit " ";
       Int false (MonthlyArchive.Year highest); Lit " (";
       Float 2 false (MonthlyArchive.TotalSpent highest); Lit "$)\n";
       Lit "   • Lowest spending: "; Lit (MonthlyArchive.MonthName lowest); Lit " ";
       Int false (MonthlyArchive.Year lowest); Lit " (";
       Float 2 false (MonthlyArchive.TotalSpent lowest); Lit "$)\n"]
      ++ volatility
    ∧ highest ∈ archives ∧ lowest ∈ archives
    ∧ Forall (λ a, fle (MonthlyArchive.TotalSpent a)
                     (MonthlyArchive.TotalSpent highest) = true
                   ∧ fle (MonthlyArchive.TotalSpent lowest)
                       (MonthlyArchive.TotalSpent a) = true)
        archives.
Proof.
  intros Hfirst Hfin.
  assert (first ∈ archives) as Hin
    by (destruct archives; simplify_eq/=; apply list_elem_of_here).
  assert (is_finite (MonthlyArchive.TotalSpent first)) as Hf
    by (by eapply (proj1 (Forall_forall _ _) Hfin)).
  destruct (extremes_scan archives first first Hfin Hf Hf)
    as (Hhi & Hlo & _ & _ & Hall).
  unfold trend_insights.
  destruct (fold_left extremes_step archives (first, first)) as [highest lowest].
  cbn [fst snd] in *. exists highest, lowest. eexists. split; [reflexivity|].
  split_and!; [by destruct Hhi as [->|?] | by destruct Hlo as [->|?] | done].
Qed.

#[local] Instance created_after_total : Total created_after.
Proof. intros a b. unfold created_after. lia. Qed.

#[local] Instance created_after_trans : Transitive created_after.
Proof. intros a b c. unfold created_after. lia. Qed.

Lemma GetRecentTransactions_run limit b :
  GetRecentTransactions limit b
  = (if fault_at 0 (world b)
     then Err (Wrapf "failed to fetch recent transactions" ExternalError)
     else Ok (apply_limit limit (merge_sort created_after (collection (world b)))),
     {| world := set_faults (tl (faults (world b))) (world b);
        journal := journal b ++ [CollectionFindRecent limit (fault_at 0 (world b))] |}).
Proof.
  unfold GetRecentTransactions, bindH, further_call, retH. rewrite fault_at_0.
  by destruct (hd false (faults (world b))).
Qed.

(** X28.  [SendTransactionHistory] reads the ledger once and sends one
    message; it changes neither store.  The message is a notice when the
    ledger cannot be read or is empty.  Otherwise it is a title and one
    line for each transaction read, numbered from one: the transactions of
    the ledger, the latest first, as many as the limit allows and all of
    them without a positive limit. *)
Theorem SendTransactionHistory_lists_the_latest_first chatID limit b :
  let b' := (SendTransactionHistory chatID limit b).2 in
  collection (world b') = collection (world b)
  ∧ archiveCollection (world b') = archiveCollection (world b)
  ∧ ∃ content parseMode,
      journal b'
      = journal b
        ++ [CollectionFindRecent limit (fault_at 0 (world b));
            Earlier (BotCall (NewMessage chatID content parseMode None)
                       (fault_at 1 (world b)))]
      ∧ if fault_at 0 (world b)
        then content = [Lit "Error fetching transaction history."]
        else if decide (collection (world b) = [])
        then content = [Lit "No transactions found."]
        else ∃ sorted,
               content
               = Lit "**📜 Recent Transactions:**\n"
                 :: concat (imap history_line (apply_limit limit sorted))
               ∧ StronglySorted created_after sorted
               ∧ sorted ≡ₚ collection (world b)
               ∧ apply_limit limit sorted ≠ []
               ∧ parseMode = "Markdown"%string.
Proof.
  cbn zeta. unfold SendTransactionHistory, bindH.
  rewrite GetRecentTransactions_run.
  assert (fault_at 0 (set_faults (tl (faults (world b))) (world b))
          = fault_at 1 (world b)) as Hnext
    by (destruct b as [[c a t n [|f0 f] o m] j]; by cbn).
  destruct (fault_at 0 (world b)) eqn:Hread.
  { rewrite lift_bot_Send. cbn [world journal]. rewrite Hnext.
    unfold retH. cbn [snd world journal].
    split_and!; [by destruct (fault_at 1 (world b)), (world b)..|].
    eexists _, _. split; [by rewrite <- app_assoc|done]. }
  pose proof (merge_sort_Permutation created_after (collection (world b))) as Hperm.
  pose proof (StronglySorted_merge_sort created_after (collection (world b)))
    as Hsorted.
  set (sorted := merge_sort created_after (collection (world b))) in *.
  assert (apply_limit limit sorted = [] ↔ collection (world b) = []) as Hempty.
  { split.
    - intros Hnil. apply Permutation_nil_r. rewrite <- Hperm.
      unfold apply_limit in Hnil. destruct (0 <? limit) eqn:Hlimit; [|by rewrite Hnil].
      destruct sorted as [|tx sorted']; [done|].
      destruct (Z.to_nat limit) eqn:Hn; [lia|done].
    - intros Hnil. rewrite Hnil in Hperm. apply Permutation_nil_r in Hperm.
      rewrite Hperm. unfold apply_limit. by destruct (0 <? limit), (Z.to_nat limit). }
  rewrite len_eqb_0.
  destruct (decide (collection (world b) = [])) as [Hnone|Hsome].
  - rewrite bool_decide_eq_true_2 by (by apply Hempty).
    rewrite lift_bot_Send. cbn [world journal]. rewrite Hnext.
    unfold retH. cbn [snd world journal].
    split_and!; [by destruct (fault_at 1 (world b)), (world b)..|].
    eexists _, _. split; [by rewrite <- app_assoc|done].
  - rewrite bool_decide_eq_false_2 by (by rewrite Hempty).
    rewrite lift_bot_Send. cbn [world journal]. rewrite Hnext.
    unfold retH. cbn [snd world journal].
    split_and!; [by destruct (fault_at 1 (world b)), (world b)..|].
    eexists _, _. split; [by rewrite <- app_assoc|].
    exists sorted. split_and!; [done..|by rewrite Hempty|done].
Qed.
End trends_and_history.

(** The insights on the archives of three months. *)
Lemma trend_insights_names_the_extremes_witness :
  let january := archive_with "January" 10 1738400400 in
  let february := archive_with "February" 30 1740819600 in
  let march := archive_with "March" 20 1743498000 in
  let archives := [march; february; january] in
  ∃ highest lowest volatility,
    @trend_insights example_platform march archives (float64_of_Z 20)
    = [Lit "🔍 **Insights:**\n";
       Lit "   • Highest spending: "; Lit (MonthlyArchive.MonthName highest); Lit " ";
       Int false (MonthlyArchive.Year highest); Lit " (";
       Float 2 false (MonthlyArchive.TotalSpent highest); Lit "$)\n";
       Lit "   • Lowest spending: "; Lit (MonthlyArchive.MonthName lowest); Lit " ";
       Int false (MonthlyArchive.Year lowest); Lit " (";
       Float 2 false (MonthlyArchive.TotalSpent lowest); Lit "$)\n"]
      ++ volatility
    ∧ highest ∈ archives ∧ lowest ∈ archives
    ∧ Forall (λ a, fle (MonthlyArchive.TotalSpent a)
                     (MonthlyArchive.TotalSpent highest) = true
                   ∧ fle (MonthlyArchive.TotalSpent lowest)
                       (MonthlyArchive.TotalSpent a) = true)
        archives.
Proof.
  intros january february march archives.
  apply (@trend_insights_names_the_extremes example_platform march archives
           (float64_of_Z 20)); [reflexivity|].
  repeat constructor; by eexists.
Defined.
(** ** The export of a month *)

Section export_runs.
Context `{Location} `{Platform}.
Implicit Types (w : World) (b : Bot) (h : Config) (archive : MonthlyArchive.t).

Lemma lift_trace {A} (m : M A) b events :
  trace (m (world b)).2 = trace (world b) ++ events →
  lift m b
  = ((m (world b)).1,
     {| world := (m (world b)).2; journal := journal b ++ (Earlier <$> events) |}).
Proof.
  intros Htrace. unfold lift. destruct (m (world b)) as [a w']. cbn [fst snd] in *.
  by rewrite Htrace, drop_app_length.
Qed.

Lemma GetMonthlyArchive_run monthID b :
  GetMonthlyArchive monthID b
  = (if fault_at 0 (world b)
     then Err (Wrapf "failed to retrieve archive" ExternalError)
     else match find (archive_has_id monthID) (archiveCollection (world b)) with
          | Some archive => Ok archive
          | None => Err (Errorf ("no archive found for month " +:+ monthID))
          end,
     {| world := set_faults (tl (faults (world b))) (world b);
        journal := journal b ++ [ArchiveFindOne monthID (fault_at 0 (world b))] |}).
Proof.
  unfold GetMonthlyArchive, bindH, further_call, retH. rewrite fault_at_0.
  by destruct (hd false (faults (world b))).
Qed.

Lemma fault_at_tail n w : fault_at n (set_faults (tl (faults w)) w) = fault_at (S n) w.
Proof. unfold fault_at. destruct w; cbn. by rewrite drop_tail. Qed.

(** X29.  [/export] with a month.  The stores are left as they are.  A
    month that is not written as in [2025-01], seven characters with a
    hyphen as the fifth, is refused with one message and nothing is read.
    Otherwise the archive of that identifier is read: if there is one, its
    file is sent, named after its month and its year, with a warning if
    the file could not be sent; if there is none, or if the store cannot
    be read, one message says that no archive was found for the month. *)
Theorem ExportMonthlyData_of_a_month chatID commandText cmd arg rest b :
  Fields commandText = cmd :: arg :: rest →
  arg ≠ "compare"%string ∨ rest ≠ [] →
  let b' := (ExportMonthlyData chatID commandText b).2 in
  let failed := λ n, fault_at n (world b) in
  collection (world b') = collection (world b)
  ∧ archiveCollection (world b') = archiveCollection (world b)
  ∧ if decide (String.length arg = 7%nat ∧ String.get 4 arg = Some "-"%char) then
      match (if failed 0%nat then None
             else find (archive_has_id arg) (archiveCollection (world b))) with
      | Some archive =>
          ∃ rows caption,
            journal b'
            = journal b
              ++ [ArchiveFindOne arg false;
                  Earlier
                    (BotCall
                       (NewDocument chatID
                          [Lit "expenses_"; Lit (MonthlyArchive.MonthName archive);
                           Lit "_"; Int false (MonthlyArchive.Year archive);
                           Lit ".csv"]
                          rows caption)
                       (failed 1%nat))]
              ++ (if failed 1%nat
                  then [Earlier
                          (BotCall
                             (NewMessage chatID
                                [Lit "⚠️ Failed to send CSV file. Data is archived in database - use /export command later."]
                                "" None)
                             (failed 2%nat))]
                  else [])
      | None =>
          journal b'
          = journal b
            ++ [ArchiveFindOne arg (failed 0%nat);
                Earlier
                  (BotCall
                     (NewMessage chatID [Lit "❌ No archive found for "; Lit arg]
                        "" None)
                     (failed 1%nat))]
      end
    else
      journal b'
      = journal b
        ++ [Earlier
              (BotCall
                 (NewMessage chatID
                    [Lit "❌ Invalid format. Use: /export 2025-01 or /export compare"]
                    "" None)
                 (failed 0%nat))].
Proof.
  intros Hfields Hmonth. cbn zeta. unfold ExportMonthlyData. rewrite Hfields.
  replace (len (cmd :: arg :: rest) =? 1) with false
    by (symmetry; apply Z.eqb_neq; unfold len; cbn [length]; lia).
  replace ((len (cmd :: arg :: rest) =? 2)
           && bool_decide (part (cmd :: arg :: rest) 1 = "compare"%string))
    with false.
  2:{ symmetry. apply andb_false_iff. destruct Hmonth as [Harg|Hrest].
      - right. by apply bool_decide_eq_false_2.
      - left. destruct rest; [done|]. apply Z.eqb_neq. unfold len.
        cbn [length]. lia. }
  unfold export_month.
  replace (2 <=? len (cmd :: arg :: rest)) with true
    by (symmetry; apply Z.leb_le; unfold len; cbn [length]; lia).
  change (part (cmd :: arg :: rest) 1) with arg. cbv zeta.
  destruct (decide (String.length arg = 7%nat ∧ String.get 4 arg = Some "-"%char))
    as [[Hlength Hhyphen]|Hformat].
  - rewrite Hlength, bool_decide_eq_true_2 by done.
    change ((Z.of_nat 7 =? 7) && true) with true. cbv iota.
    unfold bindH. rewrite GetMonthlyArchive_run.
    destruct (fault_at 0 (world b)) eqn:Hread.
    { cbv beta iota. unfold bindH. rewrite lift_bot_Send. cbn [world journal].
      rewrite fault_at_tail.
      unfold retH. cbn [snd world journal].
      split_and!; [by destruct (fault_at 1 (world b)), (world b)..|].
      by rewrite <- app_assoc. }
    destruct (find (archive_has_id arg) (archiveCollection (world b)))
      as [archive|] eqn:Hfind.
    + set (b1 := {| world := set_faults (tl (faults (world b))) (world b);
                    journal := journal b ++ [ArchiveFindOne arg false] |}).
      destruct (safeExportCSV_calls chatID archive (world b1))
        as (rows & caption & _ & Htrace).
      destruct (safeExportCSV_sends_the_file_stores chatID archive (world b1))
        as [Hledger Harchives].
      cbv beta iota. fold b1. rewrite (lift_trace _ b1 _ Htrace).
      cbn [snd world journal].
      split_and!; [rewrite Hledger; by destruct (world b)
                  |rewrite Harchives; by destruct (world b)|].
      exists rows, caption. subst b1. cbn [world journal].
      rewrite !fault_at_tail, <- app_assoc. cbn [fmap list_fmap app].
      by destruct (fault_at 1 (world b)).
    + cbv beta iota. unfold bindH. rewrite lift_bot_Send. cbn [world journal].
      rewrite fault_at_tail.
      unfold retH. cbn [snd world journal].
      split_and!; [by destruct (fault_at 1 (world b)), (world b)..|].
      by rewrite <- app_assoc.
  - replace ((Z.of_nat (String.length arg) =? 7)
             && bool_decide (String.get 4 arg = Some "-"%char)) with false.
    2:{ symmetry. apply andb_false_iff.
        destruct (decide (String.length arg = 7%nat)) as [Hlength|Hlength].
        - right. apply bool_decide_eq_false_2. tauto.
        - left. apply Z.eqb_neq. lia. }
    unfold bindH. rewrite lift_bot_Send. unfold retH. cbn [snd world journal].
    split_and!; by destruct (fault_at 0 (world b)), (world b).
Qed.
End export_runs.

(** The export of January 2025, which was archived. *)
Lemma ExportMonthlyData_of_a_month_witness :
  let january := archive_with "2025-01" 10 1738400400 in
  let b := start (set_archiveCollection [january] (quiet_world [] [])) in
  let export := @ExportMonthlyData UTC 1 "/export 2025-01" b in
  collection (world export.2) = collection (world b)
  ∧ archiveCollection (world export.2) = archiveCollection (world b)
  ∧ ∃ rows caption,
      journal export.2
      = [ArchiveFindOne "2025-01" false;
         Earlier
           (BotCall
              (NewDocument 1
                 [Lit "expenses_"; Lit "2025-01"; Lit "_"; Int false 2025; Lit ".csv"]
                 rows caption)
              false)].
Proof.
  intros january b export.
  assert (Fields "/export 2025-01" = ["/export"; "2025-01"]%string) as Hfields
    by (vm_compute; reflexivity).
  assert ("2025-01" ≠ "compare" ∨ @nil string ≠ [])%string as Hmonth
    by (left; discriminate).
  pose proof (@ExportMonthlyData_of_a_month UTC 1 "/export 2025-01" "/export"
                "2025-01" [] b Hfields Hmonth) as Hexport.
  cbv zeta in Hexport.
  destruct Hexport as (Hledger & Harchives & Hjournal).
  split; [exact Hledger|]. split; [exact Harchives|].
  rewrite decide_True in Hjournal by (split; reflexivity).
  change (fault_at 0 (world b)) with false in Hjournal.
  cbv iota in Hjournal.
  exact Hjournal.
Defined.
(** ** The messages of the chat *)

Section message_runs.
Context `{Location} `{Platform}.
Implicit Types (w : World) (b : Bot) (h : Config) (u : Update).

Lemma lift_nothing {A} (m : M A) b a : m (world b) = (a, world b) → lift m b = (a, b).
Proof.
  intros Hrun. unfold lift. rewrite Hrun, drop_all, app_nil_r. by destruct b.
Qed.

(** X30.  [HandleMessage] does nothing at all, no call to a store and no
    request to the chat, for a message of a bot, for a message of a chat
    other than the configured one, for a command that it does not know,
    and for a text, new or edited, that is no command and that
    [ValidateAmount] refuses. *)
Theorem HandleMessage_ignores h u b :
  From_IsBot u = true
  ∨ Chat_ID (message u) ≠ ChatID h
  ∨ IsCommand u = true
    ∧ Command u ∉ ["totals"; "reset"; "help"; "start"; "history"; "compare";
                    "trends"; "export"]%string
  ∨ IsCommand u = false ∧ (∃ e, ValidateAmount (Text (message u)) = Err e) →
  HandleMessage h u b = (tt, b).
Proof.
  unfold HandleMessage.
  intros [->|[Hchat|[[-> Hcommand]|[-> [e Hrefused]]]]]; [done|..].
  - destruct (From_IsBot u); [done|]. by rewrite bool_decide_eq_false_2.
  - destruct (From_IsBot u), (bool_decide (Chat_ID (message u) = ChatID h));
      try done. cbn [negb]. unfold handleCommand.
    repeat (rewrite decide_False; [|set_solver]). done.
  - destruct (From_IsBot u), (bool_decide (Chat_ID (message u) = ChatID h));
      try done. cbn [negb].
    destruct (EditDate u =? 0); cbn [negb].
    + destruct (IsAuthorizedUser _ _ _); [|done]. cbn [negb].
      apply lift_nothing. by eapply handleNewTransaction_invalid.
    + apply lift_nothing. by eapply handleEditedMessage_invalid.
Qed.
End message_runs.

(** A greeting in the chat is no amount. *)
Lemma HandleMessage_ignores_witness :
  let u :=
    {| message := message_from 9 "alice" "hello"; From_IsBot := false;
       EditDate := 0; IsCommand := false; Command := "" |} in
  let b := start (quiet_world two_user_ledger []) in
  @HandleMessage UTC example_platform example_config u b = (tt, b).
Proof.
  intros u b.
  apply (@HandleMessage_ignores UTC example_platform example_config u b).
  right. right. right. split; [reflexivity|].
  exists (Errorf "invalid amount format"). reflexivity.
Defined.
